(** * bin/importer of sdc-papi: decoding, loading and saving packages

    A shallow embedding of the importer script (the JavaScript program that
    follows the JSON schema in [etc/config.test.json]): [decode],
    [loadJsonPackages], [loadLdifPackages], [loadUfdsPackages],
    [savePapiPackages], [selectPackageSource] and [main], together with the
    parts of the JavaScript runtime they call ([Number], [JSON.parse],
    string conversion, truthiness, [===], [String.prototype.split], the
    one regular expression of the LDIF loader and base64 decoding).

    Conventions of the model.
    - The runtime is ECMAScript as current versions of Node.js implement
      it.
    - A JavaScript string is a [string] of bytes, the UTF-8 image of the
      text (a surrogate that stands alone in its three-byte form); the
      files read are well-formed UTF-8.
    - A JavaScript object is a finite map from property names to values,
      its own properties. The names that the program writes out
      ([obj.uuid], [obj[a]] for the attributes of its lists) are not
      names that objects inherit, so that reading them is a lookup. The
      LDIF loader reads [lookup[name]] for names taken from the text:
      the names of [inherited_names] are set apart there. The enumeration
      order of keys is not observable in this program.
    - A number is [NaN], an infinity, or the binary64 value nearest to the
      decimal it was read from ([Dec], [dec64]).
    - [decode] mutates its argument in place and returns it; here it returns
      the updated map, so a second call on the same object is a call on the
      result of the first. [Number] can throw inside [decode]:
      [decode_throws] tells when, and [decode_obj] is the record that
      [decode] returns when it does not.
    - Log calls are collected in order in a list of entries. *)

From Stdlib Require Import ZArith NArith Ascii String List Bool Lia DecimalString.
From stdpp Require Import gmap strings list fin_maps.

#[local] Set Warnings "-register-all".
#[local] Open Scope string_scope.
#[local] Open Scope list_scope.

(** ** Values *)

(** A JavaScript number: NaN, an infinity, or the binary64 value nearest
    to the decimal [(-1)^neg * m * 10^e] it was read from. The decimal is
    kept as it was read; what the program can observe of it (truth,
    [===], its printed form) goes through [dec64], so two decimals of the
    same binary64 value are told apart by nothing. *)
Inductive number :=
| NaN
| Inf (neg : bool)
| Dec (neg : bool) (m : N) (e : Z).

(** A JavaScript value as JSON and the loaders can produce it. *)
Inductive value :=
| VUndef
| VNull
| VBool (b : bool)
| VNum (n : number)
| VStr (s : string)
| VArr (l : list value)
| VObj (o : gmap string value).

(** [obj[k]] for a name [k] that objects do not inherit (every name
    that the program writes out is such a name): an absent property
    reads as [undefined]. *)
Definition get (o : gmap string value) (k : string) : value :=
  default VUndef (o !! k).

(** [Array.isArray(v)]. *)
Definition isArray (v : value) : bool :=
  match v with VArr _ => true | _ => false end.

(** The decimal digits of a natural number. *)
Definition digits_of (m : N) : string := NilZero.string_of_uint (N.to_uint m).

(** A non-negative binary64 value: zero, [m * 2^e] with [m] below [2^53]
    and [e] from -1074 to 971 ([m] at least [2^52] unless [e] is -1074),
    or more than the format holds. *)
Inductive binary64 :=
| Zero64
| Finite64 (m e : Z)
| Infinite64.

(** The integer nearest to [p / q], the even one of two. *)
Definition nearest_even (p q : Z) : Z :=
  let f := (p / q)%Z in
  let r := (p mod q)%Z in
  if (2 * r <? q)%Z then f
  else if (q <? 2 * r)%Z then (f + 1)%Z
  else if Z.even f then f else (f + 1)%Z.

(** [p / q] times [2^(-e)], and times [10^(-t)], as fractions. *)
Definition scale2 (p q e : Z) : Z * Z :=
  if (0 <=? e)%Z then (p, q * 2 ^ e)%Z else (p * 2 ^ (- e), q)%Z.

Definition scale10 (p q t : Z) : Z * Z :=
  if (0 <=? t)%Z then (p, q * 10 ^ t)%Z else (p * 10 ^ (- t), q)%Z.

(** [2^k <= p / q], and [10^k <= p / q]. *)
Definition ge_pow2 (p q k : Z) : bool :=
  let '(a, b) := scale2 p q k in (b <=? a)%Z.

Definition ge_pow10 (p q k : Z) : bool :=
  let '(a, b) := scale10 p q k in (b <=? a)%Z.

(** The binary64 value nearest to the positive fraction [p / q], ties to
    even. *)
Definition round64 (p q : Z) : binary64 :=
  let lg := (Z.log2 p - Z.log2 q)%Z in
  let fl := if ge_pow2 p q lg then lg else (lg - 1)%Z in
  let e := Z.max (fl - 52) (-1074) in
  let '(a, b) := scale2 p q e in
  let m := nearest_even a b in
  let '(m, e) := if (m =? 2 ^ 53)%Z then (2 ^ 52, e + 1)%Z else (m, e) in
  if (m =? 0)%Z then Zero64
  else if (971 <? e)%Z then Infinite64
  else Finite64 m e.

(** The binary64 value of the decimal [m * 10^x]. A decimal of more than
    310 integer digits is beyond the format, and one below [10^-330]
    rounds to zero. *)
Definition dec64 (m : N) (x : Z) : binary64 :=
  if (m =? 0)%N then Zero64
  else
    let nd := Z.of_nat (String.length (digits_of m)) in
    if (310 <? nd + x)%Z then Infinite64
    else if (nd + x <? -330)%Z then Zero64
    else if (0 <=? x)%Z then round64 (Z.of_N m * 10 ^ x) 1
    else round64 (Z.of_N m) (10 ^ (- x)).

(** A decimal [m * 10^e] that does not round to zero. *)
Definition dec_nonzero (m : N) (e : Z) : bool :=
  match dec64 m e with Zero64 => false | _ => true end.

(** ToBoolean. *)
Definition truthy (v : value) : bool :=
  match v with
  | VUndef | VNull => false
  | VBool b => b
  | VNum NaN => false
  | VNum (Inf _) => true
  | VNum (Dec _ m e) => dec_nonzero m e
  | VStr s => negb (String.eqb s "")
  | VArr _ | VObj _ => true
  end.

(** Numeric equality of [===]: [NaN] equals nothing, itself included;
    the two zeros are equal; decimals are compared by their binary64
    values. *)
Definition number_equals (a b : number) : bool :=
  match a, b with
  | NaN, _ | _, NaN => false
  | Inf s, Inf t => Bool.eqb s t
  | Inf s, Dec t n f | Dec t n f, Inf s =>
      match dec64 n f with Infinite64 => Bool.eqb s t | _ => false end
  | Dec s m e, Dec t n f =>
      match dec64 m e, dec64 n f with
      | Zero64, Zero64 => true
      | Finite64 a x, Finite64 b y => Bool.eqb s t && (a =? b)%Z && (x =? y)%Z
      | Infinite64, Infinite64 => Bool.eqb s t
      | _, _ => false
      end
  end.

(** [a === b] where at most one side is an object or array: the program
    compares only against literals, never two references. *)
Definition strict_equals (a b : value) : bool :=
  match a, b with
  | VUndef, VUndef => true
  | VNull, VNull => true
  | VBool x, VBool y => Bool.eqb x y
  | VNum x, VNum y => number_equals x y
  | VStr x, VStr y => String.eqb x y
  | _, _ => false
  end.

(** ** Characters and strings *)

(** The code of a character. *)
Definition code (c : ascii) : N := N_of_ascii c.

(** The value of a hexadecimal digit, in either case. *)
Definition hex_val (c : ascii) : option N :=
  let n := code c in
  if (48 <=? n)%N && (n <=? 57)%N then Some (n - 48)%N
  else if (65 <=? n)%N && (n <=? 70)%N then Some (n - 55)%N
  else if (97 <=? n)%N && (n <=? 102)%N then Some (n - 87)%N
  else None.

(** White space and line terminators of StringToNumber (StrWhiteSpaceChar),
    by the bytes of their UTF-8 form: TAB, LF, VT, FF, CR and the space;
    U+00A0; U+1680, U+2000 to U+200A, U+2028, U+2029, U+202F, U+205F,
    U+3000 and U+FEFF. *)
Definition is_str_ws1 (a : ascii) : bool :=
  let n := code a in
  (n =? 9)%N || (n =? 10)%N || (n =? 11)%N || (n =? 12)%N || (n =? 13)%N || (n =? 32)%N.

Definition is_str_ws2 (a b : ascii) : bool :=
  (code a =? 194)%N && (code b =? 160)%N.

Definition is_str_ws3 (a b c : ascii) : bool :=
  let '(x, y, z) := (code a, code b, code c) in
  ((x =? 225)%N && (y =? 154)%N && (z =? 128)%N)
  || ((x =? 226)%N && (y =? 128)%N
      && (((128 <=? z)%N && (z <=? 138)%N) || (z =? 168)%N || (z =? 169)%N
          || (z =? 175)%N))
  || ((x =? 226)%N && (y =? 129)%N && (z =? 159)%N)
  || ((x =? 227)%N && (y =? 128)%N && (z =? 128)%N)
  || ((x =? 239)%N && (y =? 187)%N && (z =? 191)%N).

(** White space of the JSON grammar. *)
Definition is_json_ws (c : ascii) : bool :=
  let n := code c in
  (n =? 9)%N || (n =? 10)%N || (n =? 13)%N || (n =? 32)%N.

(** [s] without its longest prefix of characters satisfying [p]. *)
Fixpoint drop_while (p : ascii -> bool) (s : string) : string :=
  match s with
  | String c r => if p c then drop_while p r else s
  | EmptyString => EmptyString
  end.

(** Reversal of a string, with an accumulator. *)
Fixpoint string_rev_onto (s acc : string) : string :=
  match s with
  | EmptyString => acc
  | String c r => string_rev_onto r (String c acc)
  end.

Definition string_rev (s : string) : string := string_rev_onto s "".

(** [s] without the white space it starts with; with [back], [s] is
    read from its end, so that the bytes of a character come last first. *)
Fixpoint drop_str_ws (back : bool) (s : string) : string :=
  match s with
  | String a r1 =>
      if is_str_ws1 a then drop_str_ws back r1
      else
        match r1 with
        | String b r2 =>
            if (if back then is_str_ws2 b a else is_str_ws2 a b)
            then drop_str_ws back r2
            else
              match r2 with
              | String c r3 =>
                  if (if back then is_str_ws3 c b a else is_str_ws3 a b c)
                  then drop_str_ws back r3
                  else s
              | EmptyString => s
              end
        | EmptyString => s
        end
  | EmptyString => s
  end.

(** [s] without white space at both ends. *)
Definition trim_str_ws (s : string) : string :=
  string_rev (drop_str_ws true (string_rev (drop_str_ws false s))).

(** [strip p s]: [Some r] when [s = p +:+ r]. *)
Fixpoint strip (p s : string) : option string :=
  match p, s with
  | EmptyString, _ => Some s
  | String a p', String b s' => if Ascii.eqb a b then strip p' s' else None
  | String _ _, EmptyString => None
  end.

(** [starts_with c s]: the rest of [s] after its first character [c]. *)
Definition starts_with (c : ascii) (s : string) : option string :=
  match s with
  | String x r => if Ascii.eqb x c then Some r else None
  | EmptyString => None
  end.

(** Reads the longest run of digits in base [b], accumulating its value
    and counting the digits read. *)
Fixpoint read_digits (b : N) (s : string) (acc : N) (cnt : nat)
  : N * nat * string :=
  match s with
  | String c r =>
      match hex_val c with
      | Some d => if (d <? b)%N then read_digits b r (acc * b + d)%N (S cnt)
                  else (acc, cnt, s)
      | None => (acc, cnt, s)
      end
  | EmptyString => (acc, cnt, s)
  end.

(** An optional sign, for an exponent. *)
Definition read_sign (s : string) : Z * string :=
  match starts_with "+" s with
  | Some r => (1%Z, r)
  | None =>
      match starts_with "-" s with
      | Some r => ((-1)%Z, r)
      | None => (1%Z, s)
      end
  end.

(** An optional exponent part [e|E [+|-] digits]; [None] when an exponent
    marker is not followed by digits. *)
Definition read_exponent (s : string) : option (Z * string) :=
  match s with
  | String c r =>
      if Ascii.eqb c "e" || Ascii.eqb c "E" then
        let '(sg, r1) := read_sign r in
        let '(x, n, r2) := read_digits 10 r1 0%N 0 in
        match n with
        | O => None
        | S _ => Some ((sg * Z.of_N x)%Z, r2)
        end
      else Some (0%Z, s)
  | EmptyString => Some (0%Z, s)
  end.

(** ** Number(v) *)

(** StrUnsignedDecimalLiteral, which must span the whole string. *)
Definition str_unsigned_decimal (neg : bool) (s : string) : number :=
  if String.eqb s "Infinity" then Inf neg
  else
    let '(i, ni, r1) := read_digits 10 s 0%N 0 in
    match starts_with "." r1 with
    | Some r2 =>
        let '(m, nf, r3) := read_digits 10 r2 i 0 in
        match ni, nf with
        | O, O => NaN
        | _, _ =>
            match read_exponent r3 with
            | Some (x, EmptyString) => Dec neg m (x - Z.of_nat nf)
            | _ => NaN
            end
        end
    | None =>
        match ni with
        | O => NaN
        | S _ =>
            match read_exponent r1 with
            | Some (x, EmptyString) => Dec neg i x
            | _ => NaN
            end
        end
    end.

(** The digits of a [0x], [0o] or [0b] literal, which must span the rest
    of the string and be at least one. *)
Definition radix_literal (b : N) (s : string) : number :=
  match read_digits b s 0%N 0 with
  | (x, S _, EmptyString) => Dec false x 0
  | _ => NaN
  end.

(** StringToNumber: trim, then an empty string is [+0], then a radix
    literal or a signed decimal literal; anything else is [NaN]. *)
Definition StringToNumber (s : string) : number :=
  match trim_str_ws s with
  | EmptyString => Dec false 0 0
  | String "0" (String "x" r) | String "0" (String "X" r) => radix_literal 16 r
  | String "0" (String "o" r) | String "0" (String "O" r) => radix_literal 8 r
  | String "0" (String "b" r) | String "0" (String "B" r) => radix_literal 2 r
  | String "+" r => str_unsigned_decimal false r
  | String "-" r => str_unsigned_decimal true r
  | t => str_unsigned_decimal false t
  end.

(** ** String(v) *)

(** [n] zeros. *)
Fixpoint zeros (n : nat) : string :=
  match n with O => "" | S k => String "0" (zeros k) end.

(** Moves trailing zeros of the digits into the exponent, at most [fuel]
    of them. *)
Fixpoint strip_zeros_fuel (fuel : nat) (m : N) (e : Z) : N * Z :=
  match fuel with
  | O => (m, e)
  | S k => if (m mod 10 =? 0)%N then strip_zeros_fuel k (m / 10)%N (e + 1)%Z
           else (m, e)
  end.

(** [s.slice(0, n)] and [s.slice(n)]. *)
Definition string_take (n : nat) (s : string) : string := String.substring 0 n s.
Definition string_drop (n : nat) (s : string) : string :=
  String.substring n (String.length s - n) s.

(** The decimal [s * 10^t] of [nd] digits that is nearest to [p / q],
    among those that read back as [m * 2^e], if there is one; [p10] is
    the decimal exponent of [p / q]. *)
Definition digits64 (m e p q p10 : Z) (nd : nat) : option (Z * Z) :=
  let t := (p10 - (Z.of_nat nd - 1))%Z in
  let '(a, b) := scale10 p q t in
  let lo := (a / b)%Z in
  let hi := (lo + 1)%Z in
  let reads s :=
    match dec64 (Z.to_N s) t with
    | Finite64 m' e' => (m' =? m)%Z && (e' =? e)%Z
    | _ => false
    end in
  let r := (a mod b)%Z in
  let lo_nearer :=
    if (2 * r <? b)%Z then true
    else if (b <? 2 * r)%Z then false
    else Z.even lo in
  match reads lo, reads hi with
  | true, true => Some (if lo_nearer then lo else hi, t)
  | true, false => Some (lo, t)
  | false, true => Some (hi, t)
  | false, false => None
  end.

(** The first number of digits, from [nd] on, that will do. *)
Fixpoint shortest_from (fuel : nat) (m e p q p10 : Z) (nd : nat) : Z * Z :=
  match digits64 m e p q p10 nd with
  | Some r => r
  | None =>
      match fuel with
      | O => (m, e)
      | S k => shortest_from k m e p q p10 (S nd)
      end
  end.

(** The shortest decimal that reads back as the binary64 value [m * 2^e],
    and the nearest to it of that length; seventeen digits always do. *)
Definition shortest64 (m e : Z) : Z * Z :=
  let '(p, q) := scale2 m 1 (- e) in
  let est := ((Z.log2 m + e) * 30103 / 100000)%Z in
  let p10 := if ge_pow10 p q (est + 1) then (est + 1)%Z
             else if ge_pow10 p q est then est else (est - 1)%Z in
  shortest_from 16 m e p q p10 1.

(** The layout of Number::toString in radix 10, for the digits [m] and
    the exponent [e] of a non-zero decimal. *)
Definition dec_to_string (neg : bool) (m : N) (e : Z) : string :=
  let '(m', e') := strip_zeros_fuel (String.length (digits_of m)) m e in
  let ds := digits_of m' in
  let k := Z.of_nat (String.length ds) in
  let n := (k + e')%Z in
  let body :=
    if (k <=? n)%Z && (n <=? 21)%Z then ds +:+ zeros (Z.to_nat (n - k))
    else if (0 <? n)%Z && (n <=? 21)%Z then
      string_take (Z.to_nat n) ds +:+ "." +:+ string_drop (Z.to_nat n) ds
    else if (-6 <? n)%Z && (n <=? 0)%Z then "0." +:+ zeros (Z.to_nat (- n)) +:+ ds
    else
      let x := (n - 1)%Z in
      let sg := if (x <? 0)%Z then "-" else "+" in
      let xs := digits_of (Z.abs_N x) in
      if (k =? 1)%Z then ds +:+ "e" +:+ sg +:+ xs
      else string_take 1 ds +:+ "." +:+ string_drop 1 ds +:+ "e" +:+ sg +:+ xs in
  if neg then "-" +:+ body else body.

(** Number::toString in radix 10: the shortest decimal that reads back
    as the value. *)
Definition number_to_string (n : number) : string :=
  match n with
  | NaN => "NaN"
  | Inf false => "Infinity"
  | Inf true => "-Infinity"
  | Dec neg m e =>
      match dec64 m e with
      | Zero64 => "0"
      | Infinite64 => if neg then "-Infinity" else "Infinity"
      | Finite64 b x =>
          let '(s, t) := shortest64 b x in dec_to_string neg (Z.to_N s) t
      end
  end.

(** [l.join(sep)]. *)
Fixpoint join (sep : string) (l : list string) : string :=
  match l with
  | [] => ""
  | [x] => x
  | x :: r => x +:+ sep +:+ join sep r
  end.

(** ToPrimitive throws a TypeError when neither [valueOf] nor [toString]
    gives a primitive value. An object read by [JSON.parse] has its
    properties for own data properties, none of them callable: with an own
    [toString] it has no callable [toString] left, and the [valueOf] it
    inherits returns the object itself. An array is converted by joining
    its elements, each converted in turn but for [null] and
    [undefined]. *)
Fixpoint throws_TypeError (v : value) : bool :=
  match v with
  | VObj o => bool_decide (is_Some (o !! "toString"))
  | VArr l =>
      (fix any (l : list value) : bool :=
         match l with
         | [] => false
         | x :: r => throws_TypeError x || any r
         end) l
  | _ => false
  end.

(** ToString, where it does not throw ([throws_TypeError]); an array is
    its elements joined by commas, where [null] and [undefined] elements
    print as nothing; an object is [[object Object]]. *)
Fixpoint ToString (v : value) : string :=
  match v with
  | VUndef => "undefined"
  | VNull => "null"
  | VBool true => "true"
  | VBool false => "false"
  | VNum n => number_to_string n
  | VStr s => s
  | VArr l =>
      join ","
        ((fix elems (l : list value) : list string :=
            match l with
            | [] => []
            | VUndef :: r | VNull :: r => "" :: elems r
            | x :: r => ToString x :: elems r
            end) l)
  | VObj _ => "[object Object]"
  end.

(** ToNumber, where it does not throw ([throws_TypeError]). *)
Definition ToNumber (v : value) : number :=
  match v with
  | VUndef => NaN
  | VNull => Dec false 0 0
  | VBool true => Dec false 1 0
  | VBool false => Dec false 0 0
  | VNum n => n
  | VStr s => StringToNumber s
  | VArr _ | VObj _ => StringToNumber (ToString v)
  end.

(** ** JSON.parse *)

(** The result of a parser: a value and the rest of the text, a
    SyntaxError, or no result for want of fuel. *)
Inductive parse_result (A : Type) :=
| Parsed (a : A) (rest : string)
| SyntaxError
| OutOfFuel.
Arguments Parsed {A} a rest.
Arguments SyntaxError {A}.
Arguments OutOfFuel {A}.

(** Skips JSON white space. *)
Definition skip_ws (s : string) : string := drop_while is_json_ws s.

(** The character of a code. *)
Definition byte (n : N) : ascii := ascii_of_N n.

(** The UTF-8 bytes of a code unit given by a [\uXXXX] escape; a
    surrogate is paired afterwards ([pair_surrogates]). *)
Definition utf8_of_code_unit (u : N) : string :=
  if (u <? 128)%N then String (byte u) ""
  else if (u <? 2048)%N then
    String (byte (192 + u / 64)) (String (byte (128 + u mod 64)) "")
  else
    String (byte (224 + u / 4096))
      (String (byte (128 + (u / 64) mod 64)) (String (byte (128 + u mod 64)) "")).

(** The code unit written by four hexadecimal digits. *)
Definition hex4 (a b c d : ascii) : option N :=
  match hex_val a, hex_val b, hex_val c, hex_val d with
  | Some x, Some y, Some z, Some w => Some (((x * 16 + y) * 16 + z) * 16 + w)%N
  | _, _, _, _ => None
  end.

(** The double quote, and a text between double quotes. *)
Definition dquote : ascii := ascii_of_N 34.

Definition quoted (s : string) : string := String dquote (s +:+ String dquote "").

(** The character an escape letter stands for ([\u] apart). *)
Definition unescape (e : ascii) : option ascii :=
  if Ascii.eqb e dquote then Some dquote
  else if Ascii.eqb e "\" then Some "\"%char
  else if Ascii.eqb e "/" then Some "/"%char
  else if Ascii.eqb e "b" then Some (byte 8)
  else if Ascii.eqb e "f" then Some (byte 12)
  else if Ascii.eqb e "n" then Some (byte 10)
  else if Ascii.eqb e "r" then Some (byte 13)
  else if Ascii.eqb e "t" then Some (byte 9)
  else None.

(** The characters of a JSON string after its opening quote. *)
Fixpoint parse_string_body (s : string) : parse_result string :=
  match s with
  | EmptyString => SyntaxError
  | String c r =>
      if Ascii.eqb c dquote then Parsed "" r
      else if Ascii.eqb c "\" then
        match r with
        | EmptyString => SyntaxError
        | String e r1 =>
            if Ascii.eqb e "u" then
              match r1 with
              | String a (String b (String c' (String d r2))) =>
                  match hex4 a b c' d with
                  | Some u =>
                      match parse_string_body r2 with
                      | Parsed t r3 => Parsed (utf8_of_code_unit u +:+ t) r3
                      | err => err
                      end
                  | None => SyntaxError
                  end
              | _ => SyntaxError
              end
            else
              match unescape e with
              | Some x =>
                  match parse_string_body r1 with
                  | Parsed t r3 => Parsed (String x t) r3
                  | err => err
                  end
              | None => SyntaxError
              end
        end
      else if (code c <? 32)%N then SyntaxError
      else
        match parse_string_body r with
        | Parsed t r' => Parsed (String c t) r'
        | err => err
        end
  end.

(** A high surrogate followed by a low one, each in the three-byte form
    of a code unit, is one character: its four-byte form takes their
    place. *)
Fixpoint pair_surrogates (s : string) : string :=
  match s with
  | EmptyString => EmptyString
  | String a rest =>
      match rest with
      | String b (String c (String d (String e (String f r)))) =>
          let '(h1, h2, l1, l2) := (code b, code c, code e, code f) in
          if (code a =? 237)%N && (160 <=? h1)%N && (h1 <=? 175)%N
             && (128 <=? h2)%N && (h2 <=? 191)%N
             && (code d =? 237)%N && (176 <=? l1)%N && (l1 <=? 191)%N
             && (128 <=? l2)%N && (l2 <=? 191)%N
          then
            let cp := (65536 + ((h1 - 160) * 64 + (h2 - 128)) * 1024
                       + ((l1 - 176) * 64 + (l2 - 128)))%N in
            String (byte (240 + cp / 262144))
              (String (byte (128 + (cp / 4096) mod 64))
                 (String (byte (128 + (cp / 64) mod 64))
                    (String (byte (128 + cp mod 64)) (pair_surrogates r))))
          else String a (pair_surrogates rest)
      | _ => String a (pair_surrogates rest)
      end
  end.

(** The fraction of a JSON number: a point needs digits after it. *)
Definition read_fraction (i : N) (s : string) : option (N * nat * string) :=
  match starts_with "." s with
  | Some r =>
      let '(m, nf, r') := read_digits 10 r i 0 in
      match nf with
      | O => None
      | S _ => Some (m, nf, r')
      end
  | None => Some (i, O, s)
  end.

(** A JSON number: [-? int frac? exp?], no leading zeros, digits required
    after the point and after the exponent marker. *)
Definition parse_number (s : string) : parse_result number :=
  let '(neg, s1) :=
    match starts_with "-" s with
    | Some r => (true, r)
    | None => (false, s)
    end in
  let '(i, ni, r1) := read_digits 10 s1 0%N 0 in
  let leading_zero :=
    match starts_with "0" s1 with Some _ => true | None => false end in
  match ni with
  | O => SyntaxError
  | S k =>
      if leading_zero && negb (Nat.eqb k 0) then SyntaxError
      else
        match read_fraction i r1 with
        | None => SyntaxError
        | Some (m, nf, r3) =>
            match read_exponent r3 with
            | Some (x, r4) => Parsed (Dec neg m (x - Z.of_nat nf)) r4
            | None => SyntaxError
            end
        end
  end.

(** One of the literal names [true], [false], [null]. *)
Definition parse_literal (lit : string) (v : value) (s : string)
  : parse_result value :=
  match strip lit s with
  | Some r => Parsed v r
  | None => SyntaxError
  end.

(** A scalar: a string, a literal name or a number, by its first
    character. *)
Definition parse_scalar (s : string) : parse_result value :=
  match s with
  | EmptyString => SyntaxError
  | String c r =>
      if Ascii.eqb c dquote then
        match parse_string_body r with
        | Parsed x r' => Parsed (VStr (pair_surrogates x)) r'
        | SyntaxError => SyntaxError
        | OutOfFuel => OutOfFuel
        end
      else if Ascii.eqb c "t" then parse_literal "true" (VBool true) s
      else if Ascii.eqb c "f" then parse_literal "false" (VBool false) s
      else if Ascii.eqb c "n" then parse_literal "null" VNull s
      else
        match parse_number s with
        | Parsed n r' => Parsed (VNum n) r'
        | SyntaxError => SyntaxError
        | OutOfFuel => OutOfFuel
        end
  end.

(** Recursive descent over the JSON grammar. Elements are accumulated in
    reverse; a repeated member name keeps the last value. *)
Fixpoint parse_value (fuel : nat) (s : string) : parse_result value :=
  match fuel with
  | O => OutOfFuel
  | S f =>
      match starts_with "{" (skip_ws s) with
      | Some r =>
          match starts_with "}" (skip_ws r) with
          | Some r' => Parsed (VObj ∅) r'
          | None => parse_members f (skip_ws r) ∅
          end
      | None =>
          match starts_with "[" (skip_ws s) with
          | Some r =>
              match starts_with "]" (skip_ws r) with
              | Some r' => Parsed (VArr []) r'
              | None => parse_elements f (skip_ws r) []
              end
          | None => parse_scalar (skip_ws s)
          end
      end
  end
with parse_elements (fuel : nat) (s : string) (acc : list value)
  : parse_result value :=
  match fuel with
  | O => OutOfFuel
  | S f =>
      match parse_value f s with
      | Parsed v r =>
          match starts_with "," (skip_ws r) with
          | Some r' => parse_elements f r' (v :: acc)
          | None =>
              match starts_with "]" (skip_ws r) with
              | Some r' => Parsed (VArr (rev (v :: acc))) r'
              | None => SyntaxError
              end
          end
      | err => err
      end
  end
with parse_members (fuel : nat) (s : string) (acc : gmap string value)
  : parse_result value :=
  match fuel with
  | O => OutOfFuel
  | S f =>
      match starts_with dquote (skip_ws s) with
      | Some r =>
          match parse_string_body r with
          | Parsed k r1 =>
              match starts_with ":" (skip_ws r1) with
              | Some r2 =>
                  match parse_value f r2 with
                  | Parsed v r3 =>
                      match starts_with "," (skip_ws r3) with
                      | Some r4 =>
                          parse_members f r4 (<[pair_surrogates k := v]> acc)
                      | None =>
                          match starts_with "}" (skip_ws r3) with
                          | Some r4 =>
                              Parsed (VObj (<[pair_surrogates k := v]> acc)) r4
                          | None => SyntaxError
                          end
                      end
                  | err => err
                  end
              | None => SyntaxError
              end
          | SyntaxError => SyntaxError
          | OutOfFuel => OutOfFuel
          end
      | None => SyntaxError
      end
  end.

(** Fuel that the descent cannot use up on [s] (lemma [JSON_parse_fuel]). *)
Definition json_fuel (s : string) : nat := 2 * String.length s + 2.

(** [JSON.parse] of a string: one value, then only white space. [None]
    stands for the SyntaxError it throws. *)
Definition JSON_parse_string (s : string) : option value :=
  match parse_value (json_fuel s) s with
  | Parsed v r =>
      match skip_ws r with
      | EmptyString => Some v
      | _ => None
      end
  | _ => None
  end.

(** [JSON.parse(v)]: the argument is first converted to a string. [None]
    stands for the exception it throws, TypeError from the conversion or
    SyntaxError from the text; [JSON_parse_error] names it. *)
Definition JSON_parse (v : value) : option value :=
  if throws_TypeError v then None else JSON_parse_string (ToString v).

Definition JSON_parse_error (v : value) : string :=
  if throws_TypeError v then "TypeError" else "SyntaxError".

Arguments JSON_parse_string : simpl never.
Arguments JSON_parse : simpl never.
Arguments StringToNumber : simpl never.

(** ** Logging *)

(** The levels the program logs at. *)
Inductive level := Info | Warn | Error.

(** One call of [log.info], [log.warn] or [log.error]: the fields object as
    it was when the call was made, and the message. An exception object in
    the fields is recorded by its name. *)
Record entry := Entry {
  lvl : level;
  fields : list (string * value);
  msg : string
}.

(** A statement of [decode] that completes normally: it updates the
    object and may log. The one statement of [decode] that can throw is
    [Number(obj[a])]; [decode_throws] tells when it does. *)
Definition step := gmap string value -> gmap string value * list entry.

(** Sequencing of two statements that update the object and may log. *)
Definition seq (f g : step) : step :=
  fun o => let '(o1, l1) := f o in
           let '(o2, l2) := g o1 in
           (o2, l1 ++ l2).

(** The empty statement. *)
Definition skip : step := fun o => (o, []).

(** [names.forEach(function (a) { body })]. *)
Fixpoint forEach (names : list string) (body : string -> step) : step :=
  match names with
  | [] => skip
  | a :: rest => seq (body a) (forEach rest body)
  end.

(** ** decode *)

(** [var attrs2ignore], [var attrs2numerify], [var attrs2boolean]. *)
Definition attrs2ignore : list string :=
  ["dn"; "objectclass"; "controls"; "overprovision_cpu";
   "overprovision_memory"; "overprovision_storage";
   "overprovision_network"; "overprovision_io"; "urn"].

Definition attrs2numerify : list string :=
  ["max_physical_memory"; "max_swap"; "vcpus"; "cpu_cap";
   "max_lwps"; "quota"; "zfs_io_priority"; "fss";
   "cpu_burst_ratio"; "ram_ratio"].

Definition attrs2boolean : list string := ["active"; "default"].

(** [delete obj[a]]. *)
Definition ignore_attr (a : string) : step :=
  fun o => (delete a o, []).

(** [if (obj[a]) obj[a] = Number(obj[a]);] and then
    [if (obj[a] === NaN) log.warn(...)], when [Number] returns. *)
Definition numerify_attr (a : string) : step :=
  fun o =>
    let o1 := if truthy (get o a) then <[a := VNum (ToNumber (get o a))]> o else o in
    if strict_equals (get o1 a) (VNum NaN)
    then (o1, [Entry Warn [("package", VObj o1)] "Number is NaN"])
    else (o1, []).

(** [if (obj[a] === undefined) return;] and then
    [obj[a] = (obj[a] === 'true' || obj[a] === true)]. *)
Definition boolean_attr (a : string) : step :=
  fun o =>
    if strict_equals (get o a) VUndef then (o, [])
    else (<[a := VBool (strict_equals (get o a) (VStr "true")
                        || strict_equals (get o a) (VBool true))]> o, []).

(** The [if (obj.networks)] block. *)
Definition decode_networks : step :=
  fun o =>
    if truthy (get o "networks") then
      match get o "networks" with
      | VStr s =>
          match JSON_parse (VStr s) with
          | Some v => (<["networks" := v]> o, [])
          | None =>
              let o1 := <["networks" := VArr []]> o in
              (o1, [Entry Error [("err", VStr "SyntaxError"); ("package", VObj o1)]
                      "Error importing networks"])
          end
      | v =>
          if negb (isArray v) then
            let o1 := <["networks" := VArr []]> o in
            (o1, [Entry Error [("package", VObj o1)] "Error importing networks"])
          else (o, [])
      end
    else (o, []).

(** we're changing from owner_uuid to owner_uuids here *)
Definition decode_owner_uuid : step :=
  fun o =>
    if truthy (get o "owner_uuid") then
      let '(o1, l1) :=
        match get o "owner_uuid" with
        | VStr s =>
            match JSON_parse (VStr s) with
            | Some v => (<["owner_uuids" := v]> o, [])
            | None => (<["owner_uuids" := VArr [VStr s]]> o, [])
            end
        | v =>
            if negb (isArray v) then
              let o' := <["owner_uuids" := VArr []]> o in
              (o', [Entry Error [("package", VObj o')] "Error importing owners"])
            else (<["owner_uuids" := v]> o, [])
        end in
      (delete "owner_uuid" o1, l1)
    else (o, []).

(** The common shape of the [traits] and [min_platform] blocks. *)
Definition decode_blob (a : string) : step :=
  fun o =>
    if truthy (get o a) then
      match JSON_parse (get o a) with
      | Some v => (<[a := v]> o, [])
      | None =>
          let o1 := <[a := VObj ∅]> o in
          (o1, [Entry Error [("err", VStr (JSON_parse_error (get o a)));
                             ("package", VObj o1)]
                  ("Error importing " +:+ a)])
      end
    else (o, []).

(** The body of [decode] on an object, statement after statement: the
    object and the log when [decode] returns. *)
Definition decode_obj : step :=
  seq (forEach attrs2ignore ignore_attr)
  (seq (forEach attrs2numerify numerify_attr)
  (seq (forEach attrs2boolean boolean_attr)
  (seq decode_networks
  (seq decode_owner_uuid
  (seq (decode_blob "traits")
       (decode_blob "min_platform")))))).

(** The outcome of a call: a returned value or a thrown exception. *)
Inductive completion (A : Type) :=
| Return (a : A)
| Throw (name : string).
Arguments Return {A} a.
Arguments Throw {A} name.

(** [Number(obj[a])] throws in the iteration of the numerify loop for
    [a]: the attribute is truthy and its conversion throws. *)
Definition numerify_throws (a : string) (o : gmap string value) : bool :=
  truthy (get o a) && throws_TypeError (get o a).

(** [decode] throws on the object: some iteration of the numerify loop
    does. The loop comes after the deletions, and an iteration leaves the
    other numeric attributes as they are; nothing is logged before it. *)
Definition decode_throws (o : gmap string value) : bool :=
  existsb (fun a => numerify_throws a (forEach attrs2ignore ignore_attr o).1)
    attrs2numerify.

(** [decode(obj, log)]. On [null] or [undefined] the first [delete obj[a]]
    throws a TypeError. A string, number, boolean or array has none of the
    properties [decode] reads, so every test fails and it is returned as
    it is. *)
Definition decode (obj : value) : completion value * list entry :=
  match obj with
  | VObj o =>
      if decode_throws o then (Throw "TypeError", [])
      else let '(o', l) := decode_obj o in (Return (VObj o'), l)
  | VUndef | VNull => (Throw "TypeError", [])
  | v => (Return v, [])
  end.

(** ** loadJsonPackages *)

(** The line feed. *)
Definition newline : ascii := ascii_of_N 10.

(** [s.split('\n')]. *)
Fixpoint split_lines (s : string) : list string :=
  match s with
  | EmptyString => [""]
  | String c r =>
      if Ascii.eqb c newline then "" :: split_lines r
      else match split_lines r with
           | h :: t => String c h :: t
           | [] => [String c ""]
           end
  end.

(** The callback of [map]: the decoded object, or [null] after logging
    when [JSON.parse] or [decode] throws. *)
Definition json_row (json : string) : value * list entry :=
  let failed (l : list entry) (e : string) :=
    (VNull, l ++ [Entry Error [("err", VStr e); ("json", VStr json)]
                    "Error parsing JSON"]) in
  match JSON_parse (VStr json) with
  | None => failed [] "SyntaxError"
  | Some v =>
      match decode v with
      | (Return p, l) => (p, l)
      | (Throw e, l) => failed l e
      end
  end.

(** [cb(err)] or [cb(null, packages)]. *)
Inductive loaded :=
| LoadError (err : value)
| Loaded (packages : list value).

(** [file] is what [fs.readFile] hands to its callback: an error or the
    text of the file. *)
Definition loadJsonPackages (file : value + string) : loaded * list entry :=
  match file with
  | inl err => (LoadError err, [])
  | inr jsonRows =>
      let rows := map json_row (split_lines jsonRows) in
      (Loaded (filter (fun p => truthy p = true) (map fst rows)),
       concat (map snd rows))
  end.

(** ** loadLdifPackages *)

(** The sextet of a base64 character, in either alphabet. *)
Definition sextet (c : ascii) : option N :=
  let n := code c in
  if (65 <=? n)%N && (n <=? 90)%N then Some (n - 65)%N
  else if (97 <=? n)%N && (n <=? 122)%N then Some (n - 71)%N
  else if (48 <=? n)%N && (n <=? 57)%N then Some (n + 4)%N
  else if (n =? 43)%N || (n =? 45)%N then Some 62%N
  else if (n =? 47)%N || (n =? 95)%N then Some 63%N
  else None.

(** The sextets up to the first [=]; other characters are skipped. *)
Fixpoint sextets (s : string) : list N :=
  match s with
  | EmptyString => []
  | String c r =>
      if Ascii.eqb c "=" then []
      else match sextet c with
           | Some x => x :: sextets r
           | None => sextets r
           end
  end.

(** Four sextets make three bytes; a final group of three makes two
    bytes, of two makes one, and a single sextet is dropped. *)
Fixpoint bytes_of_sextets (l : list N) : string :=
  match l with
  | a :: b :: c :: d :: r =>
      String (byte (a * 4 + b / 16))
        (String (byte ((b mod 16) * 16 + c / 4))
           (String (byte ((c mod 4) * 64 + d)) (bytes_of_sextets r)))
  | [a; b; c] =>
      String (byte (a * 4 + b / 16)) (String (byte ((b mod 16) * 16 + c / 4)) "")
  | [a; b] => String (byte (a * 4 + b / 16)) ""
  | _ => ""
  end.

(** U+FFFD, the replacement character. *)
Definition replacement : string :=
  String (byte 239) (String (byte 191) (String (byte 189) "")).

(** The text that a buffer of bytes decodes to as UTF-8: well-formed
    sequences as they are, and U+FFFD for every maximal ill-formed part.
    [need] bytes of a sequence are awaited, the next one from [lo] to
    [hi]; [pend] holds the bytes of the sequence read so far. *)
Fixpoint utf8_text (s pend : string) (need : nat) (lo hi : N) : string :=
  match s with
  | EmptyString => match need with O => "" | S _ => replacement end
  | String c r =>
      let n := code c in
      let start :=
        if (n <? 128)%N then String c (utf8_text r "" 0 128 191)
        else if (194 <=? n)%N && (n <=? 223)%N then utf8_text r (String c "") 1 128 191
        else if (n =? 224)%N then utf8_text r (String c "") 2 160 191
        else if (n =? 237)%N then utf8_text r (String c "") 2 128 159
        else if (225 <=? n)%N && (n <=? 239)%N then utf8_text r (String c "") 2 128 191
        else if (n =? 240)%N then utf8_text r (String c "") 3 144 191
        else if (n =? 244)%N then utf8_text r (String c "") 3 128 143
        else if (241 <=? n)%N && (n <=? 243)%N then utf8_text r (String c "") 3 128 191
        else replacement +:+ utf8_text r "" 0 128 191 in
      match need with
      | O => start
      | S k =>
          if (lo <=? n)%N && (n <=? hi)%N then
            match k with
            | O => pend +:+ String c (utf8_text r "" 0 128 191)
            | S _ => utf8_text r (pend +:+ String c "") k 128 191
            end
          else replacement +:+ start
      end
  end.

(** ['' + new Buffer(s, 'base64')]: the bytes, read as UTF-8. *)
Definition base64_to_string (s : string) : string :=
  utf8_text (bytes_of_sextets (sextets s)) "" 0 128 191.

(** The part of a string before its first colon, and what follows it. *)
Fixpoint cut_at_colon (s : string) : option (string * string) :=
  match s with
  | EmptyString => None
  | String c r =>
      if Ascii.eqb c ":" then Some ("", r)
      else match cut_at_colon r with
           | Some (n, v) => Some (String c n, v)
           | None => None
           end
  end.

(** No character that [.] refuses: LF, CR, U+2028, U+2029. *)
Fixpoint no_line_terminator (s : string) : bool :=
  match s with
  | EmptyString => true
  | String c r =>
      if (code c =? 10)%N || (code c =? 13)%N then false
      else
        match s with
        | String c1 (String c2 (String c3 _)) =>
            if (code c1 =? 226)%N && (code c2 =? 128)%N
               && ((code c3 =? 168)%N || (code c3 =? 169)%N)
            then false else no_line_terminator r
        | _ => no_line_terminator r
        end
  end.

(** [line.match(/^([^:]+?):(:? .+)$/)]: the two groups. The first group
    cannot hold a colon, so it ends at the first one; it is not empty. The
    second is an optional colon, a space, and at least one character. *)
Definition ldif_match (line : string) : option (string * string) :=
  match cut_at_colon line with
  | Some (String c n, rest) =>
      let tail := match rest with String ":" r => r | _ => rest end in
      match tail with
      | String " " (String d t) =>
          if no_line_terminator (String d t) then Some (String c n, rest) else None
      | _ => None
      end
  | _ => None
  end.

(** The state of the loop over the lines. *)
Record ldif_state := LdifState {
  packages : list value;
  lookup : gmap string value;
  ldif_log : list entry
}.

(** The value of an attribute line: [match[2]] is base64 after a second
    colon, plain text after the space otherwise. *)
Definition ldif_value (val : string) : string :=
  (* necessary since some package 'name's are base64 *)
  match val with
  | String ":" _ => base64_to_string (string_drop 2 val)
  | _ => string_drop 1 val
  end.

(** The properties that every object inherits from [Object.prototype].
    For such a name [lookup[name]] reads the inherited property, and an
    assignment to [__proto__] replaces the prototype of [lookup]: an
    attribute line of such a name is outside what [add_attr] describes,
    and the statements about attribute lines leave these names out. *)
Definition inherited_names : list string :=
  ["constructor"; "toString"; "toLocaleString"; "valueOf"; "hasOwnProperty";
   "isPrototypeOf"; "propertyIsEnumerable"; "__defineGetter__";
   "__defineSetter__"; "__lookupGetter__"; "__lookupSetter__"; "__proto__"].

(** The [if (orig) ... else ...] that stores an attribute, for a name
    outside [inherited_names]. *)
Definition add_attr (lk : gmap string value) (name val : string)
  : gmap string value :=
  let orig := get lk name in
  if truthy orig then
    match orig with
    | VArr l => <[name := VArr (l ++ [VStr val])]> lk
    | _ => <[name := VArr [orig; VStr val]]> lk
    end
  else <[name := VStr val]> lk.

(** The callback of [ldif.split('\n').forEach]. On what the loop gathers
    [decode] returns (lemmas [ldif_lines_raw] and [decode_throws_raw]). *)
Definition ldif_line (st : ldif_state) (line : string) : ldif_state :=
  if String.eqb line "" then
    if Nat.ltb 0 (size (lookup st)) then
      let '(pkg, l) := decode_obj (lookup st) in
      LdifState
        (if truthy (get pkg "uuid") then packages st ++ [VObj pkg] else packages st)
        ∅
        (ldif_log st ++ l)
    else st
  else
    match ldif_match line with
    | Some (name, val) =>
        LdifState (packages st)
          (add_attr (lookup st) name (ldif_value val))
          (ldif_log st)
    | None => st
    end.

(** The whole loop, from no package, an empty [lookup] and no log. *)
Definition ldif_lines (lines : list string) : ldif_state :=
  fold_left ldif_line lines (LdifState [] ∅ []).

(** [file] is what [fs.readFile] hands to its callback, as for
    [loadJsonPackages]. *)
Definition loadLdifPackages (file : value + string) : loaded * list entry :=
  match file with
  | inl err => (LoadError err, [])
  | inr ldif =>
      let st := ldif_lines (split_lines ldif) in
      (Loaded (packages st), ldif_log st)
  end.

(** ** loadUfdsPackages *)

(** An attribute of [entry.object], as the directory client builds it:
    the value of an attribute that has one value, the array of its values
    otherwise. *)
Inductive ldap_attr :=
| LdapValue (s : string)
| LdapValues (l : list string).

Definition ldap_value (a : ldap_attr) : value :=
  match a with
  | LdapValue s => VStr s
  | LdapValues l => VArr (map VStr l)
  end.

(** [entry.object]. Its [controls], an array that [decode] deletes before
    anything reads it, stands here as an attribute like the others. On
    such an object [decode] does not throw. *)
Definition entry_object (e : gmap string ldap_attr) : gmap string value :=
  ldap_value <$> e.

(** What the directory client reports: an error (on connecting, binding,
    searching, in the result stream, or a non-zero final status), or the
    entries found, in the order of their events. *)
Definition loadUfdsPackages (search : value + list (gmap string ldap_attr))
  : loaded * list entry :=
  match search with
  | inl err => (LoadError err, [])
  | inr entries =>
      let rows := map (fun e => decode_obj (entry_object e)) entries in
      (Loaded (map (fun r => VObj (fst r)) rows), concat (map snd rows))
  end.

(** ** savePapiPackages *)

(** The collaborators of the importer that live in [lib/]: the backend
    ([init], [schema], [createPkg], [updatePkg], [quit]) over a store of
    type [store], and [validations.validate]. Each asynchronous call is
    taken at the moment its callback runs: the error handed to the
    callback ([undefined] or [null] when there is none) and the store
    afterwards. [validate] returns [None] for a falsy result and the list
    of (field, message) otherwise. *)
Record Backend := {
  store : Type;
  init : store -> value * store;
  schema : value;
  validate : value -> value -> option (list (string * string));
  createPkg : value -> value -> value -> store -> value * store;
  updatePkg : value -> value -> value -> store -> value * store;
  quit : store -> store
}.

(** [pkg.uuid] for a package that may be any truthy value. *)
Definition prop (v : value) (k : string) : value :=
  match v with
  | VObj o => get o k
  | _ => VUndef
  end.

(** The state threaded through the pipeline. *)
Record save_state (B : Backend) := SaveState {
  st_store : store B;
  st_log : list entry;
  success : nat
}.
Arguments SaveState {B} _ _ _.
Arguments st_store {B} _.
Arguments st_log {B} _.
Arguments success {B} _.

Section Save.
Context (backend : Backend).
(** [config.dryrun] and [config.overwrite]. *)
Context (dryrun overwrite : value).

(** [validationErrs.map(...).join(', ')]. *)
Definition validation_msg (errs : list (string * string)) : string :=
  join ", " (map (fun e => fst e +:+ " " +:+ snd e) errs).

(** [create()]: the bound call of [createPkg], or of [updatePkg] when
    [overwrite] is set, with the package's [uuid] as key, and what its
    callback does with the error handed back. *)
Definition create (st : save_state backend) (pkg : value) : save_state backend :=
  (* updatePkg does a create-or-update *)
  let creator := if truthy overwrite then updatePkg backend
                 else createPkg backend in
  let '(err2, s) :=
    creator (prop pkg "uuid") pkg
            (VObj {["req_id" := prop pkg "uuid"]}) (st_store st) in
  if strict_equals err2 (VStr "ObjectAlreadyExistsError") then
    SaveState s
      (st_log st ++ [Entry Warn [("pkg", pkg)] "Package already exists"])
      (success st)
  else if truthy err2 then
    SaveState s
      (st_log st ++ [Entry Error [("pkg", pkg); ("err", err2)]
                       "Error importing package"])
      (success st)
  else
    SaveState s
      (st_log st ++ [Entry Info [("pkg", pkg)] "Package imported"])
      (S (success st)).

(** [savePkg(pkg, next)], up to its call of [next()]. *)
Definition savePkg (st : save_state backend) (pkg : value) : save_state backend :=
  match validate backend pkg (schema backend) with
  | Some validationErrs =>
      SaveState (st_store st)
        (st_log st ++ [Entry Error [("pkg", pkg);
                                    ("err", VStr (validation_msg validationErrs))]
                         "Error importing package"])
        (success st)
  | None =>
      if truthy dryrun then
        SaveState (st_store st)
          (st_log st ++ [Entry Info [("pkg", pkg)] "Package imported"])
          (success st)
      else create st pkg
  end.

(** What [savePapiPackages] ends in: [perror] after a failed
    [backend.init], or its [callback] once the pipeline is through. *)
Inductive saved :=
| InitError (err : value)
| Called (st : save_state backend).

(** [vasync.forEachPipeline] runs [savePkg] on the inputs one after
    another; [savePkg] never hands an error to [next], so every input
    is processed. *)
Definition savePapiPackages (pkgs : list value) (s0 : store backend) : saved :=
  let '(err, s1) := init backend s0 in
  if truthy err then InitError err
  else
    let st := fold_left savePkg pkgs (SaveState s1 [] 0) in
    Called (SaveState (quit backend (st_store st))
              (st_log st ++ [Entry Info [("count", VNum (Dec false (N.of_nat (success st)) 0))]
                               "%d packages imported to PAPI"])
              (success st)).
End Save.
Arguments InitError {backend} err.
Arguments Called {backend} st.

(** ** parseOpts, selectPackageSource, main *)

(** What lies outside the process: the files [fs.readFile] can read (an
    error or the text, by path) and the answer of the directory. *)
Record World := {
  readFile : value -> value + string;
  search : value + list (gmap string ldap_attr)
}.

(** A statement that may end the process: [process.exit(code)], or a
    result with which execution goes on. *)
Inductive exits (A : Type) :=
| Exit (code : Z)
| Go (a : A).
Arguments Exit {A} code.
Arguments Go {A} a.

(** [usage(code, message)] writes the usage line and exits. *)
Definition usage {A} (code : Z) : exits A := Exit code.

(** [perror(err)] writes the error and exits with status 1. *)
Definition perror {A} (err : value) : exits A := Exit 1.

(** [parseOpts()]; [parsed] is what [nopt] returns or throws. *)
Definition parseOpts (parsed : completion (gmap string value))
  : exits (gmap string value) :=
  match parsed with
  | Throw e => usage 1
  | Return opts =>
      if truthy (get opts "help")
         || negb (truthy (get opts "url") || truthy (get opts "ldif")
                  || truthy (get opts "json"))
      then usage 0
      else
        let opts1 := if negb (truthy (get opts "binddn"))
                     then <["binddn" := VStr "cn=root"]> opts else opts in
        let opts2 := if negb (truthy (get opts1 "password"))
                     then <["password" := VStr "secret"]> opts1 else opts1 in
        Go opts2
  end.

(** The three loaders [selectPackageSource] chooses from. *)
Inductive loader := JsonLoader | LdifLoader | UfdsLoader.

(** [selectPackageSource(opts)]; with no source it calls [perror]. *)
Definition selectPackageSource (opts : gmap string value) : exits loader :=
  if truthy (get opts "json") then Go JsonLoader
  else if truthy (get opts "ldif") then Go LdifLoader
  else if truthy (get opts "url") then Go UfdsLoader
  else
    (* logic in parseOpts() should ensure we never end up here *)
    perror (VStr "Error selecting package source").

(** [loader(opts, sourceLog, cb)]: what the chosen loader hands to [cb]. *)
Definition run_loader (l : loader) (opts : gmap string value) (w : World)
  : loaded * list entry :=
  match l with
  | JsonLoader => loadJsonPackages (readFile w (get opts "json"))
  | LdifLoader => loadLdifPackages (readFile w (get opts "ldif"))
  | UfdsLoader => loadUfdsPackages (search w)
  end.

(** How a run of the program ends: the exit status, what the source
    logger received, and the state of the save pipeline if it ran. *)
Record run (B : Backend) := Run {
  exit_status : Z;
  source_log : list entry;
  papi : option (save_state B)
}.
Arguments Run {B} _ _ _.
Arguments exit_status {B} _.
Arguments source_log {B} _.
Arguments papi {B} _.

(** [main()]: parse the options, load from the source, save to PAPI;
    [process.exit(0)] is the callback of [savePapiPackages]. *)
Definition main (parsed : completion (gmap string value)) (w : World)
    (backend : Backend) (s0 : store backend) : run backend :=
  match parseOpts parsed with
  | Exit code => Run code [] None
  | Go opts =>
      match selectPackageSource opts with
      | Exit code => Run code [] None
      | Go l =>
          match run_loader l opts w with
          | (LoadError err, lg) => Run 1 lg None
          | (Loaded pkgs, lg) =>
              let lg' :=
                lg ++ [Entry Info [("count", VNum (Dec false (N.of_nat (length pkgs)) 0))]
                         "%d packages loaded from source"] in
              match savePapiPackages backend (get opts "dryrun")
                      (get opts "overwrite") pkgs s0 with
              | InitError err => Run 1 lg' None
              | Called st => Run 0 lg' (Some st)
              end
          end
      end
  end.

(** * bin/ldap-import.js: the earlier importer

    It reads the packages from UFDS only, normalises each entry in the
    handler of [searchEntry], and saves through [lib/shared] the packages
    whose [uuid] the target does not hold yet. *)

Module LdapImport.

(** [var attrs2ignore], [var attrs2numerify], [var booleans]. *)
Definition attrs2ignore : list string := ["dn"; "objectclass"; "controls"].

Definition attrs2numerify : list string :=
  ["max_physical_memory"; "max_swap";
   "vcpus"; "cpu_cap"; "max_lwps"; "quota"; "zfs_io_priority";
   "fss"; "cpu_burst_ratio"; "ram_ratio"; "overprovision_cpu";
   "overprovision_memory"; "overprovision_storage"; "overprovision_network";
   "overprovision_io"].

Definition booleans : list string := ["active"; "default"].

(** [if (obj[a]) { obj[a] = Number(obj[a]); }]. *)
Definition numerify_attr (a : string) : step :=
  fun o =>
    (if truthy (get o a) then <[a := VNum (ToNumber (get o a))]> o else o, []).

(** [if (obj[a] === 'true') { obj[a] = true; } else { obj[a] = false; }]. *)
Definition boolean_attr (a : string) : step :=
  fun o =>
    (if strict_equals (get o a) (VStr "true") then <[a := VBool true]> o
     else <[a := VBool false]> o, []).

(** [if (obj.a) { try { obj.a = JSON.parse(obj.a); } catch (e)
    { obj.a = fallback; } }], for [networks] and [traits]. *)
Definition parse_attr (a : string) (fallback : value) : step :=
  fun o =>
    if truthy (get o a) then
      match JSON_parse (get o a) with
      | Some v => (<[a := v]> o, [])
      | None => (<[a := fallback]> o, [])
      end
    else (o, []).

(** The handler of [searchEntry], up to [packages.push(obj)]: the object
    of the entry as it is pushed, when no [Number(obj[a])] throws. Nothing
    is logged. *)
Definition searchEntry (obj : gmap string value) : gmap string value :=
  (seq (forEach attrs2ignore ignore_attr)
  (seq (forEach attrs2numerify numerify_attr)
  (seq (forEach booleans boolean_attr)
  (seq (parse_attr "networks" (VArr []))
       (parse_attr "traits" (VObj ∅))))) obj).1.

(** [loadUFDFSPackages(cb)]: [cb(err)] or [cb(null, packages)], from what
    the directory client reports (as for [loadUfdsPackages]). *)
Definition loadUFDFSPackages (search : value + list (gmap string value))
  : value + list (gmap string value) :=
  match search with
  | inl err => inl err
  | inr entries => inr (map searchEntry entries)
  end.

(** The functions of [lib/shared] that [main] calls, over a client of
    type [client]: [morayClient] hands over an error or a client;
    [loadPackages] an error or the uuids that the bucket holds;
    [savePackage] the error of the write ([undefined] or [null] for none).
    Each call is taken at the moment its callback runs. *)
Record Shared := {
  client : Type;
  morayClient : value + client;
  loadPackages : client -> (value + list value) * client;
  savePackage : client -> gmap string value -> value * client
}.

(** [uuids.indexOf(x)]: the first index whose element is [=== x], or -1. *)
Fixpoint indexOf (l : list value) (x : value) : Z :=
  match l with
  | [] => (-1)%Z
  | y :: r =>
      if strict_equals y x then 0%Z
      else let i := indexOf r x in
           if (i =? -1)%Z then (-1)%Z else (i + 1)%Z
  end.

(** The state of [packages.forEach] in [main]: the client, what the loop
    logs while it runs (the skipped packages), what the callbacks of
    [savePackage] log after it, and the counter [done]. The program adds
    to [done] in the callback of [savePackage]; here every callback is
    taken to run, in the order of the calls, so that [done] counts the
    packages once the callbacks are through. *)
Record import_state (sh : Shared) := ImportState {
  im_client : client sh;
  skipped_log : list entry;
  saved_log : list entry;
  done : nat
}.
Arguments ImportState {sh} _ _ _ _.
Arguments im_client {sh} _.
Arguments skipped_log {sh} _.
Arguments saved_log {sh} _.
Arguments done {sh} _.

(** The callback of [packages.forEach]. *)
Definition import_package (sh : Shared) (uuids : list value)
    (st : import_state sh) (p : gmap string value) : import_state sh :=
  if (indexOf uuids (get p "uuid") =? -1)%Z then
    let '(err4, c) := savePackage sh (im_client st) p in
    ImportState c (skipped_log st)
      (saved_log st ++
         [if truthy err4
          then Entry Error [("err", err4)] "Error importing pacakge"
          else Entry Info [("package", VObj p)] "Package imported successfully"])
      (S (done st))
  else
    ImportState (im_client st)
      (skipped_log st ++
         [Entry Info [("uuid", get p "uuid")] "Package %s already exists, skipping"])
      (saved_log st)
      (S (done st)).

(** [checkDone()]: [process.exit(0)] once [done === packages.length];
    until then it polls, and [None] stands for polling without end. *)
Definition checkDone (done_ n : nat) : option Z :=
  if Nat.eqb done_ n then Some 0%Z else None.

(** How a run ends: the exit status if the process exits, what was
    logged, and the client after the writes if it got that far. *)
Record outcome (sh : Shared) := Outcome {
  status : option Z;
  logged : list entry;
  final_client : option (client sh)
}.
Arguments Outcome {sh} _ _ _.
Arguments status {sh} _.
Arguments logged {sh} _.
Arguments final_client {sh} _.

(** A count in a log message. *)
Definition count_field (n : nat) : list (string * value) :=
  [("count", VNum (Dec false (N.of_nat n) 0))].

(** [main()]; [perror] exits with status 1. *)
Definition main (search : value + list (gmap string value)) (sh : Shared)
  : outcome sh :=
  match loadUFDFSPackages search with
  | inl err1 => Outcome (Some 1%Z) [] None
  | inr packages =>
      let l1 := [Entry Info (count_field (length packages))
                   "%d packages successfully loaded from UFDS"] in
      match morayClient sh with
      | inl err2 => Outcome (Some 1%Z) l1 None
      | inr c0 =>
          match loadPackages sh c0 with
          | (inl err3, _) => Outcome (Some 1%Z) l1 None
          | (inr uuids, c1) =>
              let l2 := l1 ++ [Entry Info (count_field (length uuids))
                                 "%d packages already in moray"] in
              let st := fold_left (import_package sh uuids) packages
                          (ImportState c1 [] [] 0) in
              Outcome (checkDone (done st) (length packages))
                (l2 ++ skipped_log st ++ saved_log st)
                (Some (im_client st))
          end
      end
  end.

End LdapImport.

(** * Notions used in the statements *)

(** [frames f K]: the statement [f] reads and writes no property outside
    [K], as far as the resulting object goes. *)
Definition frames (f : step) (K : list string) : Prop :=
  ∀ (o : gmap string value) (k : string), k ∉ K → (f o).1 !! k = o !! k.

(** The object after each statement of [decode], from the first on. *)
Definition ignored (o : gmap string value) : gmap string value :=
  (forEach attrs2ignore ignore_attr o).1.
Definition numerified (o : gmap string value) : gmap string value :=
  (forEach attrs2numerify numerify_attr (ignored o)).1.
Definition booleaned (o : gmap string value) : gmap string value :=
  (forEach attrs2boolean boolean_attr (numerified o)).1.
Definition networked (o : gmap string value) : gmap string value :=
  (decode_networks (booleaned o)).1.
Definition owned (o : gmap string value) : gmap string value :=
  (decode_owner_uuid (networked o)).1.
Definition traited (o : gmap string value) : gmap string value :=
  (decode_blob "traits" (owned o)).1.

(** The statement of the specification on numeric coercion: a present
    string that does not read as a number is warned about and dropped. *)
Definition numerify_drops_NaN : Prop :=
  ∀ (o : gmap string value) (a s : string),
    a ∈ attrs2numerify → o !! a = Some (VStr s) → StringToNumber s = NaN →
    (∃ e, e ∈ (decode_obj o).2 ∧ lvl e = Warn) ∧ (decode_obj o).1 !! a = None.

(** An entry is the error that the owner block logs. *)
Definition owners_error (e : entry) : Prop :=
  lvl e = Error ∧ msg e = "Error importing owners".

(** The statement of the specification on the guard of the migration. *)
Definition migration_guarded : Prop :=
  ∀ (o : gmap string value) (v : value),
    o !! "owner_uuids" = Some v → (decode_obj o).1 !! "owner_uuids" = Some v.

(** An entry is the error that the networks block logs. *)
Definition networks_error (e : entry) : Prop :=
  lvl e = Error ∧ msg e = "Error importing networks".

(** The statement of the specification on [networks]: a string is parsed,
    a failed parse or a value that is not a list gives the empty list,
    and so the decoded [networks] is always a list. *)
Definition networks_always_list : Prop :=
  ∀ (o : gmap string value) (s : string),
    o !! "networks" = Some (VStr s) →
    ∃ l, (decode_obj o).1 !! "networks" = Some (VArr l).

(** The entry that the networks block logs, by its fields. *)
Definition networks_failure (fs : list (string * value)) : entry :=
  Entry Error fs "Error importing networks".

(** The JSON texts of the examples. *)
Definition json_a_b : string := "[" +:+ quoted "a" +:+ "," +:+ quoted "b" +:+ "]".
Definition json_uuid_u1 : string := "{" +:+ quoted "uuid" +:+ ":" +:+ quoted "u1" +:+ "}".


(** A value the [traits] and [min_platform] blocks do not change. *)
Definition blob_settled (v : value) : Prop := truthy v = false ∨ v = VObj ∅.

(** A value the [networks] block does not change. *)
Definition networks_settled (v : value) : Prop :=
  truthy v = false ∨ isArray v = true.

(** The statement of the specification on repeated decoding: [decode]
    returns the object it was given, updated in place, so the second of
    two calls on the same raw record decodes the result of the first. *)
Definition decode_twice_identical : Prop :=
  ∀ o : gmap string value, (decode_obj (decode_obj o).1).1 = (decode_obj o).1.

(** [s] holds a line feed. *)
Fixpoint has_newline (s : string) : bool :=
  match s with
  | EmptyString => false
  | String c r => Ascii.eqb c newline || has_newline r
  end.

(** The text whose lines are [ls]. *)
Definition unlines (ls : list string) : string := join (String newline "") ls.


(** [s] holds a colon. *)
Fixpoint has_colon (s : string) : bool :=
  match s with
  | EmptyString => false
  | String c r => Ascii.eqb c ":" || has_colon r
  end.

(** The dispositions of the specification. The program keeps no such
    value; a record's disposition is read off the branch that [savePkg]
    takes for it: rejected by [validate], simulated in a dry run, or
    according to the error the store hands back. *)
Inductive disposition := imported | skipped_duplicate | skipped_invalid | failed.

Section Dispositions.
Context (backend : Backend) (dryrun overwrite : value).

(** The disposition of [pkg] when [savePkg] runs on it in state [st]. *)
Definition disposition_of (st : save_state backend) (pkg : value) : disposition :=
  match validate backend pkg (schema backend) with
  | Some _ => skipped_invalid
  | None =>
      if truthy dryrun then imported
      else
        let creator := if truthy overwrite then updatePkg backend
                       else createPkg backend in
        let err2 := (creator (prop pkg "uuid") pkg
                       (VObj {["req_id" := prop pkg "uuid"]}) (st_store st)).1 in
        if strict_equals err2 (VStr "ObjectAlreadyExistsError")
        then skipped_duplicate
        else if truthy err2 then failed else imported
  end.

(** The dispositions of the inputs of the pipeline, in order. *)
Fixpoint dispositions (st : save_state backend) (pkgs : list value)
  : list disposition :=
  match pkgs with
  | [] => []
  | pkg :: rest =>
      disposition_of st pkg
      :: dispositions (savePkg backend dryrun overwrite st pkg) rest
  end.

(** The dispositions of a call of [savePapiPackages]; none when
    [backend.init] fails. *)
Definition pipeline_dispositions (pkgs : list value) (s0 : store backend)
  : list disposition :=
  let '(err, s1) := init backend s0 in
  if truthy err then [] else dispositions (SaveState s1 [] 0) pkgs.
End Dispositions.

(** The write that the pipeline makes for [pkg] when [overwrite] is not
    set: [createPkg], keyed by [pkg.uuid]; and the store after the writes
    made for the valid records of [pkgs], in order. *)
Definition create_only (backend : Backend) (pkg : value) (s : store backend)
  : value * store backend :=
  createPkg backend (prop pkg "uuid") pkg
    (VObj {["req_id" := prop pkg "uuid"]}) s.

Definition create_only_store (backend : Backend) (pkgs : list value)
    (s : store backend) : store backend :=
  fold_left
    (λ s pkg, match validate backend pkg (schema backend) with
              | Some _ => s
              | None => (create_only backend pkg s).2
              end)
    pkgs s.

(** A store that refuses every write. *)
Definition refusing_backend : Backend := {|
  store := unit;
  init := λ s, (VUndef, s);
  schema := VObj ∅;
  validate := λ _ _, None;
  createPkg := λ _ _ _ s, (VStr "InternalError", s);
  updatePkg := λ _ _ _ s, (VStr "InternalError", s);
  quit := λ s, s
|}.

(** A store in memory: a map from uuid to package, whose [createPkg]
    refuses a key it holds; packages need a [uuid]. *)
Definition memory_backend : Backend := {|
  store := gmap string value;
  init := λ s, (VUndef, s);
  schema := VObj ∅;
  validate := λ pkg _, if truthy (prop pkg "uuid") then None
                      else Some [("uuid", "is required")];
  createPkg := λ uuid pkg _ s,
    match s !! ToString uuid with
    | Some _ => (VStr "ObjectAlreadyExistsError", s)
    | None => (VUndef, <[ToString uuid := pkg]> s)
    end;
  updatePkg := λ uuid pkg _ s, (VUndef, <[ToString uuid := pkg]> s);
  quit := λ s, s
|}.

(** A world with one JSON file of one package and no directory. *)
Definition one_file_world : World := {|
  readFile := λ path,
    if strict_equals path (VStr "packages.json")
    then inr ("{" +:+ quoted "uuid" +:+ ":" +:+ quoted "u1" +:+ "," +:+ quoted "name" +:+ ":" +:+ quoted "small" +:+ "}")
    else inl (VStr "ENOENT");
  search := inl (VStr "ECONNREFUSED")
|}.

(** The options of [importer --json packages.json]. *)
Definition json_opts : gmap string value := {["json" := VStr "packages.json"]}.

(** The statement of the specification on the exit status: a run that
    exits with status 0 has no record of disposition [failed]. *)
Definition exit_zero_without_failures : Prop :=
  ∀ (backend : Backend) (parsed : completion (gmap string value)) (w : World)
    (s0 : store backend) (opts : gmap string value) (l : loader)
    (pkgs : list value),
    parseOpts parsed = Go opts → selectPackageSource opts = Go l →
    (run_loader l opts w).1 = Loaded pkgs →
    exit_status (main parsed w backend s0) = 0%Z →
    failed ∉ pipeline_dispositions backend (get opts "dryrun")
               (get opts "overwrite") pkgs s0.

(** The options ask for the usage with status 0: [help], or no source
    among [url], [ldif] and [json]. *)
Definition asks_usage (parsed : completion (gmap string value)) : bool :=
  match parsed with
  | Return opts =>
      truthy (get opts "help")
      || negb (truthy (get opts "url") || truthy (get opts "ldif")
               || truthy (get opts "json"))
  | Throw _ => false
  end.

(** The attributes that [decode] reads or writes. *)
Definition decode_footprint : list string :=
  attrs2ignore ++ attrs2numerify ++ attrs2boolean
  ++ ["networks"; "owner_uuid"; "owner_uuids"; "traits"; "min_platform"].

(** The entry that [loadJsonPackages] logs for a line that is not JSON. *)
Definition json_parse_error (line : string) : entry :=
  Entry Error [("err", VStr "SyntaxError"); ("json", VStr line)]
    "Error parsing JSON".

(** What can be said of every package the LDIF loader returns: it is an
    object with a truthy [uuid], none of the ignored attributes and no
    truthy [owner_uuid]. *)
Definition ldif_package (p : value) : Prop :=
  ∃ o, p = VObj o ∧ truthy (get o "uuid") = true
       ∧ (∀ a, a ∈ attrs2ignore → o !! a = None)
       ∧ truthy (get o "owner_uuid") = false.

(** The shape of a raw attribute value: a string or a list of strings. *)
Definition raw_value (v : value) : Prop :=
  (∃ s, v = VStr s) ∨ (∃ l, v = VArr (map VStr l)).

(** A base64 text in order: characters of the alphabet, then at most two
    [=]; and a second group of an attribute line whose base64 text, if it
    has one, is in order. The decoders of the runtime differ, from
    version to version, on other texts only. *)
Fixpoint base64_text (t : string) : bool :=
  match t with
  | EmptyString => true
  | String c r =>
      match sextet c with
      | Some _ => base64_text r
      | None => String.eqb t "=" || String.eqb t "=="
      end
  end.


(** No attribute line among [lines] has a name of [inherited_names]. *)
Definition own_name_line (line : string) : bool :=
  match ldif_match line with
  | Some (name, _) => bool_decide (name ∉ inherited_names)
  | None => true
  end.

Definition own_names (lines : list string) : bool := forallb own_name_line lines.



(** The state [st] of the LDIF loop with packages [P] and entries [L] put
    in front of its own. *)
Definition prepend (P : list value) (L : list entry) (st : ldif_state)
  : ldif_state :=
  LdifState (P ++ packages st) (lookup st) (L ++ ldif_log st).

(** The disposition is [imported]. *)
Definition is_imported (d : disposition) : bool :=
  match d with imported => true | _ => false end.

(** The attributes that the handler of [searchEntry] reads or writes. *)
Definition searchEntry_footprint : list string :=
  LdapImport.attrs2ignore ++ LdapImport.attrs2numerify ++ LdapImport.booleans
  ++ ["networks"; "traits"].

(** The attributes that [decode] ignores and the earlier importer keeps or
    reads as numbers. *)
Definition newly_ignored : list string :=
  ["overprovision_cpu"; "overprovision_memory"; "overprovision_storage";
   "overprovision_network"; "overprovision_io"; "urn"].

(** An entry on which the two importers have no reason to differ: none of
    the attributes ignored since, both booleans given as strings,
    [networks] absent or a string, and neither [owner_uuid] nor
    [min_platform]. *)
Definition plain_entry (o : gmap string value) : Prop :=
  (∀ k, k ∈ newly_ignored → o !! k = None)
  ∧ (∀ a, a ∈ attrs2boolean → ∃ s, o !! a = Some (VStr s))
  ∧ (o !! "networks" = None ∨ ∃ s, o !! "networks" = Some (VStr s))
  ∧ truthy (get o "owner_uuid") = false
  ∧ truthy (get o "min_platform") = false.

(** A directory and a target for the earlier importer: two entries, the
    first of which the target already holds; every write is refused. *)
Definition two_entries : list (gmap string value) :=
  [{["uuid" := VStr "u1"; "active" := VStr "true"]};
   {["uuid" := VStr "u2"; "default" := VStr "false"]}].

Definition refusing_shared : LdapImport.Shared := {|
  LdapImport.client := nat;
  LdapImport.morayClient := inr 0;
  LdapImport.loadPackages := λ c, (inr [VStr "u1"], c);
  LdapImport.savePackage := λ c _, (VStr "InternalError", S c)
|}.

(** * Properties *)

(** ** JSON.parse does not run out of fuel *)

Lemma drop_while_length (p : ascii → bool) (s : string) :
  (String.length (drop_while p s) ≤ String.length s)%nat.
Proof.
  induction s as [|c s IH]; [done|]. simpl.
  destruct (p c); simpl; lia.
Qed.

Lemma skip_ws_length (s : string) : (String.length (skip_ws s) ≤ String.length s)%nat.
Proof. apply drop_while_length. Qed.

Lemma starts_with_length (c : ascii) (s r : string) :
  starts_with c s = Some r → String.length s = S (String.length r).
Proof.
  destruct s as [|x s]; [done|]. simpl.
  destruct (Ascii.eqb x c); [|done]. by intros [= ->].
Qed.

Lemma strip_length (p s r : string) :
  strip p s = Some r → String.length s = String.length p + String.length r.
Proof.
  revert s. induction p as [|a p IH]; intros s; simpl.
  - by intros [= ->].
  - destruct s as [|b s]; [done|]. destruct (Ascii.eqb a b); [|done].
    intros H. simpl. by rewrite (IH _ H).
Qed.

Lemma read_digits_length (b : N) (s : string) (acc : N) (cnt : nat)
    (x : N) (n : nat) (r : string) :
  read_digits b s acc cnt = (x, n, r) →
  String.length r + n = String.length s + cnt.
Proof.
  revert acc cnt. induction s as [|c s IH]; intros acc cnt; simpl.
  - by intros [= <- <- <-].
  - destruct (hex_val c) as [d|].
    + destruct (d <? b)%N.
      * intros H. apply IH in H. lia.
      * intros [= <- <- <-]. simpl. lia.
    + intros [= <- <- <-]. simpl. lia.
Qed.

Lemma read_sign_length (s : string) :
  (String.length (read_sign s).2 ≤ String.length s)%nat.
Proof.
  unfold read_sign.
  destruct (starts_with "+" s) as [r|] eqn:Hp.
  - apply starts_with_length in Hp. simpl. lia.
  - destruct (starts_with "-" s) as [r|] eqn:Hm; simpl; [|lia].
    apply starts_with_length in Hm. lia.
Qed.

Lemma read_exponent_length (s : string) (x : Z) (r : string) :
  read_exponent s = Some (x, r) → (String.length r ≤ String.length s)%nat.
Proof.
  unfold read_exponent. destruct s as [|c s]; [by intros [= <- <-]|].
  destruct (Ascii.eqb c "e" || Ascii.eqb c "E").
  - pose proof (read_sign_length s) as Hs.
    destruct (read_sign s) as [sg r1]. simpl in Hs.
    destruct (read_digits 10 r1 0%N 0) as [[y n] r2] eqn:Hd.
    apply read_digits_length in Hd.
    destruct n; [done|]. intros [= <- <-]. simpl. lia.
  - intros [= <- <-]. lia.
Qed.

Lemma read_fraction_length (i : N) (s : string) (m : N) (nf : nat) (r : string) :
  read_fraction i s = Some (m, nf, r) → (String.length r ≤ String.length s)%nat.
Proof.
  unfold read_fraction. destruct (starts_with "." s) as [r1|] eqn:Hp.
  - apply starts_with_length in Hp.
    destruct (read_digits 10 r1 i 0) as [[y n] r2] eqn:Hd.
    apply read_digits_length in Hd.
    destruct n; [done|]. intros [= <- <- <-]. lia.
  - intros [= <- <- <-]. lia.
Qed.

Lemma parse_number_progress (s : string) (n : number) (r : string) :
  parse_number s = Parsed n r → (String.length r < String.length s)%nat.
Proof.
  unfold parse_number.
  assert (∃ neg s1, (match starts_with "-" s with
                     | Some r => (true, r) | None => (false, s) end) = (neg, s1)
                    ∧ (String.length s1 ≤ String.length s)%nat) as (neg & s1 & -> & Hs1).
  { destruct (starts_with "-" s) as [r0|] eqn:Hm; do 2 eexists; split; try done.
    apply starts_with_length in Hm. lia. }
  destruct (read_digits 10 s1 0%N 0) as [[i ni] r1] eqn:Hd.
  apply read_digits_length in Hd.
  destruct ni as [|k]; [done|].
  destruct (_ && _); [done|].
  destruct (read_fraction i r1) as [[[m nf] r3]|] eqn:Hf; [|done].
  apply read_fraction_length in Hf.
  destruct (read_exponent r3) as [[x r4]|] eqn:He; [|done].
  apply read_exponent_length in He.
  intros [= <- <-]. lia.
Qed.

Lemma parse_number_fuel (s : string) : parse_number s ≠ OutOfFuel.
Proof.
  unfold parse_number.
  destruct (match starts_with "-" s with
            | Some r => (true, r) | None => (false, s) end) as [neg s1].
  destruct (read_digits 10 s1 0%N 0) as [[i ni] r1].
  destruct ni as [|k]; [done|].
  destruct (_ && _); [done|].
  destruct (read_fraction i r1) as [[[m nf] r3]|]; [|done].
  by destruct (read_exponent r3) as [[x r4]|].
Qed.

Lemma parse_string_body_spec (n : nat) (s : string) :
  (String.length s ≤ n)%nat →
  parse_string_body s ≠ OutOfFuel
  ∧ ∀ t r, parse_string_body s = Parsed t r → (String.length r < String.length s)%nat.
Proof.
  revert s. induction n as [|n IH]; intros s Hn.
  { destruct s; [|simpl in Hn; lia]. by split. }
  destruct s as [|c s]; [by split|]. simpl in Hn.
  cbn [parse_string_body].
  destruct (Ascii.eqb c dquote).
  { split; [done|]. intros t r [= <- <-]. simpl. lia. }
  destruct (Ascii.eqb c "\").
  - destruct s as [|e r1]; [by split|]. simpl in Hn.
    destruct (Ascii.eqb e "u").
    + destruct r1 as [|a [|b [|c' [|d r2]]]]; try by split.
      simpl in Hn.
      destruct (hex4 a b c' d); [|by split].
      destruct (IH r2 ltac:(lia)) as [Hf Hp].
      destruct (parse_string_body r2) as [t r3| |] eqn:Hb; try by split.
      split; [done|]. intros t' r' [= <- <-].
      specialize (Hp t r3 eq_refl). simpl. lia.
    + destruct (unescape e); [|by split].
      destruct (IH r1 ltac:(lia)) as [Hf Hp].
      destruct (parse_string_body r1) as [t r3| |] eqn:Hb; try by split.
      split; [done|]. intros t' r' [= <- <-].
      specialize (Hp t r3 eq_refl). simpl. lia.
  - destruct (code c <? 32)%N; [by split|].
    destruct (IH s ltac:(lia)) as [Hf Hp].
    destruct (parse_string_body s) as [t r3| |] eqn:Hb; try by split.
    split; [done|]. intros t' r' [= <- <-].
    specialize (Hp t r3 eq_refl). simpl. lia.
Qed.

Lemma parse_string_body_fuel (s : string) : parse_string_body s ≠ OutOfFuel.
Proof. by apply (parse_string_body_spec (String.length s) s). Qed.

Lemma parse_string_body_progress (s t r : string) :
  parse_string_body s = Parsed t r → (String.length r < String.length s)%nat.
Proof. by apply (parse_string_body_spec (String.length s) s). Qed.

Lemma parse_literal_progress (lit : string) (v : value) (s : string)
    (v' : value) (r : string) :
  lit ≠ "" → parse_literal lit v s = Parsed v' r →
  (String.length r < String.length s)%nat.
Proof.
  intros Hne. unfold parse_literal.
  destruct (strip lit s) as [r0|] eqn:Hs; [|done].
  apply strip_length in Hs. intros [= <- <-].
  destruct lit; [done|]. simpl in Hs. lia.
Qed.

Lemma parse_literal_fuel (lit : string) (v : value) (s : string) :
  parse_literal lit v s ≠ OutOfFuel.
Proof. unfold parse_literal. by destruct (strip lit s). Qed.

Lemma parse_scalar_progress (s : string) (v : value) (r : string) :
  parse_scalar s = Parsed v r → (String.length r < String.length s)%nat.
Proof.
  unfold parse_scalar. destruct s as [|c s]; [done|].
  destruct (Ascii.eqb c dquote).
  { destruct (parse_string_body s) as [t r3| |] eqn:Hb; try done.
    apply parse_string_body_progress in Hb. intros [= <- <-]. simpl. lia. }
  destruct (Ascii.eqb c "t"); [by apply parse_literal_progress|].
  destruct (Ascii.eqb c "f"); [by apply parse_literal_progress|].
  destruct (Ascii.eqb c "n"); [by apply parse_literal_progress|].
  destruct (parse_number (String c s)) as [n r3| |] eqn:Hn; try done.
  apply parse_number_progress in Hn. by intros [= <- <-].
Qed.

Lemma parse_scalar_fuel (s : string) : parse_scalar s ≠ OutOfFuel.
Proof.
  unfold parse_scalar. destruct s as [|c s]; [done|].
  destruct (Ascii.eqb c dquote).
  { pose proof (parse_string_body_fuel s). by destruct (parse_string_body s). }
  destruct (Ascii.eqb c "t"); [by apply parse_literal_fuel|].
  destruct (Ascii.eqb c "f"); [by apply parse_literal_fuel|].
  destruct (Ascii.eqb c "n"); [by apply parse_literal_fuel|].
  pose proof (parse_number_fuel (String c s)).
  by destruct (parse_number (String c s)).
Qed.

(** Every parser consumes at least one character of what it accepts. *)
Lemma parse_progress (n : nat) :
  (∀ s v r, parse_value n s = Parsed v r →
     (String.length r < String.length s)%nat)
  ∧ (∀ s acc v r, parse_elements n s acc = Parsed v r →
       (String.length r < String.length s)%nat)
  ∧ (∀ s acc v r, parse_members n s acc = Parsed v r →
       (String.length r < String.length s)%nat).
Proof.
  induction n as [|n (IHv & IHe & IHm)]; [by repeat split|].
  split; [|split].
  - intros s v r. cbn [parse_value].
    pose proof (skip_ws_length s) as Hs.
    destruct (starts_with "{" (skip_ws s)) as [r0|] eqn:H1.
    { apply starts_with_length in H1. pose proof (skip_ws_length r0) as Hr0.
      destruct (starts_with "}" (skip_ws r0)) as [r1|] eqn:H2.
      - apply starts_with_length in H2. intros [= <- <-]. lia.
      - intros H. apply IHm in H. lia. }
    destruct (starts_with "[" (skip_ws s)) as [r0|] eqn:H2.
    { apply starts_with_length in H2. pose proof (skip_ws_length r0) as Hr0.
      destruct (starts_with "]" (skip_ws r0)) as [r1|] eqn:H3.
      - apply starts_with_length in H3. intros [= <- <-]. lia.
      - intros H. apply IHe in H. lia. }
    intros H. apply parse_scalar_progress in H. lia.
  - intros s acc v r. cbn [parse_elements].
    destruct (parse_value n s) as [v0 r0| |] eqn:Hv; try done.
    apply IHv in Hv. pose proof (skip_ws_length r0) as Hr0.
    destruct (starts_with "," (skip_ws r0)) as [r1|] eqn:H1.
    { apply starts_with_length in H1. intros H. apply IHe in H. lia. }
    destruct (starts_with "]" (skip_ws r0)) as [r1|] eqn:H2; [|done].
    apply starts_with_length in H2. intros [= <- <-]. lia.
  - intros s acc v r. cbn [parse_members].
    pose proof (skip_ws_length s) as Hs.
    destruct (starts_with dquote (skip_ws s)) as [r0|] eqn:H1; [|done].
    apply starts_with_length in H1.
    destruct (parse_string_body r0) as [k r1| |] eqn:Hk; try done.
    apply parse_string_body_progress in Hk.
    pose proof (skip_ws_length r1) as Hr1.
    destruct (starts_with ":" (skip_ws r1)) as [r2|] eqn:H2; [|done].
    apply starts_with_length in H2.
    destruct (parse_value n r2) as [v0 r3| |] eqn:Hv; try done.
    apply IHv in Hv. pose proof (skip_ws_length r3) as Hr3.
    destruct (starts_with "," (skip_ws r3)) as [r4|] eqn:H3.
    { apply starts_with_length in H3. intros H. apply IHm in H. lia. }
    destruct (starts_with "}" (skip_ws r3)) as [r4|] eqn:H4; [|done].
    apply starts_with_length in H4. intros [= <- <-]. lia.
Qed.

(** With fuel above twice the length of the text, no parser stops for
    want of fuel. *)
Lemma parse_fuel (n : nat) :
  (∀ s, (2 * String.length s + 1 ≤ n)%nat → parse_value n s ≠ OutOfFuel)
  ∧ (∀ s acc, (2 * String.length s + 2 ≤ n)%nat →
       parse_elements n s acc ≠ OutOfFuel)
  ∧ (∀ s acc, (2 * String.length s + 2 ≤ n)%nat →
       parse_members n s acc ≠ OutOfFuel).
Proof.
  induction n as [|n (IHv & IHe & IHm)].
  { repeat split; intros; lia. }
  destruct (parse_progress n) as (Pv & Pe & Pm).
  split; [|split].
  - intros s Hn. cbn [parse_value].
    pose proof (skip_ws_length s) as Hs.
    destruct (starts_with "{" (skip_ws s)) as [r0|] eqn:H1.
    { apply starts_with_length in H1. pose proof (skip_ws_length r0) as Hr0.
      destruct (starts_with "}" (skip_ws r0)) as [r1|]; [done|].
      apply IHm. lia. }
    destruct (starts_with "[" (skip_ws s)) as [r0|] eqn:H2.
    { apply starts_with_length in H2. pose proof (skip_ws_length r0) as Hr0.
      destruct (starts_with "]" (skip_ws r0)) as [r1|]; [done|].
      apply IHe. lia. }
    apply parse_scalar_fuel.
  - intros s acc Hn. cbn [parse_elements].
    pose proof (IHv s ltac:(lia)) as Hv.
    destruct (parse_value n s) as [v0 r0| |] eqn:Hp; try done.
    apply Pv in Hp. pose proof (skip_ws_length r0) as Hr0.
    destruct (starts_with "," (skip_ws r0)) as [r1|] eqn:H1.
    { apply starts_with_length in H1. apply IHe. lia. }
    by destruct (starts_with "]" (skip_ws r0)).
  - intros s acc Hn. cbn [parse_members].
    pose proof (skip_ws_length s) as Hs.
    destruct (starts_with dquote (skip_ws s)) as [r0|] eqn:H1; [|done].
    apply starts_with_length in H1.
    pose proof (parse_string_body_fuel r0) as Hk.
    destruct (parse_string_body r0) as [k r1| |] eqn:Hb; try done.
    apply parse_string_body_progress in Hb.
    pose proof (skip_ws_length r1) as Hr1.
    destruct (starts_with ":" (skip_ws r1)) as [r2|] eqn:H2; [|done].
    apply starts_with_length in H2.
    pose proof (IHv r2 ltac:(lia)) as Hv.
    destruct (parse_value n r2) as [v0 r3| |] eqn:Hp; try done.
    apply Pv in Hp. pose proof (skip_ws_length r3) as Hr3.
    destruct (starts_with "," (skip_ws r3)) as [r4|] eqn:H3.
    { apply starts_with_length in H3. apply IHm. lia. }
    by destruct (starts_with "}" (skip_ws r3)).
Qed.

(** [JSON_parse_string] gives [None] only for a text that is not JSON:
    the descent never stops for want of fuel. *)
Lemma JSON_parse_fuel (s : string) : parse_value (json_fuel s) s ≠ OutOfFuel.
Proof. apply (parse_fuel (json_fuel s)). unfold json_fuel. lia. Qed.

(** One step of each parser. *)
Lemma parse_value_S (f : nat) (s : string) :
  parse_value (S f) s =
  match starts_with "{" (skip_ws s) with
  | Some r =>
      match starts_with "}" (skip_ws r) with
      | Some r' => Parsed (VObj ∅) r'
      | None => parse_members f (skip_ws r) ∅
      end
  | None =>
      match starts_with "[" (skip_ws s) with
      | Some r =>
          match starts_with "]" (skip_ws r) with
          | Some r' => Parsed (VArr []) r'
          | None => parse_elements f (skip_ws r) []
          end
      | None => parse_scalar (skip_ws s)
      end
  end.
Proof. reflexivity. Qed.

Lemma parse_elements_S (f : nat) (s : string) (acc : list value) :
  parse_elements (S f) s acc =
  match parse_value f s with
  | Parsed v r =>
      match starts_with "," (skip_ws r) with
      | Some r' => parse_elements f r' (v :: acc)
      | None =>
          match starts_with "]" (skip_ws r) with
          | Some r' => Parsed (VArr (rev (v :: acc))) r'
          | None => SyntaxError
          end
      end
  | err => err
  end.
Proof. reflexivity. Qed.

Lemma parse_members_S (f : nat) (s : string) (acc : gmap string value) :
  parse_members (S f) s acc =
  match starts_with dquote (skip_ws s) with
  | Some r =>
      match parse_string_body r with
      | Parsed k r1 =>
          match starts_with ":" (skip_ws r1) with
          | Some r2 =>
              match parse_value f r2 with
              | Parsed v r3 =>
                  match starts_with "," (skip_ws r3) with
                  | Some r4 => parse_members f r4 (<[pair_surrogates k := v]> acc)
                  | None =>
                      match starts_with "}" (skip_ws r3) with
                      | Some r4 => Parsed (VObj (<[pair_surrogates k := v]> acc)) r4
                      | None => SyntaxError
                      end
                  end
              | err => err
              end
          | None => SyntaxError
          end
      | SyntaxError => SyntaxError
      | OutOfFuel => OutOfFuel
      end
  | None => SyntaxError
  end.
Proof. reflexivity. Qed.

(** A result reached with some fuel is reached with more. *)
Lemma parse_more_fuel (n : nat) :
  (∀ s, parse_value n s ≠ OutOfFuel → parse_value (S n) s = parse_value n s)
  ∧ (∀ s acc, parse_elements n s acc ≠ OutOfFuel →
       parse_elements (S n) s acc = parse_elements n s acc)
  ∧ (∀ s acc, parse_members n s acc ≠ OutOfFuel →
       parse_members (S n) s acc = parse_members n s acc).
Proof.
  induction n as [|n (IHv & IHe & IHm)]; [by repeat split|].
  split; [|split].
  - intros s. rewrite (parse_value_S (S n)), (parse_value_S n).
    destruct (starts_with "{" (skip_ws s)) as [r|].
    { destruct (starts_with "}" (skip_ws r)); [done|]. apply IHm. }
    destruct (starts_with "[" (skip_ws s)) as [r|]; [|done].
    destruct (starts_with "]" (skip_ws r)); [done|]. apply IHe.
  - intros s acc. rewrite (parse_elements_S (S n)), (parse_elements_S n).
    destruct (parse_value n s) as [v r| |] eqn:Hv; [| |done].
    + rewrite IHv, Hv by by rewrite Hv.
      destruct (starts_with "," (skip_ws r)); [apply IHe|done].
    + by rewrite IHv, Hv by by rewrite Hv.
  - intros s acc. rewrite (parse_members_S (S n)), (parse_members_S n).
    destruct (starts_with dquote (skip_ws s)) as [r|]; [|done].
    destruct (parse_string_body r) as [k r1| |]; [|done..].
    destruct (starts_with ":" (skip_ws r1)) as [r2|]; [|done].
    destruct (parse_value n r2) as [v r3| |] eqn:Hv; [| |done].
    + rewrite IHv, Hv by by rewrite Hv.
      destruct (starts_with "," (skip_ws r3)); [apply IHm|done].
    + by rewrite IHv, Hv by by rewrite Hv.
Qed.

Lemma parse_value_fuel_ge (n m : nat) (s : string) :
  (n ≤ m)%nat → parse_value n s ≠ OutOfFuel → parse_value m s = parse_value n s.
Proof.
  intros Hle Hn. induction Hle as [|m Hle IH]; [done|].
  rewrite <- IH. apply parse_more_fuel. by rewrite IH.
Qed.

(** The fuel of [JSON_parse_string] is as good as any larger one. *)
Lemma JSON_parse_fuel_irrelevant (s : string) (m : nat) :
  (json_fuel s ≤ m)%nat → parse_value m s = parse_value (json_fuel s) s.
Proof. intros Hle. by apply parse_value_fuel_ge, JSON_parse_fuel. Qed.

(** ** Sequencing and footprints *)

Lemma seq_fst (f g : step) (o : gmap string value) :
  (seq f g o).1 = (g (f o).1).1.
Proof. unfold seq. destruct (f o) as [o1 l1]. simpl. by destruct (g o1). Qed.

Lemma seq_snd (f g : step) (o : gmap string value) :
  (seq f g o).2 = (f o).2 ++ (g (f o).1).2.
Proof. unfold seq. destruct (f o) as [o1 l1]. simpl. by destruct (g o1). Qed.

Lemma frames_skip (K : list string) : frames skip K.
Proof. by intros o k _. Qed.

Lemma frames_seq (f g : step) (K1 K2 : list string) :
  frames f K1 → frames g K2 → frames (seq f g) (K1 ++ K2).
Proof.
  intros Hf Hg o k Hk. rewrite seq_fst.
  rewrite Hg, Hf; [done | |]; intros Hin; apply Hk, elem_of_app; auto.
Qed.

Lemma frames_weaken (f : step) (K K' : list string) :
  frames f K → K ⊆ K' → frames f K'.
Proof. intros Hf Hsub o k Hk. apply Hf. intros Hin. by apply Hk, Hsub. Qed.

Lemma frames_forEach (names : list string) (body : string → step) :
  (∀ b, frames (body b) [b]) → frames (forEach names body) names.
Proof.
  intros Hb. induction names as [|a names IH]; simpl.
  - apply frames_skip.
  - change (a :: names) with ([a] ++ names). by apply frames_seq.
Qed.

(** In a loop over distinct names whose body touches its own name only,
    the property [a] ends as the body for [a] leaves it, run on an object
    that still has the initial value of [a]. *)
Lemma forEach_at (names : list string) (body : string → step) (a : string)
    (o : gmap string value) :
  NoDup names → a ∈ names → (∀ b, frames (body b) [b]) →
  ∃ x, x !! a = o !! a ∧ (forEach names body o).1 !! a = (body a x).1 !! a.
Proof.
  intros Hnd Hin Hb. revert o.
  induction names as [|b names IH]; intros o; [by apply elem_of_nil in Hin|].
  apply NoDup_cons in Hnd as [Hnotin Hnd]. simpl. rewrite seq_fst.
  destruct (decide (a = b)) as [->|Hne].
  - exists o. split; [done|].
    by rewrite (frames_forEach names body Hb).
  - apply elem_of_cons in Hin as [?|Hin]; [done|].
    destruct (IH Hnd Hin (body b o).1) as (x & Hx & Heq).
    exists x. split; [|done].
    rewrite Hx. apply Hb. by rewrite list_elem_of_singleton.
Qed.

Lemma frames_ignore_attr (a : string) : frames (ignore_attr a) [a].
Proof.
  intros o k Hk. simpl. apply lookup_delete_ne.
  intros ->. apply Hk. by apply list_elem_of_singleton.
Qed.

Lemma frames_numerify_attr (a : string) : frames (numerify_attr a) [a].
Proof.
  intros o k Hk. rewrite list_elem_of_singleton in Hk.
  unfold numerify_attr.
  destruct (truthy (get o a));
    match goal with |- context [strict_equals ?x ?y] => destruct (strict_equals x y) end;
    simpl; by rewrite ?lookup_insert_ne.
Qed.

Lemma frames_boolean_attr (a : string) : frames (boolean_attr a) [a].
Proof.
  intros o k Hk. rewrite list_elem_of_singleton in Hk.
  unfold boolean_attr. destruct (strict_equals (get o a) VUndef); simpl;
    by rewrite ?lookup_insert_ne.
Qed.

Lemma frames_decode_networks : frames decode_networks ["networks"].
Proof.
  intros o k Hk. rewrite list_elem_of_singleton in Hk.
  unfold decode_networks. destruct (truthy _); [|done].
  destruct (get o "networks"); simpl; rewrite ?lookup_insert_ne; try done.
  destruct (JSON_parse _); simpl; by rewrite ?lookup_insert_ne.
Qed.

Lemma frames_decode_owner_uuid :
  frames decode_owner_uuid ["owner_uuid"; "owner_uuids"].
Proof.
  intros o k Hk.
  assert (k ≠ "owner_uuid" ∧ k ≠ "owner_uuids") as [H1 H2].
  { split; intros ->; apply Hk; set_solver. }
  unfold decode_owner_uuid. destruct (truthy _); [|done].
  destruct (get o "owner_uuid"); simpl;
    rewrite ?lookup_delete_ne, ?lookup_insert_ne; try done.
  destruct (JSON_parse _); simpl;
    by rewrite ?lookup_delete_ne, ?lookup_insert_ne.
Qed.

Lemma frames_decode_blob (a : string) : frames (decode_blob a) [a].
Proof.
  intros o k Hk. rewrite list_elem_of_singleton in Hk.
  unfold decode_blob. destruct (truthy _); [|done].
  destruct (JSON_parse _); simpl; by rewrite ?lookup_insert_ne.
Qed.

(** ** The stages of decode *)

Lemma decode_obj_fst (o : gmap string value) :
  (decode_obj o).1 = (decode_blob "min_platform" (traited o)).1.
Proof.
  unfold decode_obj, traited, owned, networked, booleaned, numerified, ignored.
  rewrite !seq_fst. reflexivity.
Qed.

Lemma decode_obj_snd (o : gmap string value) :
  (decode_obj o).2 =
  (forEach attrs2ignore ignore_attr o).2
  ++ (forEach attrs2numerify numerify_attr (ignored o)).2
  ++ (forEach attrs2boolean boolean_attr (numerified o)).2
  ++ (decode_networks (booleaned o)).2
  ++ (decode_owner_uuid (networked o)).2
  ++ (decode_blob "traits" (owned o)).2
  ++ (decode_blob "min_platform" (traited o)).2.
Proof.
  unfold decode_obj, traited, owned, networked, booleaned, numerified, ignored.
  rewrite !seq_snd, ?seq_fst. reflexivity.
Qed.

Lemma frames_ignored : frames (forEach attrs2ignore ignore_attr) attrs2ignore.
Proof. apply frames_forEach, frames_ignore_attr. Qed.

Lemma frames_numerified :
  frames (forEach attrs2numerify numerify_attr) attrs2numerify.
Proof. apply frames_forEach, frames_numerify_attr. Qed.

Lemma frames_booleaned : frames (forEach attrs2boolean boolean_attr) attrs2boolean.
Proof. apply frames_forEach, frames_boolean_attr. Qed.

(** Looking up [k] in the decoded object, stage by stage from the last:
    a stage is stepped over when [k] is outside its footprint. *)
Ltac step_over :=
  first
    [ rewrite (frames_decode_blob _ _ _) by compute_done
    | rewrite (frames_decode_owner_uuid _ _) by compute_done
    | rewrite (frames_decode_networks _ _) by compute_done
    | rewrite (frames_booleaned _ _) by compute_done
    | rewrite (frames_numerified _ _) by compute_done
    | rewrite (frames_ignored _ _) by compute_done ].

Ltac stages :=
  rewrite ?decode_obj_fst;
  unfold traited, owned, networked, booleaned, numerified, ignored.

Lemma NoDup_attrs2numerify : NoDup attrs2numerify.
Proof. compute_done. Qed.

Lemma NoDup_attrs2boolean : NoDup attrs2boolean.
Proof. compute_done. Qed.

(** The lists and single names that the stages of [decode] work on are
    pairwise disjoint, but for the owner stage writing [owner_uuids]. *)
Lemma numerify_elsewhere (a : string) :
  a ∈ attrs2numerify →
  (a ∉ attrs2ignore) ∧ (a ∉ attrs2boolean) ∧ (a ∉ ["networks"]) ∧
  (a ∉ ["owner_uuid"; "owner_uuids"]) ∧ (a ∉ ["traits"]) ∧ (a ∉ ["min_platform"]).
Proof.
  intros Ha. unfold attrs2numerify in Ha.
  repeat (apply elem_of_cons in Ha as [->|Ha]; [compute_done|]).
  by apply elem_of_nil in Ha.
Qed.

(** A numeric attribute of the decoded object is what its own iteration of
    the numerify loop made of it. *)
Lemma decode_numeric_attr (o : gmap string value) (a : string) :
  a ∈ attrs2numerify →
  ∃ x, x !! a = o !! a ∧ (decode_obj o).1 !! a = (numerify_attr a x).1 !! a.
Proof.
  intros Ha. destruct (numerify_elsewhere a Ha) as (Hi & Hb & Hn & Ho & Ht & Hm).
  destruct (forEach_at attrs2numerify numerify_attr a (ignored o)
              NoDup_attrs2numerify Ha frames_numerify_attr) as (x & Hx & Heq).
  exists x. split.
  - rewrite Hx. unfold ignored. by apply frames_ignored.
  - stages.
    rewrite (frames_decode_blob _ _ _ Hm), (frames_decode_blob _ _ _ Ht),
      (frames_decode_owner_uuid _ _ Ho), (frames_decode_networks _ _ Hn),
      (frames_booleaned _ _ Hb).
    exact Heq.
Qed.

(** [x === NaN] is false for every [x]. *)
Lemma strict_equals_NaN (v : value) : strict_equals v (VNum NaN) = false.
Proof. destruct v as [| | |[]| | |]; reflexivity. Qed.

(** Hence the warning of the numerify loop is never logged. *)
Lemma numerify_attr_snd (a : string) (o : gmap string value) :
  (numerify_attr a o).2 = [].
Proof. unfold numerify_attr. by rewrite strict_equals_NaN. Qed.

Lemma numerify_attr_fst (a : string) (o : gmap string value) :
  (numerify_attr a o).1 =
  if truthy (get o a) then <[a := VNum (ToNumber (get o a))]> o else o.
Proof. unfold numerify_attr. by rewrite strict_equals_NaN. Qed.

(** C1, as stated, fails: [abc] does not read as a number, yet decoding
    [{vcpus: "abc"}] logs nothing and leaves [vcpus] present, holding NaN. *)
Lemma numerify_drops_NaN_fails :
  StringToNumber "abc" = NaN
  ∧ (decode_obj {["vcpus" := VStr "abc"]}).1 !! "vcpus" = Some (VNum NaN)
  ∧ (decode_obj {["vcpus" := VStr "abc"]}).2 = []
  ∧ ¬ numerify_drops_NaN.
Proof.
  split; [reflexivity|]. split; [by vm_compute|]. split; [by vm_compute|].
  intros H.
  destruct (H {["vcpus" := VStr "abc"]} "vcpus" "abc") as [_ Habs];
    [compute_done | reflexivity | reflexivity |].
  vm_compute in Habs. discriminate Habs.
Qed.

(** C1, amended: for every raw record and every field of the numeric
    coercion list, if the field holds a string that does not coerce to a
    number, the field is present in the decoded record and holds NaN. *)
Theorem numerify_stores_NaN (o : gmap string value) (a s : string) :
  a ∈ attrs2numerify → o !! a = Some (VStr s) → StringToNumber s = NaN →
  (decode_obj o).1 !! a = Some (VNum NaN).
Proof.
  intros Ha Hs Hnan.
  destruct (decode_numeric_attr o a Ha) as (x & Hx & ->).
  rewrite numerify_attr_fst. unfold get. rewrite Hx, Hs. simpl.
  destruct (String.eqb_spec s "") as [->|_]; [discriminate Hnan|].
  simpl. by rewrite lookup_insert_eq, Hnan.
Qed.

Lemma numerify_stores_NaN_witness :
  (decode_obj {["vcpus" := VStr "abc"; "uuid" := VStr "u1"]}).1 !! "vcpus"
  = Some (VNum NaN).
Proof.
  apply (numerify_stores_NaN _ "vcpus" "abc");
    [compute_done | reflexivity | reflexivity].
Defined.

(** ** The owner_uuid migration *)

Lemma networked_owner_uuid (o : gmap string value) :
  networked o !! "owner_uuid" = o !! "owner_uuid".
Proof. stages. by repeat step_over. Qed.

Lemma networked_owner_uuids (o : gmap string value) :
  networked o !! "owner_uuids" = o !! "owner_uuids".
Proof. stages. by repeat step_over. Qed.

Lemma decode_owner_uuids (o : gmap string value) :
  (decode_obj o).1 !! "owner_uuids" = owned o !! "owner_uuids".
Proof. stages. by repeat step_over. Qed.

Lemma decode_owner_uuid_key (o : gmap string value) :
  (decode_obj o).1 !! "owner_uuid" = owned o !! "owner_uuid".
Proof. stages. by repeat step_over. Qed.

(** What the migration writes for a non-empty string: its JSON reading,
    or the one-element list of the string itself. *)
Lemma decode_owner_string (o : gmap string value) (s : string) :
  o !! "owner_uuid" = Some (VStr s) → s ≠ "" →
  (decode_obj o).1 !! "owner_uuids"
    = Some (default (VArr [VStr s]) (JSON_parse (VStr s)))
  ∧ (decode_obj o).1 !! "owner_uuid" = None.
Proof.
  intros Hs Hne.
  rewrite decode_owner_uuids, decode_owner_uuid_key. unfold owned.
  unfold decode_owner_uuid, get. rewrite networked_owner_uuid, Hs.
  cbn [default from_option id truthy].
  destruct (String.eqb_spec s "") as [->|_]; [done|]. cbn [negb].
  destruct (JSON_parse (VStr s)); cbn [fst snd default from_option id];
    by rewrite lookup_delete_eq, lookup_delete_ne, lookup_insert_eq.
Qed.

(** C5, as stated, fails: with [owner_uuids = ["x"]] and
    [owner_uuid = "abc"] the migration runs and [owner_uuids] becomes
    [["abc"]]. *)
Lemma migration_guarded_fails :
  (decode_obj {["owner_uuids" := VArr [VStr "x"]; "owner_uuid" := VStr "abc"]}).1
    !! "owner_uuids" = Some (VArr [VStr "abc"])
  ∧ ¬ migration_guarded.
Proof.
  split; [by vm_compute|].
  intros H.
  specialize (H {["owner_uuids" := VArr [VStr "x"]; "owner_uuid" := VStr "abc"]}
                (VArr [VStr "x"]) eq_refl).
  vm_compute in H. discriminate H.
Qed.

(** What the owner block writes does not depend on the [owner_uuids] it
    finds: two objects with the same truthy [owner_uuid] end with the same
    [owner_uuids]. *)
Lemma owner_uuids_written (x y : gmap string value) :
  truthy (get x "owner_uuid") = true →
  get y "owner_uuid" = get x "owner_uuid" →
  (decode_owner_uuid y).1 !! "owner_uuids"
  = (decode_owner_uuid x).1 !! "owner_uuids".
Proof.
  intros Ht Hy. unfold decode_owner_uuid. rewrite Hy, Ht.
  destruct (get x "owner_uuid") as [| | | |s| |];
    try (cbn [isArray negb fst];
         by rewrite !lookup_delete_ne, !lookup_insert_eq).
  destruct (JSON_parse (VStr s)); cbn [fst];
    by rewrite !lookup_delete_ne, !lookup_insert_eq.
Qed.

Lemma decode_owner_uuid_other (x : gmap string value) :
  truthy (get x "owner_uuid") = true → (∀ s, get x "owner_uuid" ≠ VStr s) →
  isArray (get x "owner_uuid") = false →
  (decode_owner_uuid x).1 !! "owner_uuids" = Some (VArr [])
  ∧ ∃ e, (decode_owner_uuid x).2 = [e] ∧ owners_error e.
Proof.
  intros Ht Hns Hna. unfold decode_owner_uuid. rewrite Ht.
  destruct (get x "owner_uuid") as [| | | |s| |]; try done;
    try (cbn [isArray negb fst snd];
         rewrite lookup_delete_ne, lookup_insert_eq by done;
         split; [done|]; by eexists).
  by destruct (Hns s).
Qed.

Lemma decode_owner_uuid_list (x : gmap string value) (l : list value) :
  get x "owner_uuid" = VArr l →
  (decode_owner_uuid x).1 !! "owner_uuids" = Some (VArr l).
Proof.
  intros Hl. unfold decode_owner_uuid. rewrite Hl. cbn [truthy isArray negb fst].
  by rewrite lookup_delete_ne, lookup_insert_eq.
Qed.

(** C5, amended: decode leaves the [owner_uuids] of a raw record as it is
    whenever the singular [owner_uuid] is absent or falsy. When a truthy
    [owner_uuid] is present the migration runs whether or not
    [owner_uuids] is present, and what [owner_uuids] held has no part in
    the result: it becomes the list read from [owner_uuid] when that is a
    string that parses as a JSON list, the one-element list of
    [owner_uuid] when it is a string that does not parse as JSON,
    [owner_uuid] itself when it is a list, and the empty list, with an
    error logged, when it is anything else. *)
Theorem migration_runs_on_owner_uuid (o : gmap string value) :
  let v := get o "owner_uuid" in
  let r := (decode_obj o).1 !! "owner_uuids" in
  (truthy v = false → r = o !! "owner_uuids")
  ∧ (truthy v = true →
     r = (decode_obj (delete "owner_uuids" o)).1 !! "owner_uuids")
  ∧ (∀ s l, v = VStr s → s ≠ "" → JSON_parse (VStr s) = Some (VArr l) →
       r = Some (VArr l))
  ∧ (∀ s, v = VStr s → s ≠ "" → JSON_parse (VStr s) = None →
       r = Some (VArr [VStr s]))
  ∧ (∀ l, v = VArr l → r = Some (VArr l))
  ∧ (truthy v = true → (∀ s, v ≠ VStr s) → isArray v = false →
     r = Some (VArr []) ∧ ∃ e, e ∈ (decode_obj o).2 ∧ owners_error e).
Proof.
  intros v r. subst v r. rewrite decode_owner_uuids. unfold owned.
  assert (get (networked o) "owner_uuid" = get o "owner_uuid") as Hget.
  { unfold get. by rewrite networked_owner_uuid. }
  split; [|split; [|split; [|split; [|split]]]].
  - intros Hf. unfold decode_owner_uuid. rewrite Hget, Hf. cbn [fst].
    apply networked_owner_uuids.
  - intros Ht. rewrite decode_owner_uuids. unfold owned.
    symmetry. apply owner_uuids_written; [by rewrite Hget|].
    rewrite Hget. unfold get.
    by rewrite networked_owner_uuid, lookup_delete_ne.
  - intros s l Hs Hne Hp. unfold get in Hs.
    destruct (o !! "owner_uuid") as [w|] eqn:Hw; [|done].
    cbn [default from_option id] in Hs. subst w.
    destruct (decode_owner_string o s Hw Hne) as [Hr _].
    fold (owned o). by rewrite <- decode_owner_uuids, Hr, Hp.
  - intros s Hs Hne Hp. unfold get in Hs.
    destruct (o !! "owner_uuid") as [w|] eqn:Hw; [|done].
    cbn [default from_option id] in Hs. subst w.
    destruct (decode_owner_string o s Hw Hne) as [Hr _].
    fold (owned o). by rewrite <- decode_owner_uuids, Hr, Hp.
  - intros l Hl. apply decode_owner_uuid_list. by rewrite Hget.
  - intros Ht Hns Hna.
    destruct (decode_owner_uuid_other (networked o)) as [Hr (e & He & Herr)];
      [by rewrite Hget..|].
    split; [exact Hr|]. exists e. split; [|exact Herr].
    rewrite decode_obj_snd, He.
    do 4 (apply elem_of_app; right). apply elem_of_app. left.
    by apply list_elem_of_singleton.
Qed.

Lemma migration_runs_on_owner_uuid_witness :
  let kept : gmap string value :=
    {["owner_uuids" := VArr [VStr "x"]; "uuid" := VStr "u1"]} in
  let both : gmap string value :=
    {["owner_uuids" := VArr [VStr "x"]; "owner_uuid" := VStr "abc"]} in
  let number : gmap string value :=
    {["owner_uuids" := VArr [VStr "x"]; "owner_uuid" := VNum (Dec false 5 0)]} in
  (decode_obj kept).1 !! "owner_uuids" = kept !! "owner_uuids"
  ∧ (decode_obj both).1 !! "owner_uuids"
    = (decode_obj (delete "owner_uuids" both)).1 !! "owner_uuids"
  ∧ (decode_obj both).1 !! "owner_uuids" = Some (VArr [VStr "abc"])
  ∧ (decode_obj (<["owner_uuid" := VStr json_a_b]> both)).1 !! "owner_uuids"
    = Some (VArr [VStr "a"; VStr "b"])
  ∧ (decode_obj (<["owner_uuid" := VArr [VStr "o1"]]> both)).1 !! "owner_uuids"
    = Some (VArr [VStr "o1"])
  ∧ (decode_obj number).1 !! "owner_uuids" = Some (VArr []).
Proof.
  intros kept both number.
  split; [|split; [|split; [|split; [|split]]]].
  - apply (proj1 (migration_runs_on_owner_uuid kept)). reflexivity.
  - apply (proj1 (proj2 (migration_runs_on_owner_uuid both))).
    vm_compute. reflexivity.
  - apply (proj1 (proj2 (proj2 (proj2 (migration_runs_on_owner_uuid both))))
             "abc"); [vm_compute; reflexivity | discriminate | vm_compute; reflexivity].
  - apply (proj1 (proj2 (proj2 (migration_runs_on_owner_uuid
                                  (<["owner_uuid" := VStr json_a_b]> both))))
             json_a_b [VStr "a"; VStr "b"]);
      [vm_compute; reflexivity | discriminate | vm_compute; reflexivity].
  - apply (proj1 (proj2 (proj2 (proj2 (proj2
             (migration_runs_on_owner_uuid
                (<["owner_uuid" := VArr [VStr "o1"]]> both))))))
             [VStr "o1"]).
    vm_compute. reflexivity.
  - apply (proj2 (proj2 (proj2 (proj2 (proj2
             (migration_runs_on_owner_uuid number)))))).
    + vm_compute. reflexivity.
    + intros s. vm_compute. discriminate.
    + vm_compute. reflexivity.
Defined.

(** C7: for a raw record whose [owner_uuid] is the string [abc], decode
    gives [owner_uuids = ["abc"]]; for one whose [owner_uuid] is the
    string [["a","b"]], decode gives [owner_uuids = ["a","b"]]; in both
    cases the decoded record has no [owner_uuid]. The other attributes of
    the record are arbitrary. *)
Theorem legacy_owner_uuid_examples (o : gmap string value) :
  ((decode_obj (<["owner_uuid" := VStr "abc"]> o)).1 !! "owner_uuids"
     = Some (VArr [VStr "abc"])
   ∧ (decode_obj (<["owner_uuid" := VStr "abc"]> o)).1 !! "owner_uuid" = None)
  ∧ ((decode_obj (<["owner_uuid" := VStr json_a_b]> o)).1 !! "owner_uuids"
       = Some (VArr [VStr "a"; VStr "b"])
     ∧ (decode_obj (<["owner_uuid" := VStr json_a_b]> o)).1 !! "owner_uuid"
       = None).
Proof.
  split.
  - apply (decode_owner_string _ "abc"); [apply lookup_insert_eq | done].
  - apply (decode_owner_string _ json_a_b); [apply lookup_insert_eq | done].
Qed.

(** ** networks *)

Lemma booleaned_networks (o : gmap string value) :
  booleaned o !! "networks" = o !! "networks".
Proof. stages. by repeat step_over. Qed.

Lemma decode_networks_key (o : gmap string value) :
  (decode_obj o).1 !! "networks" = networked o !! "networks".
Proof. stages. by repeat step_over. Qed.

(** An entry logged by the networks stage is logged by [decode]. *)
Lemma networks_entry_logged (o : gmap string value) (e : entry) :
  e ∈ (decode_networks (booleaned o)).2 → e ∈ (decode_obj o).2.
Proof.
  intros He. rewrite decode_obj_snd.
  do 3 (apply elem_of_app; right). apply elem_of_app. by left.
Qed.

Lemma forEach_silent (names : list string) (body : string → step)
    (o : gmap string value) :
  (∀ a x, (body a x).2 = []) → (forEach names body o).2 = [].
Proof.
  intros Hb. revert o. induction names as [|a names IH]; intros o; [done|].
  simpl. by rewrite seq_snd, Hb, IH.
Qed.

(** C6, as stated, fails: [decode] tests [obj.networks] for truth first,
    so the empty string is neither parsed nor replaced. *)
Lemma networks_always_list_fails :
  (decode_obj {["networks" := VStr ""]}).1 !! "networks" = Some (VStr "")
  ∧ (decode_obj {["networks" := VStr ""]}).2 = []
  ∧ ¬ networks_always_list.
Proof.
  split; [by vm_compute|]. split; [by vm_compute|].
  intros H. destruct (H {["networks" := VStr ""]} "") as [l Hl].
  - apply lookup_singleton_eq.
  - vm_compute in Hl. discriminate Hl.
Qed.

(** The parsed value is stored without a look at its kind: the string [5]
    decodes to the number 5. *)
Lemma networks_parsed_non_list :
  (decode_obj {["networks" := VStr "5"]}).1 !! "networks"
  = Some (VNum (Dec false 5 0)).
Proof. vm_compute. reflexivity. Qed.

Lemma truthy_VStr (s : string) : s ≠ "" → truthy (VStr s) = true.
Proof. intros Hne. cbn [truthy]. by destruct (String.eqb_spec s ""). Qed.

Lemma decode_networks_falsy (x : gmap string value) :
  truthy (get x "networks") = false → decode_networks x = (x, []).
Proof. intros Hf. unfold decode_networks. by rewrite Hf. Qed.

Lemma decode_networks_parse_fail (x : gmap string value) (s : string) :
  get x "networks" = VStr s → s ≠ "" → JSON_parse (VStr s) = None →
  decode_networks x =
  (<["networks" := VArr []]> x,
   [networks_failure [("err", VStr "SyntaxError");
                      ("package", VObj (<["networks" := VArr []]> x))]]).
Proof.
  intros Hs Hne Hp. unfold decode_networks.
  by rewrite Hs, (truthy_VStr s Hne), Hp.
Qed.

Lemma decode_networks_parse_ok (x : gmap string value) (s : string) (v : value) :
  get x "networks" = VStr s → s ≠ "" → JSON_parse (VStr s) = Some v →
  decode_networks x = (<["networks" := v]> x, []).
Proof.
  intros Hs Hne Hp. unfold decode_networks.
  by rewrite Hs, (truthy_VStr s Hne), Hp.
Qed.

Lemma decode_networks_other (x : gmap string value) :
  truthy (get x "networks") = true → (∀ s, get x "networks" ≠ VStr s) →
  isArray (get x "networks") = false →
  decode_networks x =
  (<["networks" := VArr []]> x,
   [networks_failure [("package", VObj (<["networks" := VArr []]> x))]]).
Proof.
  intros Ht Hns Hna. unfold decode_networks. rewrite Ht.
  destruct (get x "networks") as [| | | |s| |]; try done.
  by destruct (Hns s).
Qed.

Lemma decode_networks_array (x : gmap string value) (l : list value) :
  get x "networks" = VArr l → decode_networks x = (x, []).
Proof. intros Hl. unfold decode_networks. by rewrite Hl. Qed.

Lemma get_lookup_VArr (x : gmap string value) (k : string) (l : list value) :
  get x k = VArr l → x !! k = Some (VArr l).
Proof. unfold get. destruct (x !! k); cbn [default from_option id]; congruence. Qed.

(** C6, amended: a [networks] attribute that is absent or falsy is left as
    it is. A non-empty string is parsed as JSON: when the parse fails,
    [networks] becomes the empty list and an error is logged; when it gives
    a list, [networks] is that list. A truthy value that is neither a
    string nor a list becomes the empty list and an error is logged; a
    list is kept. *)
Theorem networks_decoded (o : gmap string value) :
  let v := get o "networks" in
  let r := (decode_obj o).1 !! "networks" in
  let logged := ∃ e, e ∈ (decode_obj o).2 ∧ networks_error e in
  (truthy v = false → r = o !! "networks")
  ∧ (∀ s, v = VStr s → s ≠ "" → JSON_parse (VStr s) = None →
       r = Some (VArr []) ∧ logged)
  ∧ (∀ s l, v = VStr s → s ≠ "" → JSON_parse (VStr s) = Some (VArr l) →
       r = Some (VArr l))
  ∧ (truthy v = true → (∀ s, v ≠ VStr s) → isArray v = false →
       r = Some (VArr []) ∧ logged)
  ∧ (∀ l, v = VArr l → r = Some (VArr l)).
Proof.
  intros v r logged. subst v r logged.
  rewrite decode_networks_key. unfold networked.
  assert (get (booleaned o) "networks" = get o "networks") as Hget.
  { unfold get. by rewrite booleaned_networks. }
  assert (∀ fs, networks_error (networks_failure fs)) as Herr by done.
  split; [|split; [|split; [|split]]].
  - intros Hf. rewrite decode_networks_falsy by by rewrite Hget.
    apply booleaned_networks.
  - intros s Hs Hne Hp. split.
    + rewrite (decode_networks_parse_fail _ s) by by rewrite ?Hget.
      apply lookup_insert_eq.
    + eexists. split; [|apply Herr].
      apply networks_entry_logged.
      rewrite (decode_networks_parse_fail _ s) by by rewrite ?Hget.
      by apply list_elem_of_singleton.
  - intros s l Hs Hne Hp.
    rewrite (decode_networks_parse_ok _ s (VArr l)) by by rewrite ?Hget.
    apply lookup_insert_eq.
  - intros Ht Hns Hna. split.
    + rewrite decode_networks_other by by rewrite ?Hget.
      apply lookup_insert_eq.
    + eexists. split; [|apply Herr].
      apply networks_entry_logged.
      rewrite decode_networks_other by by rewrite ?Hget.
      by apply list_elem_of_singleton.
  - intros l Hl. rewrite (decode_networks_array _ l) by by rewrite Hget.
    cbn [fst]. apply get_lookup_VArr. by rewrite Hget.
Qed.

(** ** Decoding a decoded record *)

Lemma forEach_id (names : list string) (body : string → step)
    (x : gmap string value) :
  (∀ a, a ∈ names → (body a x).1 = x) → (forEach names body x).1 = x.
Proof.
  induction names as [|b names IH]; intros Hid; [done|].
  simpl. rewrite seq_fst, (Hid b) by (apply elem_of_cons; by left).
  apply IH. intros a Ha. apply Hid, elem_of_cons. by right.
Qed.

Lemma NoDup_attrs2ignore : NoDup attrs2ignore.
Proof. compute_done. Qed.

Lemma ignore_elsewhere (a : string) :
  a ∈ attrs2ignore →
  (a ∉ attrs2numerify) ∧ (a ∉ attrs2boolean) ∧ (a ∉ ["networks"]) ∧
  (a ∉ ["owner_uuid"; "owner_uuids"]) ∧ (a ∉ ["traits"]) ∧ (a ∉ ["min_platform"]).
Proof.
  intros Ha. unfold attrs2ignore in Ha.
  repeat (apply elem_of_cons in Ha as [->|Ha]; [compute_done|]).
  by apply elem_of_nil in Ha.
Qed.

Lemma boolean_elsewhere (a : string) :
  a ∈ attrs2boolean →
  (a ∉ attrs2ignore) ∧ (a ∉ attrs2numerify) ∧ (a ∉ ["networks"]) ∧
  (a ∉ ["owner_uuid"; "owner_uuids"]) ∧ (a ∉ ["traits"]) ∧ (a ∉ ["min_platform"]).
Proof.
  intros Ha. unfold attrs2boolean in Ha.
  repeat (apply elem_of_cons in Ha as [->|Ha]; [compute_done|]).
  by apply elem_of_nil in Ha.
Qed.

(** An ignored attribute is absent from the decoded object. *)
Lemma decode_ignored_attr (o : gmap string value) (a : string) :
  a ∈ attrs2ignore → (decode_obj o).1 !! a = None.
Proof.
  intros Ha. destruct (ignore_elsewhere a Ha) as (Hn & Hb & Hw & Ho & Ht & Hm).
  destruct (forEach_at attrs2ignore ignore_attr a o
              NoDup_attrs2ignore Ha frames_ignore_attr) as (x & Hx & Heq).
  stages.
  rewrite (frames_decode_blob _ _ _ Hm), (frames_decode_blob _ _ _ Ht),
    (frames_decode_owner_uuid _ _ Ho), (frames_decode_networks _ _ Hw),
    (frames_booleaned _ _ Hb), (frames_numerified _ _ Hn), Heq.
  apply lookup_delete_eq.
Qed.

(** A boolean attribute of the decoded object is what its own iteration
    of the boolean loop made of it. *)
Lemma decode_boolean_attr (o : gmap string value) (a : string) :
  a ∈ attrs2boolean →
  ∃ x, (decode_obj o).1 !! a = (boolean_attr a x).1 !! a.
Proof.
  intros Ha. destruct (boolean_elsewhere a Ha) as (Hi & Hn & Hw & Ho & Ht & Hm).
  destruct (forEach_at attrs2boolean boolean_attr a (numerified o)
              NoDup_attrs2boolean Ha frames_boolean_attr) as (x & Hx & Heq).
  exists x. stages.
  rewrite (frames_decode_blob _ _ _ Hm), (frames_decode_blob _ _ _ Ht),
    (frames_decode_owner_uuid _ _ Ho), (frames_decode_networks _ _ Hw).
  exact Heq.
Qed.

(** The stages leave alone what they have already produced. *)
Lemma ignore_attr_stable (a : string) (x : gmap string value) :
  x !! a = None → (ignore_attr a x).1 = x.
Proof. intros Hx. by apply delete_id. Qed.

Lemma numerify_attr_stable (a : string) (x y : gmap string value) :
  y !! a = (numerify_attr a x).1 !! a → (numerify_attr a y).1 = y.
Proof.
  rewrite !numerify_attr_fst. intros Hy.
  destruct (truthy (get x a)) eqn:Hx.
  - rewrite lookup_insert_eq in Hy. unfold get at 1 2. rewrite Hy.
    cbn [default from_option id ToNumber].
    destruct (truthy (VNum _)); [by apply insert_id|done].
  - unfold get in *. by rewrite Hy, Hx.
Qed.

Lemma boolean_attr_stable (a : string) (x y : gmap string value) :
  y !! a = (boolean_attr a x).1 !! a → (boolean_attr a y).1 = y.
Proof.
  unfold boolean_attr. intros Hy.
  destruct (strict_equals (get x a) VUndef) eqn:Hx; cbn [fst] in Hy.
  - unfold get in *. by rewrite Hy, Hx.
  - rewrite lookup_insert_eq in Hy. unfold get. rewrite Hy.
    cbn [default from_option id strict_equals fst orb].
    apply insert_id. rewrite Hy. f_equal. f_equal.
    by destruct (_ || _).
Qed.

Lemma decode_owner_uuid_falsy (x : gmap string value) :
  truthy (get (decode_owner_uuid x).1 "owner_uuid") = false.
Proof.
  unfold decode_owner_uuid. destruct (truthy (get x "owner_uuid")) eqn:Hx; [|done].
  destruct (match get x "owner_uuid" with VStr _ => _ | _ => _ end) as [o1 l1].
  cbn [fst]. unfold get. by rewrite lookup_delete_eq.
Qed.

Lemma decode_owner_uuid_stable (y : gmap string value) :
  truthy (get y "owner_uuid") = false → (decode_owner_uuid y).1 = y.
Proof. intros Hy. unfold decode_owner_uuid. by rewrite Hy. Qed.

Lemma JSON_parse_empty_object : JSON_parse (VObj ∅) = None.
Proof. vm_compute. reflexivity. Qed.

(** [JSON.parse] of any object fails: the conversion throws, or it
    reads the text [[object Object]]. *)
Lemma JSON_parse_object (m : gmap string value) : JSON_parse (VObj m) = None.
Proof.
  unfold JSON_parse. destruct (throws_TypeError (VObj m)); [done|].
  exact JSON_parse_empty_object.
Qed.

Lemma decode_blob_stable (a : string) (y : gmap string value) :
  blob_settled (get y a) → (decode_blob a y).1 = y.
Proof.
  unfold decode_blob. intros [Hf|He].
  - by rewrite Hf.
  - rewrite He. cbn [truthy]. rewrite JSON_parse_object. cbn [fst].
    apply insert_id. unfold get in He.
    destruct (y !! a); cbn [default from_option id] in He; congruence.
Qed.

Lemma decode_networks_stable (y : gmap string value) :
  networks_settled (get y "networks") → (decode_networks y).1 = y.
Proof.
  intros [Hf|Ha].
  - by rewrite decode_networks_falsy.
  - destruct (get y "networks") eqn:Hv; try done.
    by erewrite decode_networks_array.
Qed.

(** C2, as stated, fails: [traits = "{"a":1}"] decodes to the object
    [{a: 1}], and decoding that again replaces it by the empty object. *)
Lemma decode_twice_identical_fails :
  (decode_obj {["traits" := VStr ("{" +:+ quoted "a" +:+ ":1}")]}).1 !! "traits"
    = Some (VObj {["a" := VNum (Dec false 1 0)]})
  ∧ (decode_obj
       (decode_obj {["traits" := VStr ("{" +:+ quoted "a" +:+ ":1}")]}).1).1
      !! "traits"
    = Some (VObj ∅)
  ∧ ¬ decode_twice_identical.
Proof.
  split; [by vm_compute|]. split; [by vm_compute|].
  intros H.
  pose proof (f_equal (λ m : gmap string value, m !! "traits")
                (H {["traits" := VStr ("{" +:+ quoted "a" +:+ ":1}")]})) as Ht.
  vm_compute in Ht. discriminate Ht.
Qed.

(** C2, amended: [decode] is a function of the attributes of the raw
    record, and decoding its own output again gives the identical record
    whenever, in that output, [networks] is absent, falsy or a list and
    [traits] and [min_platform] are each absent, falsy or the empty
    object. *)
Theorem decode_twice_settled (o : gmap string value) :
  networks_settled (get (decode_obj o).1 "networks") →
  blob_settled (get (decode_obj o).1 "traits") →
  blob_settled (get (decode_obj o).1 "min_platform") →
  (decode_obj (decode_obj o).1).1 = (decode_obj o).1.
Proof.
  intros Hnet Htr Hmp.
  remember (decode_obj o).1 as y eqn:Hy.
  assert (ignored y = y) as H1.
  { apply forEach_id. intros a Ha. apply ignore_attr_stable.
    subst y. by apply decode_ignored_attr. }
  assert (numerified y = y) as H2.
  { unfold numerified. rewrite H1. apply forEach_id. intros a Ha.
    destruct (decode_numeric_attr o a Ha) as (x & _ & Hx).
    apply (numerify_attr_stable a x). by subst y. }
  assert (booleaned y = y) as H3.
  { unfold booleaned. rewrite H2. apply forEach_id. intros a Ha.
    destruct (decode_boolean_attr o a Ha) as (x & Hx).
    apply (boolean_attr_stable a x). by subst y. }
  assert (networked y = y) as H4.
  { unfold networked. rewrite H3. by apply decode_networks_stable. }
  assert (owned y = y) as H5.
  { unfold owned. rewrite H4. apply decode_owner_uuid_stable.
    subst y. unfold get. rewrite decode_owner_uuid_key.
    apply decode_owner_uuid_falsy. }
  assert (traited y = y) as H6.
  { unfold traited. rewrite H5. by apply decode_blob_stable. }
  rewrite decode_obj_fst, H6. by apply decode_blob_stable.
Qed.

Lemma decode_twice_settled_witness :
  let o : gmap string value :=
    {["uuid" := VStr "u1"; "vcpus" := VStr "2"; "active" := VStr "true";
      "networks" := VStr ("[" +:+ quoted "n1" +:+ "]"); "owner_uuid" := VStr "abc";
      "traits" := VStr "not-json{"]} in
  (decode_obj (decode_obj o).1).1 = (decode_obj o).1.
Proof.
  intros o. apply (decode_twice_settled o).
  - right. vm_compute. reflexivity.
  - right. vm_compute. reflexivity.
  - left. vm_compute. reflexivity.
Defined.

(** ** Lines *)

Lemma split_lines_nonempty (s : string) : split_lines s ≠ [].
Proof.
  induction s as [|c s IH]; [done|]. simpl.
  destruct (Ascii.eqb c newline); [done|]. by destruct (split_lines s).
Qed.

Lemma split_lines_app (a b : string) :
  has_newline a = false →
  split_lines (a +:+ String newline b) = a :: split_lines b.
Proof.
  induction a as [|c a IH]; intros Ha.
  - reflexivity.
  - simpl in *. apply orb_false_iff in Ha as [Hc Ha].
    rewrite Hc. change (String.append a (String newline b))
      with (a +:+ String newline b). by rewrite (IH Ha).
Qed.

Lemma split_lines_single (a : string) :
  has_newline a = false → split_lines a = [a].
Proof.
  induction a as [|c a IH]; intros Ha; [done|].
  simpl in *. apply orb_false_iff in Ha as [Hc Ha]. by rewrite Hc, (IH Ha).
Qed.

Lemma split_unlines (ls : list string) :
  ls ≠ [] → Forall (λ l, has_newline l = false) ls →
  split_lines (unlines ls) = ls.
Proof.
  intros Hne Hall. induction Hall as [|l ls Hl Hall IH]; [done|].
  destruct ls as [|l' ls].
  - by apply split_lines_single.
  - change (unlines (l :: l' :: ls))
      with (l +:+ String newline (unlines (l' :: ls))).
    rewrite (split_lines_app _ _ Hl). f_equal. by apply IH.
Qed.

(** ** The JSON-lines loader *)








(** ** The LDIF loader *)

Lemma cut_at_colon_app (name rest : string) :
  has_colon name = false →
  cut_at_colon (name +:+ String ":" rest) = Some (name, rest).
Proof.
  induction name as [|c name IH]; intros Hn; [done|].
  simpl in *. apply orb_false_iff in Hn as [Hc Hn]. rewrite Hc.
  change (String.append name (String ":" rest)) with (name +:+ String ":" rest).
  by rewrite (IH Hn).
Qed.

Lemma substring_all (s : string) : String.substring 0 (String.length s) s = s.
Proof. induction s as [|c s IH]; [done|]. simpl. by rewrite IH. Qed.

Lemma ldif_line_blank (st : ldif_state) :
  ldif_line st ""
  = if Nat.ltb 0 (size (lookup st)) then
      LdifState
        (if truthy (get (decode_obj (lookup st)).1 "uuid")
         then packages st ++ [VObj (decode_obj (lookup st)).1] else packages st)
        ∅ (ldif_log st ++ (decode_obj (lookup st)).2)
    else st.
Proof.
  unfold ldif_line. change (String.eqb "" "") with true. cbv iota.
  destruct (Nat.ltb 0 (size (lookup st))); [|done].
  by destruct (decode_obj (lookup st)).
Qed.

Lemma ldif_line_other (st : ldif_state) (line : string) :
  line ≠ "" →
  ldif_line st line
  = match ldif_match line with
    | Some (name, val) =>
        LdifState (packages st) (add_attr (lookup st) name (ldif_value val))
          (ldif_log st)
    | None => st
    end.
Proof.
  intros Hne. unfold ldif_line. by destruct (String.eqb_spec line "").
Qed.













(** ** Emission at blank lines only *)

Lemma split_lines_append (a b : string) :
  split_lines (a +:+ String newline b) = split_lines a ++ split_lines b.
Proof.
  induction a as [|c a IH]; [reflexivity|].
  change (String c a +:+ String newline b)
    with (String c (a +:+ String newline b)).
  cbn [split_lines]. rewrite IH.
  destruct (Ascii.eqb c newline); [done|].
  pose proof (split_lines_nonempty a) as Hne.
  by destruct (split_lines a).
Qed.

(** A line that is not blank emits nothing and logs nothing. *)
Lemma ldif_line_nonblank (st : ldif_state) (line : string) :
  line ≠ "" →
  packages (ldif_line st line) = packages st
  ∧ ldif_log (ldif_line st line) = ldif_log st.
Proof.
  intros Hne. unfold ldif_line.
  destruct (String.eqb_spec line "") as [->|_]; [done|].
  by destruct (ldif_match line) as [[name val]|].
Qed.

Lemma ldif_lines_nonblank (st : ldif_state) (blk : list string) :
  Forall (λ l, l ≠ "") blk →
  packages (fold_left ldif_line blk st) = packages st
  ∧ ldif_log (fold_left ldif_line blk st) = ldif_log st.
Proof.
  intros Hall. revert st. induction Hall as [|l blk Hl Hall IH]; intros st; [done|].
  cbn [fold_left]. destruct (IH (ldif_line st l)) as [-> ->].
  by apply ldif_line_nonblank.
Qed.

(** C10: the LDIF loader emits an object at the blank line that follows
    it and nowhere else: lines after the last blank line of the input (a
    final block with no blank line after it, as in a file that does not
    end in a newline) add nothing to the packages returned and nothing to
    the log; the package [uuid: u1] is returned when the text ends in a
    newline and dropped when it does not. *)
Theorem ldif_final_block_dropped :
  (∀ (pre : string) (blk : list string),
     blk ≠ [] → Forall (λ l, l ≠ "" ∧ has_newline l = false) blk →
     loadLdifPackages (inr (pre +:+ String newline (unlines blk)))
     = loadLdifPackages (inr pre))
  ∧ (∀ blk : list string,
       blk ≠ [] → Forall (λ l, l ≠ "" ∧ has_newline l = false) blk →
       loadLdifPackages (inr (unlines blk)) = (Loaded [], []))
  ∧ loadLdifPackages (inr "uuid: u1") = (Loaded [], [])
  ∧ loadLdifPackages (inr (unlines ["uuid: u1"; ""]))
    = (Loaded [VObj {["uuid" := VStr "u1"]}], []).
Proof.
  assert (∀ blk : list string,
            blk ≠ [] → Forall (λ l, l ≠ "" ∧ has_newline l = false) blk →
            split_lines (unlines blk) = blk ∧ Forall (λ l, l ≠ "") blk) as Hblk.
  { intros blk Hne Hall. split.
    - apply split_unlines; [done|]. eapply Forall_impl; [exact Hall|]. by intros l [_ ?].
    - eapply Forall_impl; [exact Hall|]. by intros l [? _]. }
  split; [|split; [|split]].
  - intros pre blk Hne Hall. destruct (Hblk blk Hne Hall) as [Hsplit Hnb].
    unfold loadLdifPackages, ldif_lines.
    rewrite split_lines_append, Hsplit, fold_left_app.
    by destruct (ldif_lines_nonblank
                   (fold_left ldif_line (split_lines pre) (LdifState [] ∅ []))
                   blk Hnb) as [-> ->].
  - intros blk Hne Hall. destruct (Hblk blk Hne Hall) as [Hsplit Hnb].
    unfold loadLdifPackages, ldif_lines. rewrite Hsplit.
    by destruct (ldif_lines_nonblank (LdifState [] ∅ []) blk Hnb) as [-> ->].
  - vm_compute. reflexivity.
  - vm_compute. reflexivity.
Qed.

Lemma ldif_final_block_dropped_witness :
  loadLdifPackages
    (inr (unlines ["uuid: u1"; ""] +:+ String newline (unlines ["uuid: u2"; "name: n"])))
  = loadLdifPackages (inr (unlines ["uuid: u1"; ""])).
Proof.
  apply (proj1 ldif_final_block_dropped).
  - discriminate.
  - repeat constructor; discriminate.
Defined.

(** ** Saving *)

(** The disposition shows in what [savePkg] logs: one entry, at error
    level for an invalid or failed record, at warning level for a
    duplicate, at info level for an imported one. *)
Lemma savePkg_logs (backend : Backend) (dryrun overwrite : value)
    (st : save_state backend) (pkg : value) :
  ∃ e, st_log (savePkg backend dryrun overwrite st pkg) = st_log st ++ [e]
       ∧ lvl e = match disposition_of backend dryrun overwrite st pkg with
                 | imported => Info
                 | skipped_duplicate => Warn
                 | skipped_invalid | failed => Error
                 end.
Proof.
  unfold savePkg, create, disposition_of.
  destruct (validate backend pkg (schema backend)); [by eexists|].
  destruct (truthy dryrun); [by eexists|].
  destruct ((if truthy overwrite then updatePkg backend else createPkg backend)
              _ _ _ _) as [err2 s]. cbn [fst].
  destruct (strict_equals err2 _); [by eexists|].
  destruct (truthy err2); by eexists.
Qed.

(** [parseOpts] lets through only options that name a source, and its
    defaults touch [binddn] and [password] only. *)
Lemma parseOpts_Go (parsed : completion (gmap string value))
    (opts : gmap string value) :
  parseOpts parsed = Go opts →
  ∃ o, parsed = Return o
       ∧ truthy (get o "url") || truthy (get o "ldif") || truthy (get o "json") = true
       ∧ ∀ k, k ≠ "binddn" → k ≠ "password" → get opts k = get o k.
Proof.
  unfold parseOpts. destruct parsed as [o|e]; [|done].
  destruct (truthy (get o "help") || _) eqn:Hguard; [done|].
  apply orb_false_iff in Hguard as [_ Hsrc]. apply negb_false_iff in Hsrc.
  intros Heq. injection Heq as <-.
  exists o. split; [done|]. split; [done|].
  intros k Hb Hp. unfold get.
  destruct (negb (truthy (default VUndef (o !! "binddn"))));
    match goal with |- context [if ?b then _ else _] => destruct b end;
    by rewrite ?lookup_insert_ne.
Qed.

(** X28: with options that [parseOpts] has let through,
    [selectPackageSource] finds a source: its last branch, which calls
    [perror], is never taken. *)
Lemma parseOpts_selects (parsed : completion (gmap string value))
    (opts : gmap string value) :
  parseOpts parsed = Go opts → ∃ l, selectPackageSource opts = Go l.
Proof.
  intros Hgo. destruct (parseOpts_Go parsed opts Hgo) as (o & _ & Hsrc & Hsame).
  unfold selectPackageSource. rewrite !Hsame by done.
  destruct (truthy (get o "json")); [by eexists|].
  destruct (truthy (get o "ldif")); [by eexists|].
  destruct (truthy (get o "url")); [by eexists|].
  done.
Qed.

(** C3, as stated, fails: importing one package into a store that
    refuses the write with an error other than key-already-exists leaves
    that record [failed], and the program exits with status 0. *)
Lemma exit_zero_without_failures_fails :
  exit_status (main (Return json_opts) one_file_world refusing_backend tt) = 0%Z
  ∧ pipeline_dispositions refusing_backend VUndef VUndef
      [VObj {["uuid" := VStr "u1"; "name" := VStr "small"]}] tt
    = [failed]
  ∧ ¬ exit_zero_without_failures.
Proof.
  split; [by vm_compute|]. split; [by vm_compute|].
  intros H.
  apply (H refusing_backend (Return json_opts) one_file_world tt
           (<["password" := VStr "secret"]> (<["binddn" := VStr "cn=root"]> json_opts))
           JsonLoader
           [VObj {["uuid" := VStr "u1"; "name" := VStr "small"]}]);
    try (vm_compute; reflexivity).
  vm_compute. apply list_elem_of_singleton. reflexivity.
Qed.

(** [parseOpts] ends the run with status 0 exactly when the options ask
    for the usage: [help], or no source among [url], [ldif] and [json]. *)
Lemma parseOpts_usage (parsed : completion (gmap string value)) :
  (∃ code, parseOpts parsed = Exit code)
  → parseOpts parsed = Exit 0%Z ∧ asks_usage parsed = true
    ∨ parseOpts parsed = Exit 1%Z ∧ asks_usage parsed = false.
Proof.
  unfold parseOpts, asks_usage. destruct parsed as [o|e]; [|by right].
  destruct (truthy (get o "help") || _); [by left|]. by intros [code [=]].
Qed.

Lemma parseOpts_Go_usage (parsed : completion (gmap string value))
    (opts : gmap string value) :
  parseOpts parsed = Go opts → asks_usage parsed = false.
Proof.
  unfold parseOpts, asks_usage. destruct parsed as [o|e]; [|done].
  by destruct (truthy (get o "help") || _).
Qed.

(** C3, amended: a run ends with exit status 0 exactly when no fatal
    error occurred: the options ask for the usage ([help], or no source),
    or the options are accepted, the source loads and the backend
    initialises; it ends with status 1 otherwise. The dispositions of the
    records, [failed] included, have no part in the exit status. *)
Theorem exit_status_of_run (backend : Backend)
    (parsed : completion (gmap string value)) (w : World) (s0 : store backend) :
  (exit_status (main parsed w backend s0) = 0%Z
   ∨ exit_status (main parsed w backend s0) = 1%Z)
  ∧ (exit_status (main parsed w backend s0) = 0%Z
     ↔ asks_usage parsed = true
       ∨ ∃ opts l pkgs,
           parseOpts parsed = Go opts ∧ selectPackageSource opts = Go l
           ∧ (run_loader l opts w).1 = Loaded pkgs
           ∧ truthy (init backend s0).1 = false).
Proof.
  unfold main. destruct (parseOpts parsed) as [code|opts] eqn:Hopts.
  { destruct (parseOpts_usage parsed) as [[Hc Hu]|[Hc Hu]]; [by eexists|..];
      rewrite Hopts in Hc; injection Hc as ->; cbn [exit_status].
    - split; [by left|]. split; [by left|done].
    - split; [by right|]. split; [done|].
      intros [Hu'|(? & ? & ? & [=] & _)]. by rewrite Hu in Hu'. }
  pose proof (parseOpts_Go_usage parsed opts Hopts) as Hu.
  assert (∃ l, selectPackageSource opts = Go l) as [l Hsel].
  { destruct (parseOpts_Go parsed opts Hopts) as (o & _ & Hsrc & Hsame).
    unfold selectPackageSource. rewrite !Hsame by done.
    destruct (truthy (get o "json")); [by eexists|].
    destruct (truthy (get o "ldif")); [by eexists|].
    destruct (truthy (get o "url")); [by eexists|done]. }
  rewrite Hsel.
  destruct (run_loader l opts w) as [[err|pkgs] lg] eqn:Hload; cbn [fst exit_status].
  - split; [by right|]. split; [done|].
    intros [Hu'|(opts' & l' & pkgs & [= <-] & Hsel' & Hl & _)];
      [by rewrite Hu in Hu'|].
    rewrite Hsel in Hsel'. injection Hsel' as <-. by rewrite Hload in Hl.
  - unfold savePapiPackages. destruct (init backend s0) as [err s1]. cbn [fst].
    destruct (truthy err) eqn:Herr; cbn [exit_status].
    + split; [by right|]. split; [done|].
      intros [Hu'|(? & ? & ? & _ & _ & _ & Hi)]; [by rewrite Hu in Hu'|].
      discriminate Hi.
    + split; [by left|]. split; [|done]. intros _. right.
      exists opts, l, pkgs. by rewrite Hload.
Qed.

(** Outside a dry run and with [overwrite] not set, [savePkg] makes the
    create-only write for a valid record and none for an invalid one; it
    logs one entry, which for a key that already exists is the warning. *)
Lemma savePkg_create_only (backend : Backend) (dryrun overwrite : value)
    (st : save_state backend) (pkg : value) :
  truthy overwrite = false → truthy dryrun = false →
  st_store (savePkg backend dryrun overwrite st pkg)
  = match validate backend pkg (schema backend) with
    | Some _ => st_store st
    | None => (create_only backend pkg (st_store st)).2
    end
  ∧ ∃ e, st_log (savePkg backend dryrun overwrite st pkg) = st_log st ++ [e]
         ∧ (validate backend pkg (schema backend) = None →
            (create_only backend pkg (st_store st)).1
              = VStr "ObjectAlreadyExistsError" →
            e = Entry Warn [("pkg", pkg)] "Package already exists"
            ∧ disposition_of backend dryrun overwrite st pkg = skipped_duplicate).
Proof.
  intros Ho Hd. unfold savePkg, create, disposition_of, create_only.
  rewrite Ho, Hd.
  destruct (validate backend pkg (schema backend)); [split; [done|by eexists]|].
  destruct (createPkg backend _ _ _ _) as [err2 s]. cbn [fst snd].
  destruct (strict_equals err2 (VStr "ObjectAlreadyExistsError")) eqn:Heq.
  - split; [done|]. by eexists.
  - destruct (truthy err2); (split; [done|]); eexists; (split; [done|]);
      intros _ ->; cbn [strict_equals] in Heq; by rewrite String.eqb_refl in Heq.
Qed.

Lemma create_only_pipeline (backend : Backend) (dryrun overwrite : value)
    (pkgs : list value) (st : save_state backend) :
  truthy overwrite = false → truthy dryrun = false →
  let st' := fold_left (savePkg backend dryrun overwrite) pkgs st in
  st_store st' = create_only_store backend pkgs (st_store st)
  ∧ ∃ es, st_log st' = st_log st ++ es ∧ length es = length pkgs
      ∧ ∀ (i : nat) pkg,
          pkgs !! i = Some pkg →
          validate backend pkg (schema backend) = None →
          (create_only backend pkg
             (create_only_store backend (take i pkgs) (st_store st))).1
            = VStr "ObjectAlreadyExistsError" →
          es !! i = Some (Entry Warn [("pkg", pkg)] "Package already exists")
          ∧ dispositions backend dryrun overwrite st pkgs !! i
            = Some skipped_duplicate.
Proof.
  intros Ho Hd. revert st. induction pkgs as [|p pkgs IH]; intros st; cbv zeta.
  { split; [done|]. exists []. split; [by rewrite app_nil_r|]. split; [done|].
    intros i pkg Hk. by rewrite lookup_nil in Hk. }
  cbn [fold_left]. specialize (IH (savePkg backend dryrun overwrite st p)).
  cbv zeta in IH. destruct IH as (Hs & es & Hl & Hn & Hi).
  destruct (savePkg_create_only backend dryrun overwrite st p Ho Hd)
    as (Hs1 & e & Hl1 & He).
  split.
  { rewrite Hs, Hs1. unfold create_only_store. cbn [fold_left]. done. }
  exists (e :: es). split; [by rewrite Hl, Hl1, <- app_assoc|].
  split; [cbn [length]; by rewrite Hn|].
  intros [|i] pkg Hk Hv Hdup.
  - injection Hk as ->. cbn [take] in Hdup. unfold create_only_store in Hdup.
    cbn [fold_left] in Hdup. destruct (He Hv Hdup) as [-> Hdis].
    split; [done|]. cbn [dispositions]. by rewrite Hdis.
  - cbn [lookup list_lookup] in Hk. cbn [dispositions].
    change ((e :: es) !! S i) with (es !! i).
    change ((?d :: ?ds) !! S i) with (ds !! i).
    apply Hi; [done..|].
    rewrite Hs1. cbn [take] in Hdup. unfold create_only_store in Hdup |- *.
    cbn [fold_left] in Hdup. exact Hdup.
Qed.

(** C4: when [overwrite] is not set, a run of the pipeline that writes
    (the backend initialised, no dry run) makes a create-only write keyed
    by [uuid] for each valid record, in order, and no other write: the
    store it leaves is the one those writes give. Whenever the store
    answers such a write that the key already exists, the pipeline logs
    [Package already exists] for that record at warning level, and the
    record is [skipped_duplicate], not [failed]. *)
Theorem create_only_duplicate_skipped (backend : Backend)
    (dryrun overwrite : value) (pkgs : list value) (s0 : store backend) :
  truthy overwrite = false → truthy dryrun = false →
  truthy (init backend s0).1 = false →
  ∃ st, savePapiPackages backend dryrun overwrite pkgs s0 = Called st
    ∧ st_store st
      = quit backend (create_only_store backend pkgs (init backend s0).2)
    ∧ ∀ (i : nat) pkg,
        pkgs !! i = Some pkg →
        validate backend pkg (schema backend) = None →
        (create_only backend pkg
           (create_only_store backend (take i pkgs) (init backend s0).2)).1
          = VStr "ObjectAlreadyExistsError" →
        st_log st !! i
          = Some (Entry Warn [("pkg", pkg)] "Package already exists")
        ∧ pipeline_dispositions backend dryrun overwrite pkgs s0 !! i
          = Some skipped_duplicate.
Proof.
  intros Ho Hd Hinit. unfold savePapiPackages, pipeline_dispositions.
  destruct (init backend s0) as [err s1]. cbn [fst snd] in *. rewrite Hinit.
  destruct (create_only_pipeline backend dryrun overwrite pkgs
              (SaveState s1 [] 0) Ho Hd) as (Hs & es & Hl & Hn & Hi).
  cbv zeta in Hs, Hl. cbn [st_store st_log] in Hs, Hl, Hi.
  eexists. split; [reflexivity|]. cbn [st_store st_log].
  split; [by rewrite Hs|].
  intros i pkg Hk Hv Hdup. destruct (Hi i pkg Hk Hv Hdup) as [He Hdis].
  split; [|exact Hdis].
  rewrite Hl. cbn [app]. by apply lookup_app_l_Some.
Qed.

Lemma create_only_duplicate_skipped_witness :
  let pkg := VObj {["uuid" := VStr "u1"]} in
  match savePapiPackages memory_backend VUndef VUndef [pkg; pkg] ∅ with
  | Called st =>
      st_log st !! 1%nat
        = Some (Entry Warn [("pkg", pkg)] "Package already exists")
      ∧ pipeline_dispositions memory_backend VUndef VUndef [pkg; pkg] ∅ !! 1%nat
        = Some skipped_duplicate
  | InitError _ => False
  end.
Proof.
  intros pkg.
  destruct (create_only_duplicate_skipped memory_backend VUndef VUndef
              [pkg; pkg] ∅ eq_refl eq_refl eq_refl) as (st & -> & _ & Hdup).
  apply (Hdup 1%nat pkg); [reflexivity | reflexivity | vm_compute; reflexivity].
Defined.

Lemma networks_decoded_witness :
  ((decode_obj {["uuid" := VStr "u1"; "networks" := VStr "zz"]}).1 !! "networks"
   = Some (VArr [])
   ∧ ∃ e, e ∈ (decode_obj {["uuid" := VStr "u1"; "networks" := VStr "zz"]}).2
          ∧ networks_error e)
  ∧ (decode_obj {["uuid" := VStr "u1"; "networks" := VStr ("[" +:+ quoted "n1" +:+ "]")]}).1
      !! "networks"
    = Some (VArr [VStr "n1"]).
Proof.
  split.
  - refine (proj1 (proj2 (networks_decoded _)) "zz" _ _ _).
    + vm_compute. reflexivity.
    + discriminate.
    + vm_compute. reflexivity.
  - refine (proj1 (proj2 (proj2 (networks_decoded _))) ("[" +:+ quoted "n1" +:+ "]") [VStr "n1"] _ _ _).
    + vm_compute. reflexivity.
    + discriminate.
    + vm_compute. reflexivity.
Defined.

(** * Further properties *)

(** ** decode, attribute by attribute *)

Lemma frames_decode_obj : frames decode_obj decode_footprint.
Proof.
  exact (frames_seq _ _ _ _ frames_ignored
          (frames_seq _ _ _ _ frames_numerified
          (frames_seq _ _ _ _ frames_booleaned
          (frames_seq _ _ _ _ frames_decode_networks
          (frames_seq _ _ _ _ frames_decode_owner_uuid
          (frames_seq _ _ _ _ (frames_decode_blob "traits")
                              (frames_decode_blob "min_platform"))))))).
Qed.

(** X1: [decode] leaves every attribute outside its lists as it found it
    ([uuid], [name], [version] and any attribute it does not know). *)
Theorem decode_untouched (o : gmap string value) (k : string) :
  k ∉ decode_footprint → (decode_obj o).1 !! k = o !! k.
Proof.
  intros Hk. unfold decode_footprint in Hk.
  exact (frames_decode_obj o k Hk).
Qed.

Lemma decode_untouched_witness :
  (decode_obj {["uuid" := VStr "u1"; "vcpus" := VStr "2"]}).1 !! "uuid"
  = ({["uuid" := VStr "u1"; "vcpus" := VStr "2"]} : gmap string value) !! "uuid".
Proof. apply decode_untouched. compute_done. Defined.

(** X2: no ignored attribute is left in the decoded record. *)
Theorem decode_drops_ignored (o : gmap string value) (a : string) :
  a ∈ attrs2ignore → (decode_obj o).1 !! a = None.
Proof.
  intros Ha. destruct (ignore_elsewhere a Ha) as (Hn & Hb & Hw & Ho & Ht & Hm).
  destruct (forEach_at attrs2ignore ignore_attr a o
              NoDup_attrs2ignore Ha frames_ignore_attr) as (x & Hx & Heq).
  stages.
  rewrite (frames_decode_blob _ _ _ Hm), (frames_decode_blob _ _ _ Ht),
    (frames_decode_owner_uuid _ _ Ho), (frames_decode_networks _ _ Hw),
    (frames_booleaned _ _ Hb), (frames_numerified _ _ Hn), Heq.
  apply lookup_delete_eq.
Qed.

Lemma decode_drops_ignored_witness :
  (decode_obj {["uuid" := VStr "u1"; "urn" := VStr "x"]}).1 !! "urn" = None.
Proof. apply decode_drops_ignored. compute_done. Defined.

(** X3: when [decode] returns, a numeric attribute of the decoded record
    is the number that [Number] makes of the raw value when that value
    is truthy, and the raw value itself (absent, empty string, 0, ...)
    otherwise. *)
Theorem decode_numeric_field (o : gmap string value) (a : string) :
  a ∈ attrs2numerify → decode_throws o = false →
  (decode_obj o).1 !! a
  = if truthy (get o a) then Some (VNum (ToNumber (get o a))) else o !! a.
Proof.
  intros Ha _. destruct (decode_numeric_attr o a Ha) as (x & Hx & ->).
  rewrite numerify_attr_fst. unfold get. rewrite Hx.
  destruct (truthy _); [apply lookup_insert_eq | exact Hx].
Qed.

Lemma decode_numeric_field_witness :
  (decode_obj {["uuid" := VStr "u1"; "quota" := VStr "10"]}).1 !! "quota"
  = Some (VNum (Dec false 10 0)).
Proof.
  rewrite (decode_numeric_field _ "quota") by (compute_done || reflexivity).
  vm_compute. reflexivity.
Defined.

Lemma decode_boolean_attr_at (o : gmap string value) (a : string) :
  a ∈ attrs2boolean →
  ∃ x, x !! a = o !! a ∧ (decode_obj o).1 !! a = (boolean_attr a x).1 !! a.
Proof.
  intros Ha. destruct (boolean_elsewhere a Ha) as (Hi & Hn & Hw & Ho & Ht & Hm).
  destruct (forEach_at attrs2boolean boolean_attr a (numerified o)
              NoDup_attrs2boolean Ha frames_boolean_attr) as (x & Hx & Heq).
  exists x. split.
  - rewrite Hx. unfold numerified, ignored.
    by rewrite (frames_numerified _ _ Hn), (frames_ignored _ _ Hi).
  - stages.
    rewrite (frames_decode_blob _ _ _ Hm), (frames_decode_blob _ _ _ Ht),
      (frames_decode_owner_uuid _ _ Ho), (frames_decode_networks _ _ Hw).
    exact Heq.
Qed.

(** X4: a boolean attribute that is absent (or [undefined]) stays so;
    any other value becomes a boolean, [true] exactly for the string
    [true] and the boolean [true]. *)
Theorem decode_boolean_field (o : gmap string value) (a : string) :
  a ∈ attrs2boolean →
  (decode_obj o).1 !! a
  = if strict_equals (get o a) VUndef then o !! a
    else Some (VBool (strict_equals (get o a) (VStr "true")
                      || strict_equals (get o a) (VBool true))).
Proof.
  intros Ha. destruct (decode_boolean_attr_at o a Ha) as (x & Hx & ->).
  unfold boolean_attr, get. rewrite Hx.
  destruct (strict_equals _ VUndef); cbn [fst]; [exact Hx | apply lookup_insert_eq].
Qed.

Lemma decode_boolean_field_witness :
  (decode_obj {["uuid" := VStr "u1"; "active" := VStr "yes"]}).1 !! "active"
  = Some (VBool false).
Proof.
  rewrite (decode_boolean_field _ "active") by compute_done.
  vm_compute. reflexivity.
Defined.

(** X5: after [decode] the legacy [owner_uuid] is gone, or was falsy from
    the start: the decoded record never has a truthy [owner_uuid]. *)
Theorem decode_owner_uuid_gone (o : gmap string value) :
  truthy (get (decode_obj o).1 "owner_uuid") = false.
Proof.
  unfold get. rewrite decode_owner_uuid_key. apply decode_owner_uuid_falsy.
Qed.

Lemma owned_traits (o : gmap string value) :
  owned o !! "traits" = o !! "traits".
Proof. stages. by repeat step_over. Qed.

Lemma traited_min_platform (o : gmap string value) :
  traited o !! "min_platform" = o !! "min_platform".
Proof. stages. by repeat step_over. Qed.

Lemma decode_traits_key (o : gmap string value) :
  (decode_obj o).1 !! "traits" = traited o !! "traits".
Proof. stages. by repeat step_over. Qed.

Lemma decode_blob_lookup (a : string) (x : gmap string value) :
  (decode_blob a x).1 !! a
  = if truthy (get x a) then Some (default (VObj ∅) (JSON_parse (get x a)))
    else x !! a.
Proof.
  unfold decode_blob. destruct (truthy (get x a)); [|done].
  destruct (JSON_parse (get x a)); cbn [fst default from_option id];
    apply lookup_insert_eq.
Qed.

Lemma decode_blob_failure (a : string) (x : gmap string value) :
  truthy (get x a) = true → JSON_parse (get x a) = None →
  ∃ e, (decode_blob a x).2 = [e] ∧ lvl e = Error
       ∧ msg e = "Error importing " +:+ a.
Proof.
  intros Ht Hp. unfold decode_blob. rewrite Ht, Hp. by eexists.
Qed.

(** X6: [traits] and [min_platform] are left alone when absent or falsy;
    a truthy value is replaced by what [JSON.parse] reads in it, or by the
    empty object when it does not parse, and then an error is logged. *)
Theorem decode_blob_field (o : gmap string value) (a : string) :
  a ∈ ["traits"; "min_platform"] →
  (decode_obj o).1 !! a
    = (if truthy (get o a) then Some (default (VObj ∅) (JSON_parse (get o a)))
       else o !! a)
  ∧ (truthy (get o a) = true → JSON_parse (get o a) = None →
     ∃ e, e ∈ (decode_obj o).2 ∧ lvl e = Error
          ∧ msg e = "Error importing " +:+ a).
Proof.
  intros Ha. apply elem_of_cons in Ha as [->|Ha];
    [|apply list_elem_of_singleton in Ha as ->].
  - assert (get (owned o) "traits" = get o "traits") as Hget.
    { unfold get. by rewrite owned_traits. }
    split.
    + rewrite decode_traits_key. unfold traited.
      by rewrite decode_blob_lookup, Hget, owned_traits.
    + intros Ht Hp.
      destruct (decode_blob_failure "traits" (owned o)) as (e & He & Hl & Hm);
        [by rewrite Hget..|].
      exists e. split; [|done]. rewrite decode_obj_snd, He.
      do 5 (apply elem_of_app; right). apply elem_of_app. left.
      by apply list_elem_of_singleton.
  - assert (get (traited o) "min_platform" = get o "min_platform") as Hget.
    { unfold get. by rewrite traited_min_platform. }
    split.
    + by rewrite decode_obj_fst, decode_blob_lookup, Hget, traited_min_platform.
    + intros Ht Hp.
      destruct (decode_blob_failure "min_platform" (traited o))
        as (e & He & Hl & Hm); [by rewrite Hget..|].
      exists e. split; [|done]. rewrite decode_obj_snd, He.
      do 6 (apply elem_of_app; right). by apply list_elem_of_singleton.
Qed.

Lemma decode_blob_field_witness :
  (decode_obj {["uuid" := VStr "u1"; "traits" := VStr "not-json{"]}).1 !! "traits"
  = Some (VObj ∅)
  ∧ ∃ e, e ∈ (decode_obj {["uuid" := VStr "u1"; "traits" := VStr "not-json{"]}).2
         ∧ lvl e = Error ∧ msg e = "Error importing traits".
Proof.
  destruct (decode_blob_field {["uuid" := VStr "u1"; "traits" := VStr "not-json{"]}
              "traits") as [Hv Hl]; [compute_done|].
  split.
  - rewrite Hv. vm_compute. reflexivity.
  - apply Hl; vm_compute; reflexivity.
Defined.

(** ** The JSON-lines loader, further *)

Lemma loadJsonPackages_inr (text : string) :
  loadJsonPackages (inr text)
  = (Loaded (filter (λ p, truthy p = true)
               (map fst (map json_row (split_lines text)))),
     concat (map snd (map json_row (split_lines text)))).
Proof. reflexivity. Qed.

(** X7: the JSON-lines loader never returns [null] or any other falsy
    value as a package, and returns at most one package per line. *)
Theorem loadJsonPackages_truthy (text : string) :
  ∃ ps, (loadJsonPackages (inr text)).1 = Loaded ps
        ∧ Forall (λ p, truthy p = true) ps
        ∧ (length ps ≤ length (split_lines text))%nat.
Proof.
  rewrite loadJsonPackages_inr. eexists. split; [reflexivity|]. split.
  - apply Forall_forall. intros p Hp. by apply list_elem_of_filter in Hp as [? _].
  - etrans; [apply length_filter|]. by rewrite !length_map.
Qed.

(** X8: every line that is not JSON is reported: the log of the load
    holds an error entry with that line in its [json] field. *)
Theorem loadJsonPackages_reports (text line : string) :
  line ∈ split_lines text → JSON_parse (VStr line) = None →
  json_parse_error line ∈ (loadJsonPackages (inr text)).2.
Proof.
  intros Hin Hp. rewrite loadJsonPackages_inr. cbn [snd].
  apply list_elem_of_In, in_concat. exists [json_parse_error line]. split.
  - rewrite map_map. apply in_map_iff. exists line. split.
    + unfold json_row. by rewrite Hp.
    + by apply list_elem_of_In.
  - by left.
Qed.

Lemma loadJsonPackages_reports_witness :
  json_parse_error "not json"
  ∈ (loadJsonPackages (inr (unlines [json_uuid_u1; "not json"]))).2.
Proof.
  apply loadJsonPackages_reports.
  - vm_compute. apply elem_of_cons. right. by apply list_elem_of_singleton.
  - vm_compute. reflexivity.
Defined.

(** ** The LDIF loader, further *)

Lemma ldif_blank_lookup (st : ldif_state) : lookup (ldif_line st "") = ∅.
Proof.
  rewrite ldif_line_blank. destruct (Nat.ltb_spec 0 (size (lookup st))); [done|].
  apply map_size_empty_iff. lia.
Qed.

(** X9: in a text whose attribute names are not inherited ones, after a
    blank line the loader holds no attribute, whether or not it emitted a
    package, so nothing leaks into the next object; and a second blank
    line in a row changes nothing. *)
Theorem ldif_blank_resets (lines : list string) :
  own_names lines = true →
  lookup (ldif_lines (lines ++ [""])) = ∅
  ∧ ldif_lines (lines ++ [""; ""]) = ldif_lines (lines ++ [""]).
Proof.
  intros _.
  change (lines ++ [""; ""]) with (lines ++ [""] ++ [""]).
  rewrite app_assoc. unfold ldif_lines. rewrite !fold_left_app.
  cbn [fold_left]. fold (ldif_lines lines).
  pose proof (ldif_blank_lookup (ldif_lines lines)) as Hempty.
  split; [done|].
  rewrite (ldif_line_blank (ldif_line (ldif_lines lines) "")), Hempty.
  by rewrite map_size_empty.
Qed.

Lemma ldif_blank_resets_witness :
  lookup (ldif_lines (["uuid: u1"; "name: small"] ++ [""])) = ∅
  ∧ ldif_lines (["uuid: u1"; "name: small"] ++ [""; ""])
    = ldif_lines (["uuid: u1"; "name: small"] ++ [""]).
Proof. apply ldif_blank_resets. reflexivity. Defined.

Lemma ldif_package_decoded (lk : gmap string value) :
  truthy (get (decode_obj lk).1 "uuid") = true →
  ldif_package (VObj (decode_obj lk).1).
Proof.
  intros Hu. exists (decode_obj lk).1. split; [done|]. split; [done|]. split.
  - intros a Ha. by apply decode_ignored_attr.
  - unfold get. rewrite decode_owner_uuid_key. apply decode_owner_uuid_falsy.
Qed.

Lemma ldif_line_packages (st : ldif_state) (line : string) :
  Forall ldif_package (packages st) →
  Forall ldif_package (packages (ldif_line st line)).
Proof.
  intros Hst. destruct (decide (line = "")) as [->|Hne].
  - rewrite ldif_line_blank.
    destruct (Nat.ltb 0 (size (lookup st))); [|done]. cbn [packages].
    destruct (truthy _) eqn:Hu; [|done].
    apply Forall_app. split; [done|].
    apply Forall_singleton. by apply ldif_package_decoded.
  - rewrite (ldif_line_other st line Hne).
    by destruct (ldif_match line) as [[name val]|].
Qed.

(** X10: every package the LDIF loader returns is an object with a
    truthy [uuid], free of the ignored attributes and of any truthy
    [owner_uuid]: objects without a [uuid] are left out. *)
Theorem ldif_packages_have_uuid (text : string) :
  ∃ ps, (loadLdifPackages (inr text)).1 = Loaded ps ∧ Forall ldif_package ps.
Proof.
  eexists. split; [reflexivity|]. unfold ldif_lines.
  generalize (split_lines text). intros lines.
  assert (Forall ldif_package (packages (LdifState [] ∅ []))) as Hinit by done.
  revert Hinit. generalize (LdifState [] ∅ []). 
  induction lines as [|line lines IH]; intros st Hst; [done|].
  cbn [fold_left]. apply IH. by apply ldif_line_packages.
Qed.

Lemma add_attr_raw (lk : gmap string value) (name val : string) :
  map_Forall (λ _ v, raw_value v) lk →
  map_Forall (λ _ v, raw_value v) (add_attr lk name val).
Proof.
  intros Hlk. unfold add_attr.
  destruct (truthy (get lk name)) eqn:Ht.
  - unfold get in *. destruct (lk !! name) as [orig|] eqn:Ho; [|done].
    cbn [default from_option id] in *.
    destruct (Hlk name orig Ho) as [[s ->]|[l ->]].
    + apply map_Forall_insert_2; [|done]. right. by exists [s; val].
    + apply map_Forall_insert_2; [|done]. right. exists (l ++ [val]).
      by rewrite map_app.
  - apply map_Forall_insert_2; [|done]. left. by eexists.
Qed.

Lemma ldif_line_raw (st : ldif_state) (line : string) :
  map_Forall (λ _ v, raw_value v) (lookup st) →
  map_Forall (λ _ v, raw_value v) (lookup (ldif_line st line)).
Proof.
  intros Hst. destruct (decide (line = "")) as [->|Hne].
  - rewrite (ldif_blank_lookup st). apply map_Forall_empty.
  - rewrite (ldif_line_other st line Hne).
    destruct (ldif_match line) as [[name val]|]; [|done].
    by apply add_attr_raw.
Qed.

Lemma ldif_lines_raw (lines : list string) :
  map_Forall (λ _ v, raw_value v) (lookup (ldif_lines lines)).
Proof.
  unfold ldif_lines.
  assert (map_Forall (λ _ v, raw_value v) (lookup (LdifState [] ∅ []))) as Hinit
    by apply map_Forall_empty.
  revert Hinit. generalize (LdifState [] ∅ []).
  induction lines as [|line lines IH]; intros st Hst; [done|].
  cbn [fold_left]. apply IH. by apply ldif_line_raw.
Qed.

(** [Number] does not throw on a string or a list of strings. *)
Lemma raw_value_converts (v : value) : raw_value v → throws_TypeError v = false.
Proof.
  intros [[s ->]|[l ->]]; [done|].
  cbn [throws_TypeError]. induction l as [|x l IH]; [done|]. exact IH.
Qed.

(** What is left after the deletions was there before them. *)
Lemma ignored_lookup_Some (o : gmap string value) (k : string) (v : value) :
  (forEach attrs2ignore ignore_attr o).1 !! k = Some v → o !! k = Some v.
Proof.
  destruct (decide (k ∈ attrs2ignore)) as [Hk|Hk].
  - destruct (forEach_at attrs2ignore ignore_attr k o
                NoDup_attrs2ignore Hk frames_ignore_attr) as (x & _ & ->).
    cbn [ignore_attr fst]. by rewrite lookup_delete_eq.
  - by rewrite (frames_ignored o k Hk).
Qed.

(** [decode] does not throw on an object whose attributes are strings
    and lists of strings. *)
Lemma decode_throws_raw (o : gmap string value) :
  map_Forall (λ _ v, raw_value v) o → decode_throws o = false.
Proof.
  intros Hraw. unfold decode_throws.
  destruct (existsb _ attrs2numerify) eqn:Hex; [|done].
  apply existsb_exists in Hex as (a & _ & Ha).
  unfold numerify_throws, get in Ha. apply andb_true_iff in Ha as [_ Ha].
  destruct ((forEach attrs2ignore ignore_attr o).1 !! a) as [v|] eqn:Hv;
    cbn [default from_option id] in Ha; [|done].
  apply ignored_lookup_Some in Hv.
  by rewrite (raw_value_converts v (Hraw a v Hv)) in Ha.
Qed.

(** [decode] does not throw on the object of a directory entry. *)
Lemma decode_throws_entry (e : gmap string ldap_attr) :
  decode_throws (entry_object e) = false.
Proof.
  apply decode_throws_raw. intros k v Hk. unfold entry_object in Hk.
  apply lookup_fmap_Some in Hk as (a & <- & _).
  destruct a as [s|l]; [left; by exists s | right; by exists l].
Qed.

(** X11: in a text whose attribute names are not inherited ones, every
    attribute the LDIF loader has gathered is a string or a list of
    strings; [decode] is never handed anything else by this loader, and
    so it never throws there. *)
Theorem ldif_lookup_raw (lines : list string) :
  own_names lines = true →
  (∀ k v, lookup (ldif_lines lines) !! k = Some v → raw_value v)
  ∧ decode_throws (lookup (ldif_lines lines)) = false.
Proof.
  intros _. pose proof (ldif_lines_raw lines) as Hraw.
  split; [exact Hraw|]. by apply decode_throws_raw.
Qed.

Lemma ldif_lookup_raw_witness :
  raw_value (VArr [VStr "n1"; VStr "n2"])
  ∧ decode_throws
      (lookup (ldif_lines ["uuid: u1"; "networks: n1"; "networks: n2"]))
    = false.
Proof.
  destruct (ldif_lookup_raw ["uuid: u1"; "networks: n1"; "networks: n2"] eq_refl)
    as [Hraw Hthrows].
  split; [|exact Hthrows].
  apply (Hraw "networks"). vm_compute. reflexivity.
Defined.

Lemma prepend_line (P : list value) (L : list entry) (st : ldif_state)
    (line : string) :
  ldif_line (prepend P L st) line = prepend P L (ldif_line st line).
Proof.
  destruct (decide (line = "")) as [->|Hne].
  - rewrite !ldif_line_blank. unfold prepend at 1 2 3 4 5 6. cbn [lookup packages ldif_log].
    destruct (Nat.ltb 0 (size (lookup st))); [|done].
    unfold prepend. cbn [lookup packages ldif_log].
    destruct (truthy _); by rewrite <- !app_assoc.
  - rewrite !(ldif_line_other _ line Hne).
    by destruct (ldif_match line) as [[name val]|].
Qed.

Lemma prepend_lines (P : list value) (L : list entry) (st : ldif_state)
    (lines : list string) :
  fold_left ldif_line lines (prepend P L st)
  = prepend P L (fold_left ldif_line lines st).
Proof.
  revert st. induction lines as [|line lines IH]; intros st; [done|].
  cbn [fold_left]. by rewrite prepend_line, IH.
Qed.

Lemma ldif_lines_snoc (lines : list string) (line : string) :
  ldif_lines (lines ++ [line]) = ldif_line (ldif_lines lines) line.
Proof. unfold ldif_lines. by rewrite fold_left_app. Qed.

Lemma ldif_lines_after_blank (la lb : list string) :
  ldif_lines ((la ++ [""]) ++ lb)
  = prepend (packages (ldif_lines (la ++ [""])))
      (ldif_log (ldif_lines (la ++ [""]))) (ldif_lines lb).
Proof.
  unfold ldif_lines at 1. rewrite fold_left_app.
  fold (ldif_lines (la ++ [""])).
  generalize (ldif_blank_lookup (ldif_lines la)).
  rewrite <- ldif_lines_snoc.
  destruct (ldif_lines (la ++ [""])) as [P lk L]. cbn [lookup packages ldif_log].
  intros ->. unfold ldif_lines at 1. rewrite <- prepend_lines.
  unfold prepend. cbn [lookup packages ldif_log]. by rewrite !app_nil_r.
Qed.

(** X12: objects are loaded independently of what comes before them: a
    text cut at a blank line, with no attribute of an inherited name,
    loads as its first part, through the blank line, followed by its
    second part loaded on its own, for the packages and for the log
    alike. *)
Theorem ldif_blocks_independent (a b : string) :
  own_names (split_lines a) = true → own_names (split_lines b) = true →
  loadLdifPackages (inr (a +:+ String newline (String newline b)))
  = (Loaded (packages (ldif_lines (split_lines (a +:+ String newline "")))
             ++ packages (ldif_lines (split_lines b))),
     ldif_log (ldif_lines (split_lines (a +:+ String newline "")))
     ++ ldif_log (ldif_lines (split_lines b))).
Proof.
  intros _ _. unfold loadLdifPackages.
  rewrite !split_lines_append.
  change (split_lines (String newline b)) with ("" :: split_lines b).
  change (split_lines "") with [""].
  change (split_lines a ++ "" :: split_lines b)
    with (split_lines a ++ [""] ++ split_lines b).
  rewrite app_assoc, ldif_lines_after_blank. reflexivity.
Qed.

Lemma ldif_blocks_independent_witness :
  loadLdifPackages
    (inr ("uuid: u1" +:+ String newline (String newline (unlines ["uuid: u2"; ""; ""]))))
  = (Loaded [VObj {["uuid" := VStr "u1"]}; VObj {["uuid" := VStr "u2"]}], []).
Proof.
  rewrite (ldif_blocks_independent "uuid: u1" (unlines ["uuid: u2"; ""; ""]))
    by reflexivity.
  vm_compute. reflexivity.
Defined.

Lemma cut_at_colon_parts (s name rest : string) :
  cut_at_colon s = Some (name, rest) →
  s = name +:+ String ":" rest ∧ has_colon name = false.
Proof.
  revert name. induction s as [|c s IH]; intros name; [done|].
  cbn [cut_at_colon]. destruct (Ascii.eqb_spec c ":") as [->|Hc].
  - by intros [= <- <-].
  - destruct (cut_at_colon s) as [[n v]|]; [|done].
    intros [= <- <-]. destruct (IH n eq_refl) as [-> Hn]. split; [done|].
    cbn [has_colon]. rewrite Hn.
    by destruct (Ascii.eqb_spec c ":").
Qed.

Lemma cut_at_colon_none (s : string) :
  has_colon s = false → cut_at_colon s = None.
Proof.
  induction s as [|c s IH]; [done|]. cbn [has_colon cut_at_colon].
  intros [Hc Hs]%orb_false_iff. by rewrite Hc, (IH Hs).
Qed.

(** X13: when a line is taken as an attribute, its name is the text
    before the first colon, not empty; the name, a colon and the second
    group give the line back; and the second group is a space or a colon
    and a space, followed by at least one character. *)
Theorem ldif_match_parts (line name val : string) :
  ldif_match line = Some (name, val) →
  line = name +:+ String ":" val ∧ name ≠ "" ∧ has_colon name = false
  ∧ ∃ c rest, val = String " " (String c rest)
              ∨ val = String ":" (String " " (String c rest)).
Proof.
  unfold ldif_match.
  destruct (cut_at_colon line) as [[[|c n] rest]|] eqn:Hcut; [done| |done].
  apply cut_at_colon_parts in Hcut as [-> Hn].
  assert (∀ tail, (match tail with
                   | String " " (String d t) =>
                       if no_line_terminator (String d t)
                       then Some (String c n, rest) else None
                   | _ => None
                   end) = Some (name, val) →
                  String c n = name ∧ rest = val
                  ∧ ∃ d t, tail = String " " (String d t)) as Htail.
  { intros tail. destruct tail as [|x [|d t]]; try done;
      try (by destruct (Ascii.eqb_spec x " ") as [->|]; [|destruct x as [[] [] [] [] [] [] [] []]]).
    destruct x as [[] [] [] [] [] [] [] []]; try done.
    destruct (no_line_terminator _); [|done]. intros [= <- <-]. eauto. }
  intros H. apply Htail in H as (<- & <- & d & t & Ht).
  split; [done|]. split; [done|]. split; [done|]. exists d, t.
  destruct rest as [|x r]; [done|].
  destruct (Ascii.eqb_spec x ":") as [->|Hx].
  - right. by rewrite <- Ht.
  - left. rewrite <- Ht. by destruct x as [[] [] [] [] [] [] [] []].
Qed.

Lemma ldif_match_parts_witness :
  "name:: aGVsbG8=" = "name" +:+ String ":" ": aGVsbG8=" ∧ "name" ≠ ""
  ∧ has_colon "name" = false
  ∧ ∃ c rest, ": aGVsbG8=" = String " " (String c rest)
              ∨ ": aGVsbG8=" = String ":" (String " " (String c rest)).
Proof. apply ldif_match_parts. vm_compute. reflexivity. Defined.

(** X14: a line that is not blank and holds no colon (a comment, a
    continuation line) changes nothing. *)
Theorem ldif_line_without_colon (st : ldif_state) (line : string) :
  line ≠ "" → has_colon line = false → ldif_line st line = st.
Proof.
  intros Hne Hc. rewrite (ldif_line_other st line Hne).
  unfold ldif_match. by rewrite (cut_at_colon_none line Hc).
Qed.

Lemma ldif_line_without_colon_witness :
  ldif_line (LdifState [] {["uuid" := VStr "u1"]} []) "# a comment"
  = LdifState [] {["uuid" := VStr "u1"]} [].
Proof. apply ldif_line_without_colon; [discriminate | reflexivity]. Defined.

(** ** The save pipeline, further *)

Lemma savePapiPackages_Called (backend : Backend) (dryrun overwrite : value)
    (pkgs : list value) (s0 : store backend) :
  truthy (init backend s0).1 = false →
  savePapiPackages backend dryrun overwrite pkgs s0
  = let st := fold_left (savePkg backend dryrun overwrite) pkgs
                (SaveState (init backend s0).2 [] 0) in
    Called (SaveState (quit backend (st_store st))
              (st_log st ++ [Entry Info [("count", VNum (Dec false (N.of_nat (success st)) 0))]
                               "%d packages imported to PAPI"])
              (success st)).
Proof.
  intros Hi. unfold savePapiPackages.
  destruct (init backend s0) as [err s1]. cbn [fst snd] in *. by rewrite Hi.
Qed.

Lemma savePkg_idle (backend : Backend) (dryrun overwrite : value)
    (st : save_state backend) (pkg : value) :
  truthy dryrun = true ∨ validate backend pkg (schema backend) ≠ None →
  st_store (savePkg backend dryrun overwrite st pkg) = st_store st
  ∧ success (savePkg backend dryrun overwrite st pkg) = success st.
Proof.
  intros H. unfold savePkg.
  destruct (validate backend pkg (schema backend)); [done|].
  destruct H as [->|?]; done.
Qed.

(** X15: a dry run, and a run in which no record passes validation,
    never write: the store is what [backend.init] left, closed by
    [backend.quit], and the count of imported packages is 0. *)
Theorem save_without_writes (backend : Backend) (dryrun overwrite : value)
    (pkgs : list value) (s0 : store backend) :
  truthy (init backend s0).1 = false →
  truthy dryrun = true
  ∨ Forall (λ pkg, validate backend pkg (schema backend) ≠ None) pkgs →
  ∃ st, savePapiPackages backend dryrun overwrite pkgs s0 = Called st
        ∧ st_store st = quit backend (init backend s0).2
        ∧ success st = 0.
Proof.
  intros Hi Hidle. rewrite (savePapiPackages_Called _ _ _ _ _ Hi).
  eexists. split; [reflexivity|]. cbn [st_store success].
  assert (∀ st : save_state backend,
            st_store (fold_left (savePkg backend dryrun overwrite) pkgs st)
              = st_store st
            ∧ success (fold_left (savePkg backend dryrun overwrite) pkgs st)
              = success st) as Hfold.
  { induction pkgs as [|pkg pkgs IH]; intros st; [done|]. cbn [fold_left].
    destruct (savePkg_idle backend dryrun overwrite st pkg) as [Hs Hc].
    { destruct Hidle as [?|Hall]; [by left|right].
      by apply Forall_cons in Hall as [? _]. }
    destruct IH with (st := savePkg backend dryrun overwrite st pkg) as [-> ->];
      [|done].
    destruct Hidle as [?|Hall]; [by left|right].
    by apply Forall_cons in Hall as [_ ?]. }
  destruct (Hfold (SaveState (init backend s0).2 [] 0)) as [-> ->]. done.
Qed.

Lemma save_without_writes_witness :
  ∃ st, savePapiPackages memory_backend (VBool true) VUndef
          [VObj {["uuid" := VStr "u1"]}; VObj {["uuid" := VStr "u2"]}] ∅
        = Called st
        ∧ st_store st = (∅ : gmap string value) ∧ success st = 0.
Proof.
  apply (save_without_writes memory_backend (VBool true) VUndef
           [VObj {["uuid" := VStr "u1"]}; VObj {["uuid" := VStr "u2"]}] ∅).
  - reflexivity.
  - by left.
Defined.

Lemma savePkg_one_entry (backend : Backend) (dryrun overwrite : value)
    (st : save_state backend) (pkg : value) :
  length (st_log (savePkg backend dryrun overwrite st pkg)) = S (length (st_log st))
  ∧ success (savePkg backend dryrun overwrite st pkg)
    = (success st + (if truthy dryrun then 0
                     else if is_imported (disposition_of backend dryrun overwrite st pkg)
                          then 1 else 0))%nat.
Proof.
  unfold savePkg, create, disposition_of.
  destruct (validate backend pkg (schema backend)).
  { cbn [st_log success is_imported]. rewrite length_app. cbn [length].
    destruct (truthy dryrun); lia. }
  destruct (truthy dryrun).
  { cbn [st_log success]. rewrite length_app. cbn [length]. lia. }
  destruct ((if truthy overwrite then updatePkg backend else createPkg backend)
              _ _ _ _) as [err2 s]. cbn [fst].
  destruct (strict_equals err2 _);
    [|destruct (truthy err2)];
    cbn [st_log success is_imported]; rewrite length_app; cbn [length]; lia.
Qed.

(** X16: the pipeline handles every record, whatever happens to the
    others: it logs one entry per input record and the closing count, and
    the count is at most the number of records. *)
Theorem save_one_entry_per_record (backend : Backend) (dryrun overwrite : value)
    (pkgs : list value) (s0 : store backend) (st : save_state backend) :
  savePapiPackages backend dryrun overwrite pkgs s0 = Called st →
  length (st_log st) = S (length pkgs) ∧ (success st ≤ length pkgs)%nat.
Proof.
  unfold savePapiPackages. destruct (init backend s0) as [err s1].
  destruct (truthy err); [done|]. intros [= <-]. cbn [st_log success].
  assert (∀ st0 : save_state backend,
            length (st_log (fold_left (savePkg backend dryrun overwrite) pkgs st0))
              = (length (st_log st0) + length pkgs)%nat
            ∧ (success (fold_left (savePkg backend dryrun overwrite) pkgs st0)
               ≤ success st0 + length pkgs)%nat) as Hfold.
  { induction pkgs as [|pkg pkgs IH]; intros st0.
    - cbn [fold_left length]. lia.
    - cbn [fold_left length].
      destruct (IH (savePkg backend dryrun overwrite st0 pkg)) as [-> Hle].
      destruct (savePkg_one_entry backend dryrun overwrite st0 pkg) as [Hl Hs].
      rewrite Hl. rewrite Hs in Hle.
      destruct (truthy dryrun); [lia|]. destruct (is_imported _); lia. }
  destruct (Hfold (SaveState s1 [] 0)) as [Hl Hs]. cbn [st_log success length] in *.
  rewrite length_app, Hl. cbn [length]. lia.
Qed.

Lemma save_one_entry_per_record_witness :
  match savePapiPackages refusing_backend VUndef VUndef
          [VObj {["uuid" := VStr "u1"]}; VObj {["uuid" := VStr "u2"]}] tt with
  | Called st => length (st_log st) = 3 ∧ (success st ≤ 2)%nat
  | InitError _ => False
  end.
Proof.
  rewrite (savePapiPackages_Called refusing_backend VUndef VUndef _ tt eq_refl).
  cbv beta zeta iota.
  apply (save_one_entry_per_record refusing_backend VUndef VUndef
           [VObj {["uuid" := VStr "u1"]}; VObj {["uuid" := VStr "u2"]}] tt).
  apply (savePapiPackages_Called refusing_backend VUndef VUndef _ tt eq_refl).
Defined.

(** X17: outside a dry run the count that the pipeline reports is the
    number of records whose write the store accepted, that is, of
    disposition [imported]; duplicates, invalid and failed records do not
    count. *)
Theorem save_counts_imported (backend : Backend) (dryrun overwrite : value)
    (pkgs : list value) (s0 : store backend) (st : save_state backend) :
  truthy dryrun = false →
  savePapiPackages backend dryrun overwrite pkgs s0 = Called st →
  success st
  = length (List.filter is_imported
              (pipeline_dispositions backend dryrun overwrite pkgs s0)).
Proof.
  intros Hd. unfold savePapiPackages, pipeline_dispositions.
  destruct (init backend s0) as [err s1].
  destruct (truthy err); [done|]. intros [= <-]. cbn [success].
  assert (∀ st0 : save_state backend,
            success (fold_left (savePkg backend dryrun overwrite) pkgs st0)
            = (success st0
               + length (List.filter is_imported
                           (dispositions backend dryrun overwrite st0 pkgs)))%nat)
    as Hfold.
  { induction pkgs as [|pkg pkgs IH]; intros st0.
    - cbn [fold_left dispositions List.filter length]. lia.
    - cbn [fold_left dispositions List.filter].
      rewrite IH.
      destruct (savePkg_one_entry backend dryrun overwrite st0 pkg) as [_ ->].
      rewrite Hd. destruct (is_imported _); cbn [length]; lia. }
  by rewrite Hfold.
Qed.

Lemma save_counts_imported_witness :
  match savePapiPackages memory_backend VUndef VUndef
          [VObj {["uuid" := VStr "u1"]}; VObj {["uuid" := VStr "u1"]};
           VObj {["name" := VStr "nameless"]}] ∅ with
  | Called st => success st = 1
  | InitError _ => False
  end.
Proof.
  rewrite (savePapiPackages_Called memory_backend VUndef VUndef _ ∅ eq_refl).
  cbv beta zeta iota.
  rewrite (save_counts_imported memory_backend VUndef VUndef
             [VObj {["uuid" := VStr "u1"]}; VObj {["uuid" := VStr "u1"]};
              VObj {["name" := VStr "nameless"]}] ∅ _ eq_refl
             (savePapiPackages_Called memory_backend VUndef VUndef _ ∅ eq_refl)).
  vm_compute. reflexivity.
Defined.

(** ** Options and main, further *)

(** X18: the defaults of [parseOpts] fill [binddn] and [password] when
    they are missing or falsy, keep them otherwise, and touch no other
    option. *)
Theorem parseOpts_defaults (parsed : completion (gmap string value))
    (opts : gmap string value) :
  parseOpts parsed = Go opts →
  ∃ o, parsed = Return o
       ∧ get opts "binddn"
         = (if truthy (get o "binddn") then get o "binddn" else VStr "cn=root")
       ∧ get opts "password"
         = (if truthy (get o "password") then get o "password" else VStr "secret")
       ∧ ∀ k, k ≠ "binddn" → k ≠ "password" → get opts k = get o k.
Proof.
  intros Hgo. destruct (parseOpts_Go parsed opts Hgo) as (o & -> & _ & Hsame).
  exists o. split; [done|]. split; [|split; [|done]]; clear Hsame.
  - revert Hgo. unfold parseOpts. destruct (_ || _); [done|].
    intros Heq. injection Heq as <-. unfold get.
    destruct (truthy (default VUndef (o !! "binddn"))) eqn:Hb; cbn [negb].
    + match goal with |- context [if ?b then _ else _] => destruct b end;
        by rewrite ?lookup_insert_ne.
    + match goal with |- context [if ?b then _ else _] => destruct b end;
        rewrite ?lookup_insert_ne by done; by rewrite lookup_insert_eq.
  - revert Hgo. unfold parseOpts. destruct (_ || _); [done|].
    intros Heq. injection Heq as <-. unfold get.
    destruct (truthy (default VUndef (o !! "binddn"))); cbn [negb];
      rewrite ?lookup_insert_ne by done;
      destruct (truthy (default VUndef (o !! "password"))); cbn [negb];
      rewrite ?lookup_insert_eq, ?lookup_insert_ne by done; done.
Qed.

Lemma parseOpts_defaults_witness :
  ∃ o, Return json_opts = Return o
       ∧ get (<["password" := VStr "secret"]> (<["binddn" := VStr "cn=root"]> json_opts))
             "binddn"
         = (if truthy (get o "binddn") then get o "binddn" else VStr "cn=root")
       ∧ get (<["password" := VStr "secret"]> (<["binddn" := VStr "cn=root"]> json_opts))
             "password"
         = (if truthy (get o "password") then get o "password" else VStr "secret")
       ∧ ∀ k, k ≠ "binddn" → k ≠ "password" →
              get (<["password" := VStr "secret"]> (<["binddn" := VStr "cn=root"]> json_opts)) k
              = get o k.
Proof. apply parseOpts_defaults. vm_compute. reflexivity. Defined.

(** X19: asked for help, or given no source at all, the program prints
    its usage and exits with status 0: nothing is loaded and the backend
    is not touched. *)
Theorem main_usage (o : gmap string value) (w : World) (backend : Backend)
    (s0 : store backend) :
  truthy (get o "help") = true
  ∨ (truthy (get o "url") = false ∧ truthy (get o "ldif") = false
     ∧ truthy (get o "json") = false) →
  main (Return o) w backend s0 = Run 0 [] None.
Proof.
  intros H. unfold main, parseOpts.
  assert (truthy (get o "help")
          || negb (truthy (get o "url") || truthy (get o "ldif")
                   || truthy (get o "json")) = true) as ->; [|done].
  destruct H as [->|(-> & -> & ->)]; [done|]. apply orb_true_r.
Qed.

Lemma main_usage_witness :
  main (Return {["debug" := VNum (Dec false 1 0)]}) one_file_world
    refusing_backend tt
  = Run 0 [] None.
Proof. apply main_usage. right. by vm_compute. Defined.

(** ** The earlier importer *)

Lemma frames_old_numerify_attr (a : string) :
  frames (LdapImport.numerify_attr a) [a].
Proof.
  intros o k Hk. rewrite list_elem_of_singleton in Hk.
  unfold LdapImport.numerify_attr. cbn [fst].
  destruct (truthy (get o a)); by rewrite ?lookup_insert_ne.
Qed.

Lemma frames_old_boolean_attr (a : string) :
  frames (LdapImport.boolean_attr a) [a].
Proof.
  intros o k Hk. rewrite list_elem_of_singleton in Hk.
  unfold LdapImport.boolean_attr. cbn [fst].
  destruct (strict_equals _ _); by rewrite lookup_insert_ne.
Qed.

Lemma frames_parse_attr (a : string) (fallback : value) :
  frames (LdapImport.parse_attr a fallback) [a].
Proof.
  intros o k Hk. rewrite list_elem_of_singleton in Hk.
  unfold LdapImport.parse_attr. destruct (truthy _); [|done].
  destruct (JSON_parse _); cbn [fst]; by rewrite lookup_insert_ne.
Qed.

Lemma frames_old_ignored :
  frames (forEach LdapImport.attrs2ignore ignore_attr) LdapImport.attrs2ignore.
Proof. apply frames_forEach, frames_ignore_attr. Qed.

Lemma frames_old_numerified :
  frames (forEach LdapImport.attrs2numerify LdapImport.numerify_attr)
    LdapImport.attrs2numerify.
Proof. apply frames_forEach, frames_old_numerify_attr. Qed.

Lemma frames_old_booleaned :
  frames (forEach LdapImport.booleans LdapImport.boolean_attr) LdapImport.booleans.
Proof. apply frames_forEach, frames_old_boolean_attr. Qed.

Lemma searchEntry_stages (o : gmap string value) :
  LdapImport.searchEntry o
  = (LdapImport.parse_attr "traits" (VObj ∅)
       (LdapImport.parse_attr "networks" (VArr [])
          (forEach LdapImport.booleans LdapImport.boolean_attr
             (forEach LdapImport.attrs2numerify LdapImport.numerify_attr
                (forEach LdapImport.attrs2ignore ignore_attr o).1).1).1).1).1.
Proof. unfold LdapImport.searchEntry. rewrite !seq_fst. reflexivity. Qed.

Ltac old_step_over :=
  first
    [ rewrite (frames_parse_attr _ _ _) by compute_done
    | rewrite (frames_old_booleaned _ _) by compute_done
    | rewrite (frames_old_numerified _ _) by compute_done
    | rewrite (frames_old_ignored _ _) by compute_done ].

Lemma searchEntry_untouched (o : gmap string value) (k : string) :
  k ∉ searchEntry_footprint → LdapImport.searchEntry o !! k = o !! k.
Proof.
  unfold LdapImport.searchEntry.
  exact (frames_seq _ _ _ _ frames_old_ignored
          (frames_seq _ _ _ _ frames_old_numerified
          (frames_seq _ _ _ _ frames_old_booleaned
          (frames_seq _ _ _ _ (frames_parse_attr "networks" (VArr []))
                              (frames_parse_attr "traits" (VObj ∅))))) o k).
Qed.

Lemma searchEntry_ignored (o : gmap string value) (a : string) :
  a ∈ LdapImport.attrs2ignore → LdapImport.searchEntry o !! a = None.
Proof.
  intros Ha.
  destruct (forEach_at LdapImport.attrs2ignore ignore_attr a o
              ltac:(compute_done) Ha frames_ignore_attr) as (x & Hx & Heq).
  rewrite searchEntry_stages.
  unfold LdapImport.attrs2ignore in Ha.
  repeat (apply elem_of_cons in Ha as [->|Ha];
          [repeat old_step_over; rewrite Heq; apply lookup_delete_eq|]).
  by apply elem_of_nil in Ha.
Qed.

Lemma searchEntry_numeric (o : gmap string value) (a : string) :
  a ∈ LdapImport.attrs2numerify →
  LdapImport.searchEntry o !! a
  = if truthy (get o a) then Some (VNum (ToNumber (get o a))) else o !! a.
Proof.
  intros Ha.
  destruct (forEach_at LdapImport.attrs2numerify LdapImport.numerify_attr a
              (forEach LdapImport.attrs2ignore ignore_attr o).1
              ltac:(compute_done) Ha frames_old_numerify_attr) as (x & Hx & Heq).
  assert (x !! a = o !! a) as Hxo.
  { rewrite Hx. apply frames_old_ignored.
    unfold LdapImport.attrs2numerify in Ha.
    repeat (apply elem_of_cons in Ha as [->|Ha]; [compute_done|]).
    by apply elem_of_nil in Ha. }
  assert (LdapImport.searchEntry o !! a = (LdapImport.numerify_attr a x).1 !! a)
    as ->.
  { rewrite searchEntry_stages, <- Heq. clear Heq Hx Hxo.
    unfold LdapImport.attrs2numerify in Ha.
    repeat (apply elem_of_cons in Ha as [->|Ha]; [by repeat old_step_over|]).
    by apply elem_of_nil in Ha. }
  unfold LdapImport.numerify_attr, get. cbn [fst]. rewrite Hxo.
  destruct (truthy _); [apply lookup_insert_eq | exact Hxo].
Qed.

Lemma searchEntry_boolean (o : gmap string value) (a : string) :
  a ∈ LdapImport.booleans →
  LdapImport.searchEntry o !! a
  = Some (VBool (strict_equals (get o a) (VStr "true"))).
Proof.
  intros Ha.
  destruct (forEach_at LdapImport.booleans LdapImport.boolean_attr a
              (forEach LdapImport.attrs2numerify LdapImport.numerify_attr
                 (forEach LdapImport.attrs2ignore ignore_attr o).1).1
              ltac:(compute_done) Ha frames_old_boolean_attr) as (x & Hx & Heq).
  assert (x !! a = o !! a) as Hxo.
  { rewrite Hx. unfold LdapImport.booleans in Ha.
    repeat (apply elem_of_cons in Ha as [->|Ha]; [by repeat old_step_over|]).
    by apply elem_of_nil in Ha. }
  assert (LdapImport.searchEntry o !! a = (LdapImport.boolean_attr a x).1 !! a)
    as ->.
  { rewrite searchEntry_stages, <- Heq. clear Heq Hx Hxo.
    unfold LdapImport.booleans in Ha.
    repeat (apply elem_of_cons in Ha as [->|Ha]; [by repeat old_step_over|]).
    by apply elem_of_nil in Ha. }
  unfold LdapImport.boolean_attr, get. cbn [fst]. rewrite Hxo.
  destruct (strict_equals _ _); apply lookup_insert_eq.
Qed.

Lemma parse_attr_lookup (a : string) (fallback : value) (x : gmap string value) :
  (LdapImport.parse_attr a fallback x).1 !! a
  = if truthy (get x a) then Some (default fallback (JSON_parse (get x a)))
    else x !! a.
Proof.
  unfold LdapImport.parse_attr. destruct (truthy (get x a)); [|done].
  destruct (JSON_parse (get x a)); cbn [fst default from_option id];
    apply lookup_insert_eq.
Qed.

Lemma searchEntry_networks (o : gmap string value) :
  LdapImport.searchEntry o !! "networks"
  = if truthy (get o "networks")
    then Some (default (VArr []) (JSON_parse (get o "networks")))
    else o !! "networks".
Proof.
  rewrite searchEntry_stages. old_step_over. rewrite parse_attr_lookup.
  unfold get. by repeat old_step_over.
Qed.

Lemma searchEntry_traits (o : gmap string value) :
  LdapImport.searchEntry o !! "traits"
  = if truthy (get o "traits")
    then Some (default (VObj ∅) (JSON_parse (get o "traits")))
    else o !! "traits".
Proof.
  rewrite searchEntry_stages, parse_attr_lookup.
  unfold get. by repeat old_step_over.
Qed.

(** X20: the earlier importer always gives a package both [active] and
    [default], as booleans that are [true] for the string [true] only; an
    absent attribute comes out [false], where [decode] leaves it absent. *)
Theorem searchEntry_booleans_set (o : gmap string value) (a : string) :
  a ∈ LdapImport.booleans →
  LdapImport.searchEntry o !! a
    = Some (VBool (strict_equals (get o a) (VStr "true")))
  ∧ (o !! a = None →
     LdapImport.searchEntry o !! a = Some (VBool false)
     ∧ (decode_obj o).1 !! a = None).
Proof.
  intros Ha. split; [by apply searchEntry_boolean|].
  intros Hnone. split.
  - rewrite (searchEntry_boolean o a Ha). unfold get. by rewrite Hnone.
  - destruct (decode_boolean_attr_at o a Ha) as (x & Hx & ->).
    unfold boolean_attr, get. rewrite Hx, Hnone.
    cbn [default from_option id strict_equals fst]. by rewrite Hx.
Qed.

Lemma searchEntry_booleans_set_witness :
  LdapImport.searchEntry {["uuid" := VStr "u1"]} !! "default" = Some (VBool false)
  ∧ (decode_obj {["uuid" := VStr "u1"]}).1 !! "default" = None.
Proof.
  apply (searchEntry_booleans_set {["uuid" := VStr "u1"]} "default");
    [compute_done | reflexivity].
Defined.

Lemma decode_lookup_numeric (o : gmap string value) (a : string) :
  a ∈ attrs2numerify →
  (decode_obj o).1 !! a
  = if truthy (get o a) then Some (VNum (ToNumber (get o a))) else o !! a.
Proof.
  intros Ha. destruct (decode_numeric_attr o a Ha) as (x & Hx & ->).
  rewrite numerify_attr_fst. unfold get. rewrite Hx.
  destruct (truthy _); [apply lookup_insert_eq | exact Hx].
Qed.

Lemma decode_lookup_boolean_string (o : gmap string value) (a s : string) :
  a ∈ attrs2boolean → o !! a = Some (VStr s) →
  (decode_obj o).1 !! a = Some (VBool (strict_equals (VStr s) (VStr "true"))).
Proof.
  intros Ha Hs. destruct (decode_boolean_attr_at o a Ha) as (x & Hx & ->).
  unfold boolean_attr, get. rewrite Hx, Hs.
  cbn [default from_option id strict_equals fst].
  rewrite orb_false_r. apply lookup_insert_eq.
Qed.

Lemma decode_lookup_networks_plain (o : gmap string value) :
  o !! "networks" = None ∨ (∃ s, o !! "networks" = Some (VStr s)) →
  (decode_obj o).1 !! "networks"
  = if truthy (get o "networks")
    then Some (default (VArr []) (JSON_parse (get o "networks")))
    else o !! "networks".
Proof.
  intros Hn. rewrite decode_networks_key. unfold networked.
  assert (get (booleaned o) "networks" = get o "networks") as Hget.
  { unfold get. by rewrite booleaned_networks. }
  destruct (truthy (get o "networks")) eqn:Ht.
  - destruct Hn as [Hn|[s Hs]]; [by unfold get in Ht; rewrite Hn in Ht|].
    assert (get o "networks" = VStr s) as Hv by (by unfold get; rewrite Hs).
    rewrite Hv in *.
    assert (s ≠ "") as Hne by (by intros ->).
    destruct (JSON_parse (VStr s)) as [v|] eqn:Hp.
    + rewrite (decode_networks_parse_ok _ s v) by by rewrite ?Hget.
      apply lookup_insert_eq.
    + rewrite (decode_networks_parse_fail _ s) by by rewrite ?Hget.
      apply lookup_insert_eq.
  - rewrite decode_networks_falsy by by rewrite Hget.
    apply booleaned_networks.
Qed.

Lemma decode_lookup_owner_falsy (o : gmap string value) (k : string) :
  truthy (get o "owner_uuid") = false → k ∈ ["owner_uuid"; "owner_uuids"] →
  (decode_obj o).1 !! k = o !! k.
Proof.
  intros Hf Hk.
  assert ((decode_owner_uuid (networked o)).1 = networked o) as Hst.
  { apply decode_owner_uuid_stable. unfold get. by rewrite networked_owner_uuid. }
  apply elem_of_cons in Hk as [->|Hk]; [|apply list_elem_of_singleton in Hk as ->].
  - rewrite decode_owner_uuid_key. unfold owned. rewrite Hst.
    apply networked_owner_uuid.
  - rewrite decode_owner_uuids. unfold owned. rewrite Hst.
    apply networked_owner_uuids.
Qed.

Lemma decode_lookup_traits (o : gmap string value) :
  (decode_obj o).1 !! "traits"
  = if truthy (get o "traits")
    then Some (default (VObj ∅) (JSON_parse (get o "traits")))
    else o !! "traits".
Proof.
  rewrite decode_traits_key. unfold traited. rewrite decode_blob_lookup.
  unfold get. by rewrite owned_traits.
Qed.

Lemma decode_lookup_min_platform_falsy (o : gmap string value) :
  truthy (get o "min_platform") = false →
  (decode_obj o).1 !! "min_platform" = o !! "min_platform".
Proof.
  intros Hf. rewrite decode_obj_fst, decode_blob_lookup.
  unfold get in *. by rewrite traited_min_platform, Hf.
Qed.

Lemma searchEntry_footprint_decode (k : string) :
  k ∈ searchEntry_footprint → k ∈ decode_footprint.
Proof.
  intros Hk. unfold searchEntry_footprint in Hk. cbn in Hk.
  repeat (apply elem_of_cons in Hk as [->|Hk]; [compute_done|]).
  by apply elem_of_nil in Hk.
Qed.

(** X21: on an entry that gives the two importers no reason to differ
    (none of the attributes ignored since, both booleans present as
    strings, [networks] absent or a string, no [owner_uuid] and no
    [min_platform]), the handler of [searchEntry] and [decode] produce the
    same package. *)
Theorem importers_agree (o : gmap string value) :
  plain_entry o → LdapImport.searchEntry o = (decode_obj o).1.
Proof.
  intros (Hnew & Hbool & Hnet & Hown & Hmp). apply map_eq. intros k.
  destruct (decide (k ∈ decode_footprint)) as [Hk|Hk].
  - unfold decode_footprint in Hk. cbn in Hk.
    repeat (apply elem_of_cons in Hk as [->|Hk];
            [first
               [ (* ignored by both *)
                 rewrite (searchEntry_ignored o) by compute_done;
                 by rewrite (decode_ignored_attr o) by compute_done
               | (* read as a number by the earlier one, ignored by decode *)
                 rewrite (searchEntry_numeric o) by compute_done;
                 rewrite (decode_ignored_attr o) by compute_done;
                 unfold get; by rewrite Hnew by compute_done
               | (* kept by the earlier one, ignored by decode *)
                 rewrite (searchEntry_untouched o) by compute_done;
                 rewrite (decode_ignored_attr o) by compute_done;
                 by rewrite Hnew by compute_done
               | rewrite (searchEntry_numeric o) by compute_done;
                 by rewrite (decode_lookup_numeric o) by compute_done
               | match goal with
                 | |- _ !! ?a = _ =>
                     destruct (Hbool a ltac:(compute_done)) as [s Hs];
                     rewrite (searchEntry_boolean o a) by compute_done;
                     rewrite (decode_lookup_boolean_string o a s
                                ltac:(compute_done) Hs);
                     unfold get; by rewrite Hs
                 end
               | by rewrite searchEntry_networks, (decode_lookup_networks_plain o Hnet)
               | rewrite (searchEntry_untouched o) by compute_done;
                 by rewrite (decode_lookup_owner_falsy o _ Hown) by compute_done
               | by rewrite searchEntry_traits, decode_lookup_traits
               | rewrite (searchEntry_untouched o) by compute_done;
                 by rewrite (decode_lookup_min_platform_falsy o Hmp) ]|]).
    by apply elem_of_nil in Hk.
  - rewrite (frames_decode_obj o k Hk).
    apply searchEntry_untouched. intros Hin. by apply Hk, searchEntry_footprint_decode.
Qed.

Lemma importers_agree_witness :
  LdapImport.searchEntry
    {["uuid" := VStr "u1"; "active" := VStr "true"; "default" := VStr "false";
      "vcpus" := VStr "2"; "networks" := VStr ("[" +:+ quoted "n1" +:+ "]");
      "dn" := VStr "uuid=u1, ou=packages, o=smartdc"]}
  = (decode_obj
       {["uuid" := VStr "u1"; "active" := VStr "true"; "default" := VStr "false";
         "vcpus" := VStr "2"; "networks" := VStr ("[" +:+ quoted "n1" +:+ "]");
         "dn" := VStr "uuid=u1, ou=packages, o=smartdc"]}).1.
Proof.
  apply importers_agree. repeat split.
  - intros k Hk. unfold newly_ignored in Hk.
    repeat (apply elem_of_cons in Hk as [->|Hk]; [by vm_compute|]).
    by apply elem_of_nil in Hk.
  - intros a Ha. unfold attrs2boolean in Ha.
    repeat (apply elem_of_cons in Ha as [->|Ha]; [eexists; by vm_compute|]).
    by apply elem_of_nil in Ha.
  - right. eexists. by vm_compute.
Defined.

Lemma import_package_done (sh : LdapImport.Shared) (uuids : list value)
    (st : LdapImport.import_state sh) (p : gmap string value) :
  LdapImport.done (LdapImport.import_package sh uuids st p)
    = S (LdapImport.done st)
  ∧ (length (LdapImport.skipped_log (LdapImport.import_package sh uuids st p))
     + length (LdapImport.saved_log (LdapImport.import_package sh uuids st p))
     = S (length (LdapImport.skipped_log st) + length (LdapImport.saved_log st)))%nat
  ∧ LdapImport.im_client (LdapImport.import_package sh uuids st p)
    = if (LdapImport.indexOf uuids (get p "uuid") =? -1)%Z
      then (LdapImport.savePackage sh (LdapImport.im_client st) p).2
      else LdapImport.im_client st.
Proof.
  unfold LdapImport.import_package.
  destruct (_ =? _)%Z.
  - destruct (LdapImport.savePackage sh (LdapImport.im_client st) p) as [err4 c].
    cbn [LdapImport.done LdapImport.skipped_log LdapImport.saved_log
         LdapImport.im_client snd].
    rewrite length_app. cbn [length]. split; [done|]. split; [lia|done].
  - cbn [LdapImport.done LdapImport.skipped_log LdapImport.saved_log
         LdapImport.im_client].
    rewrite length_app. cbn [length]. split; [done|]. split; [lia|done].
Qed.

Lemma import_packages_fold (sh : LdapImport.Shared) (uuids : list value)
    (pkgs : list (gmap string value)) (st : LdapImport.import_state sh) :
  let st' := fold_left (LdapImport.import_package sh uuids) pkgs st in
  LdapImport.done st' = (LdapImport.done st + length pkgs)%nat
  ∧ (length (LdapImport.skipped_log st') + length (LdapImport.saved_log st')
     = length (LdapImport.skipped_log st) + length (LdapImport.saved_log st)
       + length pkgs)%nat
  ∧ LdapImport.im_client st'
    = fold_left (λ c p, (LdapImport.savePackage sh c p).2)
        (List.filter (λ p, (LdapImport.indexOf uuids (get p "uuid") =? -1)%Z) pkgs)
        (LdapImport.im_client st).
Proof.
  revert st. induction pkgs as [|p pkgs IH]; intros st.
  - cbn [fold_left length List.filter]. split; [lia|]. split; [lia|done].
  - cbn [fold_left length List.filter].
    destruct (IH (LdapImport.import_package sh uuids st p)) as (Hd & Hl & Hc).
    destruct (import_package_done sh uuids st p) as (Hd1 & Hl1 & Hc1).
    cbv zeta in *. rewrite Hd, Hl, Hc, Hd1, Hc1. split; [lia|]. split; [lia|].
    by destruct (_ =? _)%Z.
Qed.

(** X23: the earlier importer writes the packages whose [uuid] is not
    among those the target holds, in the order of the directory, and no
    other; it logs one entry for every package, saved or skipped, after
    the two counts. *)
Theorem ldap_import_saves_new_only (sh : LdapImport.Shared)
    (entries : list (gmap string value)) (c0 c1 : LdapImport.client sh)
    (uuids : list value) :
  LdapImport.morayClient sh = inr c0 →
  LdapImport.loadPackages sh c0 = (inr uuids, c1) →
  LdapImport.final_client (LdapImport.main (inr entries) sh)
    = Some (fold_left (λ c p, (LdapImport.savePackage sh c p).2)
              (List.filter
                 (λ p, (LdapImport.indexOf uuids (get p "uuid") =? -1)%Z)
                 (map LdapImport.searchEntry entries))
              c1)
  ∧ length (LdapImport.logged (LdapImport.main (inr entries) sh))
    = (2 + length entries)%nat.
Proof.
  intros Hm Hl. unfold LdapImport.main, LdapImport.loadUFDFSPackages.
  rewrite Hm, Hl. cbn [LdapImport.final_client LdapImport.logged].
  destruct (import_packages_fold sh uuids (map LdapImport.searchEntry entries)
              (LdapImport.ImportState c1 [] [] 0)) as (_ & Hlen & Hc).
  cbv zeta in Hlen, Hc. rewrite Hc. split; [done|].
  rewrite !length_app, Hlen, length_map. cbn [length LdapImport.skipped_log
    LdapImport.saved_log]. lia.
Qed.

Lemma ldap_import_saves_new_only_witness :
  LdapImport.final_client (LdapImport.main (inr two_entries) refusing_shared)
    = Some 1
  ∧ length (LdapImport.logged (LdapImport.main (inr two_entries) refusing_shared))
    = 4.
Proof.
  destruct (ldap_import_saves_new_only refusing_shared two_entries 0 0
              [VStr "u1"] eq_refl eq_refl) as [Hc Hl].
  split; [rewrite Hc; vm_compute; reflexivity | exact Hl].
Defined.

Lemma indexOf_absent (l : list value) (x : value) :
  LdapImport.indexOf l x = (-1)%Z ↔ Forall (λ y, strict_equals y x = false) l.
Proof.
  assert (∀ l, (-1 ≤ LdapImport.indexOf l x)%Z) as Hge.
  { clear l. induction l as [|y l IH]; cbn [LdapImport.indexOf]; [lia|].
    destruct (strict_equals y x); [lia|].
    destruct (Z.eqb_spec (LdapImport.indexOf l x) (-1)); lia. }
  induction l as [|y l IH]; cbn [LdapImport.indexOf]; [done|].
  rewrite Forall_cons. destruct (strict_equals y x).
  - split; [lia|]. by intros [? _].
  - destruct (Z.eqb_spec (LdapImport.indexOf l x) (-1)) as [He|Hne].
    + split; [|done]. intros _. split; [done|]. by apply IH.
    + specialize (Hge l). split; [lia|]. intros [_ H]. by apply IH in H.
Qed.

(** X24: a package whose [uuid] is a string that the target already
    holds is never written again: with every entry's [uuid] among the
    uuids read from the target, the client is left as [loadPackages]
    handed it over. *)
Theorem ldap_import_skips_known (sh : LdapImport.Shared)
    (entries : list (gmap string value)) (c0 c1 : LdapImport.client sh)
    (uuids : list value) :
  LdapImport.morayClient sh = inr c0 →
  LdapImport.loadPackages sh c0 = (inr uuids, c1) →
  Forall (λ o, ∃ u, o !! "uuid" = Some (VStr u) ∧ VStr u ∈ uuids) entries →
  LdapImport.final_client (LdapImport.main (inr entries) sh) = Some c1.
Proof.
  intros Hm Hl Hall.
  assert (List.filter (λ p, (LdapImport.indexOf uuids (get p "uuid") =? -1)%Z)
            (map LdapImport.searchEntry entries) = []) as Hnone.
  { induction Hall as [|o entries (u & Hu & Hin) Hall IH]; [done|].
    cbn [map List.filter].
    assert (get (LdapImport.searchEntry o) "uuid" = VStr u) as ->.
    { unfold get. by rewrite searchEntry_untouched, Hu by compute_done. }
    destruct (Z.eqb_spec (LdapImport.indexOf uuids (VStr u)) (-1)) as [He|_];
      [|exact IH].
    apply indexOf_absent in He.
    rewrite Forall_forall in He. specialize (He _ Hin).
    cbn [strict_equals] in He. by rewrite String.eqb_refl in He. }
  unfold LdapImport.main, LdapImport.loadUFDFSPackages.
  rewrite Hm, Hl. cbn [LdapImport.final_client].
  destruct (import_packages_fold sh uuids (map LdapImport.searchEntry entries)
              (LdapImport.ImportState c1 [] [] 0)) as (_ & _ & Hc).
  cbv zeta in Hc. by rewrite Hc, Hnone.
Qed.

Lemma ldap_import_skips_known_witness :
  LdapImport.final_client
    (LdapImport.main (inr [{["uuid" := VStr "u1"; "active" := VStr "true"]}])
       refusing_shared)
  = Some 0.
Proof.
  apply (ldap_import_skips_known refusing_shared
           [{["uuid" := VStr "u1"; "active" := VStr "true"]}] 0 0 [VStr "u1"]
           eq_refl eq_refl).
  apply Forall_singleton. exists "u1". split; [by vm_compute|].
  by apply list_elem_of_singleton.
Defined.

(** X25: the handler of [searchEntry], attribute by attribute: the three
    ignored attributes are removed; a numeric attribute becomes the number
    [Number] makes of it when truthy (and [Number] does not throw) and is
    left alone otherwise;
    [networks] and [traits], when truthy, become what [JSON.parse] reads
    in them, or the empty list and the empty object when it fails; every
    other attribute but the two booleans is left as it was. *)
Theorem searchEntry_fields (o : gmap string value) (k : string) :
  (k ∈ LdapImport.attrs2ignore → LdapImport.searchEntry o !! k = None)
  ∧ (k ∈ LdapImport.attrs2numerify → throws_TypeError (get o k) = false →
     LdapImport.searchEntry o !! k
     = if truthy (get o k) then Some (VNum (ToNumber (get o k))) else o !! k)
  ∧ (k = "networks" →
     LdapImport.searchEntry o !! k
     = if truthy (get o k) then Some (default (VArr []) (JSON_parse (get o k)))
       else o !! k)
  ∧ (k = "traits" →
     LdapImport.searchEntry o !! k
     = if truthy (get o k) then Some (default (VObj ∅) (JSON_parse (get o k)))
       else o !! k)
  ∧ (k ∉ searchEntry_footprint → LdapImport.searchEntry o !! k = o !! k).
Proof.
  split; [apply searchEntry_ignored|].
  split; [intros Hk _; by apply searchEntry_numeric|].
  split; [intros ->; apply searchEntry_networks|].
  split; [intros ->; apply searchEntry_traits|].
  apply searchEntry_untouched.
Qed.

Lemma searchEntry_fields_witness :
  LdapImport.searchEntry
    {["uuid" := VStr "u1"; "overprovision_cpu" := VStr "1.5"]}
    !! "overprovision_cpu"
  = Some (VNum (Dec false 15 (-1))).
Proof.
  rewrite (proj1 (proj2 (searchEntry_fields _ "overprovision_cpu")))
    by (compute_done || reflexivity).
  vm_compute. reflexivity.
Defined.

Lemma string_drop_2 (a b : ascii) (s : string) :
  string_drop 2 (String a (String b s)) = s.
Proof.
  unfold string_drop. simpl. rewrite Nat.sub_0_r. apply substring_all.
Qed.

(** X26: after lines whose attribute names are not inherited ones, a
    line [name:: text] of such a name, with a base64 text in order,
    stores the text that its decoding reads as, under the same rules of
    accumulation as a plain value. *)
Theorem ldif_line_base64 (pre : list string) (name v : string) :
  own_names pre = true → name ∉ inherited_names →
  name ≠ "" → has_colon name = false →
  v ≠ "" → no_line_terminator v = true → base64_text v = true →
  ldif_lines (pre ++ [name +:+ ":: " +:+ v])
  = LdifState (packages (ldif_lines pre))
      (add_attr (lookup (ldif_lines pre)) name (base64_to_string v))
      (ldif_log (ldif_lines pre)).
Proof.
  intros _ _ Hne Hcol Hv Hlt _. rewrite ldif_lines_snoc.
  destruct name as [|c name]; [done|].
  rewrite ldif_line_other by done.
  unfold ldif_match.
  change (String c name +:+ ":: " +:+ v)
    with (String c name +:+ String ":" (String ":" (String " " v))).
  rewrite (cut_at_colon_app _ _ Hcol).
  destruct v as [|d t]; [done|].
  cbv iota beta. rewrite Hlt. unfold ldif_value.
  by rewrite string_drop_2.
Qed.

Lemma ldif_line_base64_witness :
  lookup (ldif_lines (["uuid: u1"; "name: a"] ++ ["name" +:+ ":: " +:+ "aGVsbG8="]))
    !! "name"
  = Some (VArr [VStr "a"; VStr "hello"]).
Proof.
  rewrite (ldif_line_base64 ["uuid: u1"; "name: a"] "name" "aGVsbG8=");
    [| reflexivity | compute_done | discriminate | reflexivity
     | discriminate | reflexivity | reflexivity].
  vm_compute. reflexivity.
Defined.

Lemma parseOpts_selects_witness :
  ∃ l, selectPackageSource
         (<["password" := VStr "secret"]> (<["binddn" := VStr "cn=root"]> json_opts))
       = Go l.
Proof. apply (parseOpts_selects (Return json_opts)). vm_compute. reflexivity. Defined.
